(** * N3T-R4NGER: a managed network scanner

    A shallow embedding of [n3t-R4ng3r.py] and the properties of its
    scan orchestration: host discovery and its fallback, the bounded worker
    pool with its shared counters, the result queue, the three output files
    and the exit code of the process.

    Conventions of the embedding.
    - A Python [str] is a [string]; each character stands for a code point
      below 256.  The text the external tool prints is ASCII in practice.
    - Python integers are [Z]; the inter-probe delay, a float read from the
      command line, is a [pyfloat]: a rational, an infinity or not-a-number.
    - The outside world (the [nmap] subprocess, the file system, the clock,
      the keyboard) is an explicit record of oracles, [env].
    - Console output, subprocess launches and sleeps are recorded in order
      in a trace of [event]s carried by the shared state. *)

From Stdlib Require Import ZArith List String Ascii Bool Lia QArith DecimalString.
From stdpp Require Import gmap strings.
Import ListNotations.
Open Scope Z_scope.

(** ** Python string primitives *)

Module PyStr.

(** [sub in s] *)
Fixpoint contains (sub s : string) : bool :=
  if String.prefix sub s then true
  else match s with
       | EmptyString => false
       | String _ s' => contains sub s'
       end.

(** [s.startswith(p)] *)
Definition startswith (s p : string) : bool := String.prefix p s.

(** [s.split(sep)] for a one-character separator: never returns the empty
    list, ['' .split(sep)] is [['']]. *)
Fixpoint split_on (sep : ascii) (s : string) : list string :=
  match s with
  | EmptyString => [EmptyString]
  | String c s' =>
      if Ascii.eqb c sep then EmptyString :: split_on sep s'
      else match split_on sep s' with
           | h :: t => String c h :: t
           | [] => [String c EmptyString]
           end
  end.

Definition newline : ascii := ascii_of_nat 10.
Definition NL : string := String newline EmptyString.

(** [s.split('\n')] *)
Definition lines (s : string) : list string := split_on newline s.

(** One character of [s.lower()]: A-Z and the Latin-1 capitals move up by 32. *)
Definition lower_char (c : ascii) : ascii :=
  let n := nat_of_ascii c in
  if ((65 <=? n)%nat && (n <=? 90)%nat)
     || ((192 <=? n)%nat && (n <=? 222)%nat && negb (n =? 215)%nat)
  then ascii_of_nat (n + 32) else c.

Fixpoint lower (s : string) : string :=
  match s with
  | EmptyString => EmptyString
  | String c s' => String (lower_char c) (lower s')
  end.

(** The characters [str.split()] and [str.strip()] treat as white space. *)
Definition isspace (c : ascii) : bool :=
  let n := nat_of_ascii c in
  ((9 <=? n)%nat && (n <=? 13)%nat) || ((28 <=? n)%nat && (n <=? 32)%nat)
  || (n =? 133)%nat || (n =? 160)%nat.

(** [s.split()]: the maximal runs of characters that are not white space.
    [cur] is the run being read. *)
Fixpoint split_ws_aux (cur : string) (s : string) : list string :=
  match s with
  | EmptyString => if String.eqb cur EmptyString then [] else [cur]
  | String c s' =>
      if isspace c
      then (if String.eqb cur EmptyString then split_ws_aux EmptyString s'
            else cur :: split_ws_aux EmptyString s')
      else split_ws_aux (cur +:+ String c EmptyString) s'
  end.

Definition split_ws (s : string) : list string := split_ws_aux EmptyString s.

(** The truth value of [s.strip()]: some character is not white space. *)
Fixpoint strip_nonempty (s : string) : bool :=
  match s with
  | EmptyString => false
  | String c s' => negb (isspace c) || strip_nonempty s'
  end.

(** [sep.join(l)] *)
Fixpoint join (sep : string) (l : list string) : string :=
  match l with
  | [] => EmptyString
  | [x] => x
  | x :: t => x +:+ sep +:+ join sep t
  end.

(** [c * n] for a one-character string *)
Fixpoint repeat_char (c : ascii) (n : nat) : string :=
  match n with
  | O => EmptyString
  | S k => String c (repeat_char c k)
  end.

(** [str(n)] for an integer *)
Definition str_Z (n : Z) : string := NilZero.string_of_int (Z.to_int n).

End PyStr.

(** ** The two regular expressions of the program

    Both patterns are sequences of literal characters and [\d+].  The matcher
    is the usual backtracking one: [\d+] is greedy, and gives digits back
    when the rest of the pattern fails. *)

Module Re.

Inductive atom : Type :=
| Lit (c : ascii)
| Digits1.

Definition isdigit (c : ascii) : bool :=
  let n := nat_of_ascii c in (48 <=? n)%nat && (n <=? 57)%nat.

(** [match_here p s]: the text matched by [p] at the start of [s]. *)
Fixpoint match_here (p : list atom) : string -> option string :=
  match p with
  | [] => fun _ => Some EmptyString
  | Lit c :: p' => fun s =>
      match s with
      | String d s' =>
          if Ascii.eqb d c then option_map (String d) (match_here p' s') else None
      | EmptyString => None
      end
  | Digits1 :: p' =>
      fix plus (s : string) : option string :=
        match s with
        | String d s' =>
            if isdigit d then
              match plus s' with
              | Some r => Some (String d r)
              | None => option_map (String d) (match_here p' s')
              end
            else None
        | EmptyString => None
        end
  end.

(** [re.match(p, s)] followed by [.group(1)], the group being the whole pattern *)
Definition re_match (p : list atom) (s : string) : option string := match_here p s.

(** [re.search(p, s)]: the leftmost match *)
Fixpoint re_search (p : list atom) (s : string) : option string :=
  match match_here p s with
  | Some r => Some r
  | None => match s with
            | EmptyString => None
            | String _ s' => re_search p s'
            end
  end.

(** [r'(\d+\.\d+\.\d+\.\d+)'] *)
Definition ip_pattern : list atom :=
  [Digits1; Lit "."; Digits1; Lit "."; Digits1; Lit "."; Digits1]%char.

(** [r'(\d+/tcp)'] *)
Definition port_pattern : list atom :=
  [Digits1; Lit "/"; Lit "t"; Lit "c"; Lit "p"]%char.

End Re.

(** ** The part of [ipaddress.IPv4Network] the scanner uses *)

Module IPv4.

Record Network : Type := mkNetwork {
  network_address : Z;
  prefixlen : Z
}.

Definition max_prefixlen : Z := 32.

(** The netmask of a prefix length, as a 32-bit integer. *)
Definition netmask (p : Z) : Z := 2 ^ 32 - 2 ^ (32 - p).

Definition hostmask (p : Z) : Z := 2 ^ (32 - p) - 1.

(** [IPv4Network((addr, p), strict=False)]: the host bits are cleared. *)
Definition make (addr p : Z) : Network :=
  {| network_address := Z.land addr (netmask p); prefixlen := p |}.

Definition broadcast_address (n : Network) : Z :=
  Z.lor (network_address n) (hostmask (prefixlen n)).

Definition num_addresses (n : Network) : Z :=
  broadcast_address n - network_address n + 1.

(** [range(a, b)] *)
Definition range (a b : Z) : list Z :=
  map (fun i => a + Z.of_nat i) (seq 0 (Z.to_nat (b - a))).

(** [hosts()]: the constructor replaces the generic method for the two
    longest prefixes. *)
Definition hosts (n : Network) : list Z :=
  if prefixlen n =? max_prefixlen - 1
  then range (network_address n) (broadcast_address n + 1)
  else if prefixlen n =? max_prefixlen
  then [network_address n]
  else range (network_address n + 1) (broadcast_address n).

(** [str(ip)]: the dotted quad *)
Definition str (a : Z) : string :=
  PyStr.str_Z (Z.land (Z.shiftr a 24) 255) +:+ "." +:+
  PyStr.str_Z (Z.land (Z.shiftr a 16) 255) +:+ "." +:+
  PyStr.str_Z (Z.land (Z.shiftr a 8) 255) +:+ "." +:+
  PyStr.str_Z (Z.land a 255).

(** A constructed network: a prefix length within bounds and a 32-bit
    network address whose host bits are zero. *)
Definition wf (n : Network) : Prop :=
  0 <= prefixlen n <= 32 /\
  0 <= network_address n < 2 ^ 32 /\
  Z.land (network_address n) (hostmask (prefixlen n)) = 0.

End IPv4.

(** ** Python floats *)

(** A Python [float]: a finite value, given as the rational it stands for,
    an infinity, or not-a-number.  The command line reads [--delay inf] and
    [--delay nan] as the last two. *)
Inductive pyfloat : Type :=
| Finite (q : Q)
| Infinity (negative : bool)
| NaN.

Coercion Finite : Q >-> pyfloat.
Bind Scope Q_scope with pyfloat.

(** ** The outside world *)

(** What [subprocess.run] does: it returns the exit status and the captured
    standard output, or raises.  [TimeoutExpired] and [FileNotFoundError] are
    told apart because the program catches them by class; every other
    subclass of [Exception] is [OtherException].  Each carries [str(e)]. *)
Inductive run_result : Type :=
| Completed (returncode : Z) (stdout : string)
| TimeoutExpired (e : string)
| FileNotFoundError (e : string)
| OtherException (e : string).

(** Where Ctrl-C reaches the main thread, if it does: inside the version
    check, inside the sweep, or somewhere in the [with] block of the scans.
    Worker threads never receive it. *)
Inductive interrupt_point : Type :=
| NoInterrupt
| AtVersionCheck
| AtSweep
| AtScan.

Record env : Type := mkEnv {
  (** [ipaddress.IPv4Network(spec, strict=False)]: the address and prefix
      length read from the specification, or the text of the [ValueError] *)
  ipv4_parse : string -> string + (Z * Z);
  (** [nmap --version] *)
  nmap_version : run_result;
  (** the sweep of a range *)
  nmap_sweep : string -> run_result;
  (** the detailed probe of one host; a host probed twice answers the same *)
  nmap_probe : string -> run_result;
  (** opening and writing a file: [None], or the text of the error *)
  open_error : string -> option string;
  (** [time.sleep(d)] for a finite delay [d >= 0]: [None] when it sleeps, or
      the text of the [OverflowError] or [OSError] it raises for a delay the
      platform cannot wait for (from about 9.2e9 seconds on) *)
  sleep_fails : Q -> option string;
  (** [time.strftime('%Y-%m-%d %H:%M:%S')] when the log file is written *)
  strftime_now : string;
  (** the elapsed time, formatted with [.2f] *)
  elapsed_time : string;
  interrupt : interrupt_point;
  (** for an interrupt during the scans: the number of hosts that had been
      submitted to the executor when it arrived *)
  submitted_at_interrupt : nat
}.

Inductive event : Type :=
| EvPrint (msg : string)
| EvRun (cmd : list string)
| EvSleep (d : Q).

(** What escapes a function: [KeyboardInterrupt], or an [Exception] with its text. *)
Inductive exn : Type :=
| KeyboardInterrupt
| Exception (msg : string).

Inductive result (A : Type) : Type :=
| Return (a : A)
| Raise (e : exn).

Arguments Return {A} a.
Arguments Raise {A} e.

(** ** The scanner object and the state its threads share *)

Record scanner : Type := mkScanner {
  target_range : string;
  max_threads : Z;
  delay : pyfloat;
  network : IPv4.Network;
  total_hosts : Z;
  output_base : string
}.

(** [results_queue] is the [Queue]: [put] appends, [get] takes the head.
    [files] is the file system, from name to content. *)
Record state : Type := mkState {
  active_scans : Z;
  completed_scans : Z;
  results_queue : list (string * string);
  files : gmap string string;
  trace : list event
}.

Definition emit (ev : event) (st : state) : state :=
  {| active_scans := active_scans st; completed_scans := completed_scans st;
     results_queue := results_queue st; files := files st;
     trace := trace st ++ [ev] |}.

Definition print (msg : string) (st : state) : state := emit (EvPrint msg) st.

Definition queue_put (r : string * string) (st : state) : state :=
  {| active_scans := active_scans st; completed_scans := completed_scans st;
     results_queue := results_queue st ++ [r]; files := files st;
     trace := trace st |}.

Definition set_queue (q : list (string * string)) (st : state) : state :=
  {| active_scans := active_scans st; completed_scans := completed_scans st;
     results_queue := q; files := files st; trace := trace st |}.

Definition write_file (name content : string) (st : state) : state :=
  {| active_scans := active_scans st; completed_scans := completed_scans st;
     results_queue := results_queue st; files := <[name := content]> (files st);
     trace := trace st |}.

(** [with self.lock: self.active_scans += 1] *)
Definition enter_scan (st : state) : state :=
  {| active_scans := active_scans st + 1; completed_scans := completed_scans st;
     results_queue := results_queue st; files := files st; trace := trace st |}.

(** [with self.lock: self.active_scans -= 1; self.completed_scans += 1] *)
Definition leave_scan (st : state) : state :=
  {| active_scans := active_scans st - 1; completed_scans := completed_scans st + 1;
     results_queue := results_queue st; files := files st; trace := trace st |}.

(** [s.replace(a, b)] for one-character strings *)
Fixpoint replace_char (a b : ascii) (s : string) : string :=
  match s with
  | EmptyString => EmptyString
  | String c s' => String (if Ascii.eqb c a then b else c) (replace_char a b s')
  end.

(** [NetworkScanner.__init__]: [inl] is [sys.exit(1)] after the error message. *)
Definition init (e : env) (range : string) (threads : Z) (d : pyfloat) (st : state)
  : state + (scanner * state) :=
  match ipv4_parse e range with
  | inl msg => inl (print ("Error: Invalid network range - " +:+ msg) st)
  | inr (addr, p) =>
      let net := IPv4.make addr p in
      let total := IPv4.num_addresses net in
      let st1 := if 65536 <? total
                 then print ("Warning: Large range detected (" +:+ PyStr.str_Z total +:+ " hosts)") st
                 else st in
      let range_clean := replace_char "." "-" (replace_char "/" "_" range) in
      inr ({| target_range := range; max_threads := threads; delay := d;
              network := net; total_hosts := total;
              output_base := range_clean +:+ "-network" |}, st1)
  end.

(** ** [check_nmap_installed] *)

Definition version_cmd : list string := ["nmap"; "--version"]%string.

Definition check_nmap_installed (e : env) (st : state) : result bool * state :=
  let st1 := emit (EvRun version_cmd) st in
  let missing := print "Error: nmap is not installed or not in PATH" st1 in
  match interrupt e with
  | AtVersionCheck => (Raise KeyboardInterrupt, st1)
  | _ =>
      match nmap_version e with
      | Completed rc _ => if rc =? 0 then (Return true, st1) else (Return false, missing)
      | FileNotFoundError _ => (Return false, missing)
      | TimeoutExpired m => (Raise (Exception m), st1)
      | OtherException m => (Raise (Exception m), st1)
      end
  end.

(** ** [ping_sweep] *)

Definition sweep_cmd (range : string) : list string :=
  ["nmap"; "-sn"; "-T4"; "--max-retries"; "1"; "--host-timeout"; "3s"; range]%string.

(** The body of the loop over the lines of the sweep output. *)
Definition sweep_line (live_hosts : list string) (line : string) : list string :=
  if PyStr.contains "Nmap scan report for" line then
    match Re.re_search Re.ip_pattern line with
    | Some ip => live_hosts ++ [ip]
    | None => live_hosts
    end
  else live_hosts.

Definition parse_sweep (stdout : string) : list string :=
  fold_left sweep_line (PyStr.lines stdout) [].

(** [[str(ip) for ip in self.network.hosts()]] *)
Definition all_hosts (s : scanner) : list string :=
  map IPv4.str (IPv4.hosts (network s)).

Definition ping_sweep (e : env) (s : scanner) (st : state) : result (list string) * state :=
  let st1 := print ("[*] Starting ping sweep on " +:+ target_range s) st in
  let st2 := print ("[*] Scanning " +:+ PyStr.str_Z (total_hosts s) +:+ " potential hosts...") st1 in
  let st3 := emit (EvRun (sweep_cmd (target_range s))) st2 in
  match interrupt e with
  | AtSweep => (Raise KeyboardInterrupt, st3)
  | _ =>
      match nmap_sweep e (target_range s) with
      | Completed _ stdout =>
          let live_hosts := parse_sweep stdout in
          (Return live_hosts,
           print ("[+] Found " +:+ PyStr.str_Z (Z.of_nat (length live_hosts)) +:+ " live hosts") st3)
      | TimeoutExpired _ =>
          (Return (all_hosts s),
           print "[-] Ping sweep timed out, proceeding with full range scan" st3)
      | FileNotFoundError m =>
          (Return (all_hosts s), print ("[-] Ping sweep failed: " +:+ m) st3)
      | OtherException m =>
          (Return (all_hosts s), print ("[-] Ping sweep failed: " +:+ m) st3)
      end
  end.

(** ** [process_scan_result] *)

Definition rule60 : string := PyStr.repeat_char "=" 60.

(** The loop variables of [process_scan_result], and the state for its prints. *)
Record port_loop : Type := mkPortLoop {
  in_port_section : bool;
  open_ports : list string;
  loop_state : state
}.

(** One iteration of the loop over the lines of the probe output. *)
Definition port_line (l : port_loop) (line : string) : port_loop :=
  if PyStr.contains "PORT" line && PyStr.contains "STATE" line then
    {| in_port_section := true; open_ports := open_ports l;
       loop_state := print line (loop_state l) |}
  else if in_port_section l && PyStr.strip_nonempty line then
    if PyStr.contains "/tcp" line || PyStr.contains "/udp" line then
      let parts := PyStr.split_ws line in
      {| in_port_section := in_port_section l;
         open_ports :=
           (if (3 <=? length parts)%nat && PyStr.contains "open" (nth 1 parts EmptyString)
            then open_ports l ++ [nth 0 parts EmptyString] else open_ports l);
         loop_state := print line (loop_state l) |}
    else if PyStr.startswith line "|" then
      {| in_port_section := in_port_section l; open_ports := open_ports l;
         loop_state := print line (loop_state l) |}
    else
      {| in_port_section := false; open_ports := open_ports l;
         loop_state := loop_state l |}
  else l.

Definition process_scan_result (host_ip nmap_output : string) (st : state) : state :=
  let st1 := print (PyStr.NL +:+ rule60) st in
  let st2 := print ("[+] RESULTS for " +:+ host_ip) st1 in
  let st3 := print rule60 st2 in
  let l := fold_left port_line (PyStr.lines nmap_output)
             {| in_port_section := false; open_ports := []; loop_state := st3 |} in
  let st4 := match open_ports l with
             | [] => loop_state l
             | _ :: _ =>
                 print (PyStr.NL +:+ "[+] " +:+ host_ip +:+ " - Open ports: "
                        +:+ PyStr.join ", " (open_ports l)) (loop_state l)
             end in
  let st5 := queue_put (host_ip, nmap_output) st4 in
  print (rule60 +:+ PyStr.NL) st5.

(** ** [scan_host] *)

Definition probe_cmd (host_ip : string) : list string :=
  ["nmap"; "-sS"; "-sC"; "-sV"; "-T4"; "--max-retries"; "2";
   "--host-timeout"; "10m"; "-p-"; host_ip]%string.

(** The test that guards [process_scan_result]. *)
Definition open_indication (returncode : Z) (stdout : string) : bool :=
  (returncode =? 0) && PyStr.contains "open" (PyStr.lower stdout).

(** The texts of the errors of [time.sleep]: the [ValueError] for a negative
    delay, the [OverflowError] for a delay whose nanoseconds do not fit 64
    bits, the [ValueError] for not-a-number. *)
Definition sleep_error : string := "sleep length must be non-negative".
Definition sleep_overflow : string := "timestamp too large to convert to C _PyTime_t".
Definition sleep_nan : string := "Invalid value NaN (not a number)".

(** [time.sleep(d)]: [inr q] when it sleeps, for [q] seconds, [inl] with the
    text of the exception when it raises.  Not-a-number and the infinities
    are refused before anything else; a negative delay is refused, with the
    overflow error when its nanoseconds, as a float, lie below [- 2 ^ 63];
    what happens to a delay that is not negative is the platform's answer. *)
Definition time_sleep (e : env) (d : pyfloat) : string + Q :=
  match d with
  | NaN => inl sleep_nan
  | Infinity _ => inl sleep_overflow
  | Finite q =>
      if Qle_bool 0 q then
        match sleep_fails e q with
        | Some msg => inl msg
        | None => inr q
        end
      else if Qle_bool ((-9223372036854776832) # 1) (q * (1000000000 # 1))
      then inl sleep_error
      else inl sleep_overflow
  end.

Definition scanning_msg (host_ip : string) (n_hosts : nat) (st : state) : string :=
  "[*] Scanning " +:+ host_ip +:+ " (" +:+ PyStr.str_Z (completed_scans st + 1)
  +:+ "/" +:+ PyStr.str_Z (Z.of_nat n_hosts) +:+ ")".

(** The probe comes back: the outcome is classified, and a result is put on
    the queue when the guard holds.  [true] when the [try] block goes on to
    the sleep, [false] when an [except] clause was taken. *)
Definition classify (e : env) (host_ip : string) (st : state) : bool * state :=
  match nmap_probe e host_ip with
  | Completed rc out =>
      (true, if open_indication rc out then process_scan_result host_ip out st else st)
  | TimeoutExpired _ => (false, print ("[-] Scan timeout for " +:+ host_ip) st)
  | FileNotFoundError m => (false, print ("[-] Error scanning " +:+ host_ip +:+ ": " +:+ m) st)
  | OtherException m => (false, print ("[-] Error scanning " +:+ host_ip +:+ ": " +:+ m) st)
  end.

(** [time.sleep(self.delay)], the last statement of the [try] block; what it
    raises is caught by [except Exception] like any other error. *)
Definition do_sleep (e : env) (s : scanner) (host_ip : string) (st : state) : state :=
  match time_sleep e (delay s) with
  | inr q => emit (EvSleep q) st
  | inl msg => print ("[-] Error scanning " +:+ host_ip +:+ ": " +:+ msg) st
  end.

(** The [try] block after the probe has come back, up to the [finally]. *)
Definition after_probe (e : env) (s : scanner) (host_ip : string) (st : state) : state :=
  let '(ok, st1) := classify e host_ip st in
  if ok then do_sleep e s host_ip st1 else st1.

(** [scan_host], run by one thread with no other thread in between.
    [n_hosts] is [len(self.live_hosts)]. *)
Definition scan_host (e : env) (s : scanner) (n_hosts : nat) (host_ip : string)
  (st : state) : state :=
  let st1 := enter_scan st in
  let st2 := print (scanning_msg host_ip n_hosts st1) st1 in
  let st3 := emit (EvRun (probe_cmd host_ip)) st2 in
  let st4 := after_probe e s host_ip st3 in
  leave_scan st4.

(** ** [save_results] *)

(** [while not q.empty(): all_results.append(q.get())]: the results read so
    far and the queue that is left. *)
Fixpoint drain (q all_results : list (string * string))
  : list (string * string) * list (string * string) :=
  match q with
  | [] => (all_results, [])
  | r :: q' => drain q' (all_results ++ [r])
  end.

Definition dq : string := String (ascii_of_nat 34) EmptyString.

Definition xml_host (r : string * string) : string :=
  "  <host ip=" +:+ dq +:+ fst r +:+ dq +:+ ">" +:+ PyStr.NL +:+
  "    <output><![CDATA[" +:+ snd r +:+ "]]></output>" +:+ PyStr.NL +:+
  "  </host>" +:+ PyStr.NL.

Definition concat_str (l : list string) : string := fold_right append EmptyString l.

Definition xml_text (all_results : list (string * string)) : string :=
  "<?xml version=" +:+ dq +:+ "1.0" +:+ dq +:+ " encoding=" +:+ dq +:+ "UTF-8" +:+ dq
  +:+ "?>" +:+ PyStr.NL +:+
  "<nmaprun>" +:+ PyStr.NL +:+
  concat_str (map xml_host all_results) +:+
  "</nmaprun>" +:+ PyStr.NL.

Definition nmap_host (r : string * string) : string :=
  rule60 +:+ PyStr.NL +:+
  "Host: " +:+ fst r +:+ PyStr.NL +:+
  rule60 +:+ PyStr.NL +:+
  snd r +:+
  PyStr.NL +:+ PyStr.NL.

Definition nmap_text (e : env) (s : scanner) (all_results : list (string * string)) : string :=
  "# Network scan results for " +:+ target_range s +:+ PyStr.NL +:+
  "# Generated: " +:+ strftime_now e +:+ PyStr.NL +:+ PyStr.NL +:+
  concat_str (map nmap_host all_results).

(** The body of the loop that collects the ports of one host for the
    grep-friendly file. *)
Definition gnmap_line (ports : list string) (line : string) : list string :=
  if PyStr.contains "/tcp" line && PyStr.contains "open" line then
    match Re.re_match Re.port_pattern line with
    | Some port => ports ++ [port]
    | None => ports
    end
  else ports.

Definition gnmap_ports (output : string) : list string :=
  fold_left gnmap_line (PyStr.lines output) [].

Definition gnmap_host (r : string * string) : string :=
  match gnmap_ports (snd r) with
  | [] => EmptyString
  | ports =>
      "Host: " +:+ fst r +:+ " () Status: Up" +:+ PyStr.NL +:+
      "Host: " +:+ fst r +:+ " () Ports: " +:+ PyStr.join "/" ports +:+ PyStr.NL
  end.

Definition gnmap_text (all_results : list (string * string)) : string :=
  concat_str (map gnmap_host all_results).

(** The three [with open(...)] blocks in order; the first that fails ends
    the [try] and leaves the later files unwritten. *)
Fixpoint write_all (e : env) (todo : list (string * string)) (st : state)
  : option string * state :=
  match todo with
  | [] => (None, st)
  | (name, content) :: rest =>
      match open_error e name with
      | Some msg => (Some msg, st)
      | None => write_all e rest (write_file name content st)
      end
  end.

Definition save_results (e : env) (s : scanner) (st : state) : state :=
  let st1 := print ("[*] Saving results to " +:+ output_base s +:+ ".*") st in
  let '(all_results, q) := drain (results_queue st1) [] in
  let st2 := set_queue q st1 in
  match all_results with
  | [] => print "[-] No results to save" st2
  | _ :: _ =>
      match write_all e [(output_base s +:+ ".xml", xml_text all_results);
                         (output_base s +:+ ".nmap", nmap_text e s all_results);
                         (output_base s +:+ ".gnmap", gnmap_text all_results)] st2 with
      | (None, st3) =>
          print ("[+] Results saved to " +:+ output_base s +:+ ".{xml,nmap,gnmap}") st3
      | (Some msg, st3) => print ("[-] Error saving results: " +:+ msg) st3
      end
  end.

(** ** The worker pool

    [ThreadPoolExecutor] runs [scan_host] on its worker threads.  A thread is
    idle, or somewhere inside [scan_host]; what happens between two points
    where another thread may run is one step. *)

Inductive phase : Type :=
| Idle
| Claimed (host_ip : string)   (* holds a work item, before the first lock *)
| Started (host_ip : string)   (* [active_scans] incremented *)
| Probing (host_ip : string)   (* inside [subprocess.run] *)
| Sleeping (host_ip : string)  (* inside [time.sleep] *)
| Cleanup (host_ip : string).  (* at the [finally] *)

Definition worker_step (e : env) (s : scanner) (n_hosts : nat) (ph : phase) (st : state)
  : phase * state :=
  match ph with
  | Idle => (Idle, st)
  | Claimed h => (Started h, enter_scan st)
  | Started h =>
      (Probing h, emit (EvRun (probe_cmd h)) (print (scanning_msg h n_hosts st) st))
  | Probing h =>
      let '(ok, st1) := classify e h st in
      (if ok then Sleeping h else Cleanup h, st1)
  | Sleeping h => (Cleanup h, do_sleep e s h st)
  | Cleanup h => (Idle, leave_scan st)
  end.

Record pool : Type := mkPool {
  pending : list string;
  workers : list phase;
  shared : state
}.

(** Thread [i] runs: an idle thread takes the next work item, a busy one
    takes its next step.  [None] when there is no such thread or it has
    nothing to do. *)
Definition pool_step (e : env) (s : scanner) (n_hosts : nat) (i : nat) (p : pool)
  : option pool :=
  match workers p !! i with
  | None => None
  | Some Idle =>
      match pending p with
      | [] => None
      | h :: rest =>
          Some {| pending := rest; workers := <[i := Claimed h]> (workers p);
                  shared := shared p |}
      end
  | Some ph =>
      let '(ph', st') := worker_step e s n_hosts ph (shared p) in
      Some {| pending := pending p; workers := <[i := ph']> (workers p); shared := st' |}
  end.

Definition step (e : env) (s : scanner) (n_hosts : nat) (p p' : pool) : Prop :=
  exists i, pool_step e s n_hosts i p = Some p'.

(** The states the pool can reach, whatever the scheduler does. *)
Definition reachable (e : env) (s : scanner) (n_hosts : nat) : pool -> pool -> Prop :=
  rtc (step e s n_hosts).

(** [ThreadPoolExecutor(max_workers=min(max_threads, len(live_hosts)))] with
    every host submitted; [None] is the [ValueError] for a pool of no thread. *)
Definition init_pool (threads : Z) (live_hosts : list string) (st : state) : option pool :=
  let n := Z.min threads (Z.of_nat (length live_hosts)) in
  if n <=? 0 then None
  else Some {| pending := live_hosts; workers := replicate (Z.to_nat n) Idle; shared := st |}.

Definition is_idle (ph : phase) : bool :=
  match ph with Idle => true | _ => false end.

(** Every submitted task has reached its end. *)
Definition finished (p : pool) : bool :=
  match pending p with
  | [] => forallb is_idle (workers p)
  | _ :: _ => false
  end.

(** Threads inside [scan_host] past the increment of [active_scans]. *)
Definition is_active (ph : phase) : bool :=
  match ph with
  | Idle | Claimed _ => false
  | _ => true
  end.

(** Threads that hold a task. *)
Definition is_busy (ph : phase) : bool := negb (is_idle ph).

Definition is_probing (ph : phase) : bool :=
  match ph with Probing _ => true | _ => false end.

Definition count_phase (f : phase -> bool) (p : pool) : Z :=
  Z.of_nat (length (List.filter f (workers p))).

(** The probes running at once. *)
Definition probes_running (p : pool) : Z := count_phase is_probing p.

(** A scheduler is the list of the threads it lets run, in order. *)
Definition run_sched (e : env) (s : scanner) (n_hosts : nat) (sched : list nat) (p : pool)
  : pool :=
  fold_left (fun p i => match pool_step e s n_hosts i p with
                        | Some p' => p'
                        | None => p
                        end) sched p.

(** The steps a thread in a given phase still has before it is idle again;
    a pending task has six. *)
Definition phase_steps (ph : phase) : nat :=
  match ph with
  | Idle => 0
  | Claimed _ => 5
  | Started _ => 4
  | Probing _ => 3
  | Sleeping _ => 2
  | Cleanup _ => 1
  end.

Definition steps_left (p : pool) : nat :=
  6 * length (pending p) + list_sum (map phase_steps (workers p)).

Definition next_runnable (e : env) (s : scanner) (n_hosts : nat) (p : pool) : option nat :=
  List.find (fun i => match pool_step e s n_hosts i p with Some _ => true | None => false end)
    (seq 0 (length (workers p))).

(** The join at the end of the [with] block: threads run until none has
    anything left to do. *)
Fixpoint join_pool (e : env) (s : scanner) (n_hosts : nat) (fuel : nat) (p : pool) : pool :=
  match fuel with
  | O => p
  | S k =>
      match next_runnable e s n_hosts p with
      | None => p
      | Some i =>
          match pool_step e s n_hosts i p with
          | Some p' => join_pool e s n_hosts k p'
          | None => p
          end
      end
  end.

(** A run of the pool: the scheduler decides the interleaving for as long as
    it says, and the join lets the remaining work finish. *)
Definition run_pool (e : env) (s : scanner) (n_hosts : nat) (sched : list nat) (p : pool)
  : pool :=
  let p1 := run_sched e s n_hosts sched p in
  join_pool e s n_hosts (steps_left p1) p1.

(** ** [run_scan] *)

Definition pool_error : string := "max_workers must be greater than 0".

(** The pool when only the first [k] hosts have been submitted. *)
Definition submitted (k : nat) (p : pool) : pool :=
  {| pending := firstn k (pending p); workers := workers p; shared := shared p |}.

(** [run_scan] up to the end of the [with] block.  [Return None] is the early
    [return False]; [Return (Some n)] says the scans of [n] hosts are over:
    every host was submitted and the [with] block has joined its threads.

    An interrupt during the scans reaches the main thread at some point of
    the [with] block: [submitted_at_interrupt] hosts have been handed to the
    executor, and the threads have taken the steps of the schedule and no
    more.  Hosts not yet submitted are never scanned, and threads may still be
    inside [scan_host] when the interrupt leaves [run_scan]; the case where
    the executor joins its threads first is a schedule that runs them to
    their end.  What such threads do afterwards is not part of the state
    [main] returns. *)
Definition run_scan_to_join (e : env) (s : scanner) (sched : list nat) (st : state)
  : result (option nat) * state :=
  match check_nmap_installed e st with
  | (Raise x, st1) => (Raise x, st1)
  | (Return false, st1) => (Return None, st1)
  | (Return true, st1) =>
      let st2 := print "[*] Starting managed network scan" st1 in
      let st3 := print ("[*] Target: " +:+ target_range s) st2 in
      let st4 := print ("[*] Max threads: " +:+ PyStr.str_Z (max_threads s)) st3 in
      let st5 := print ("[*] Output: " +:+ output_base s +:+ ".*") st4 in
      match ping_sweep e s st5 with
      | (Raise x, st6) => (Raise x, st6)
      | (Return [], st6) => (Return None, print "[-] No live hosts found" st6)
      | (Return live_hosts, st6) =>
          let n := length live_hosts in
          let st7 := print ("[*] Starting detailed scans on " +:+ PyStr.str_Z (Z.of_nat n)
                            +:+ " hosts") st6 in
          let st8 := print ("[*] Using "
                            +:+ PyStr.str_Z (Z.min (max_threads s) (Z.of_nat n))
                            +:+ " concurrent threads") st7 in
          match init_pool (max_threads s) live_hosts st8 with
          | None => (Raise (Exception pool_error), st8)
          | Some p0 =>
              match interrupt e with
              | AtScan =>
                  (Raise KeyboardInterrupt,
                   shared (run_sched e s n sched
                             (submitted (submitted_at_interrupt e) p0)))
              | _ => (Return (Some n), shared (run_pool e s n sched p0))
              end
          end
      end
  end.

Definition run_scan (e : env) (s : scanner) (sched : list nat) (st : state)
  : result bool * state :=
  match run_scan_to_join e s sched st with
  | (Raise x, st1) => (Raise x, st1)
  | (Return None, st1) => (Return false, st1)
  | (Return (Some n), st1) =>
      let st2 := save_results e s st1 in
      let st3 := print (PyStr.NL +:+ "[+] Scan completed in " +:+ elapsed_time e
                        +:+ " seconds") st2 in
      let st4 := print ("[+] Scanned " +:+ PyStr.str_Z (Z.of_nat n) +:+ " live hosts") st3 in
      let st5 := print ("[+] Found results for "
                        +:+ PyStr.str_Z (Z.of_nat (length (results_queue st4)))
                        +:+ " hosts") st4 in
      (Return true, st5)
  end.

(** ** [main] *)

Definition banner : string :=
  PyStr.NL +:+
  " _        ______ _________     _______     ___    _        _______  ______   _______ " +:+ PyStr.NL +:+
  "( (    /|/ ___  \\__   __/    (  ____ )   /   )  ( (    /|(  ____ \/ ___  \ (  ____ )" +:+ PyStr.NL +:+
  "|  \  ( |\/   \  \  ) (       | (    )|  / /) |  |  \  ( || (    \/\/   \  \| (    )|" +:+ PyStr.NL +:+
  "|   \ | |   ___) /  | | _____ | (____)| / (_) (_ |   \ | || |         ___) /| (____)|" +:+ PyStr.NL +:+
  "| (\ \) |  (___ (   | |(_____)|     __)(____   _)| (\ \) || | ____   (___ ( |     __)" +:+ PyStr.NL +:+
  "| | \   |      ) \  | |       | (\ (        ) (  | | \   || | \_  )      ) \| (\ (   " +:+ PyStr.NL +:+
  "| )  \  |/\___/  /  | |       | ) \ \__     | |  | )  \  || (___) |/\___/  /| ) \ \__" +:+ PyStr.NL +:+
  "|/    )_)\______/   )_(       |/   \__/     (_)  |/    )_)(_______)\______/ |/   \__/" +:+ PyStr.NL +:+
  "                                                                                                                                                                         " +:+ PyStr.NL.

(** The parsed command line. *)
Record args : Type := mkArgs {
  arg_range : string;
  arg_threads : Z;
  arg_delay : pyfloat
}.

(** The state of a process that has just started, on a given file system. *)
Definition start_state (fs : gmap string string) : state :=
  {| active_scans := 0; completed_scans := 0; results_queue := [];
     files := fs; trace := [] |}.

(** [main] up to the construction of the scanner: [inl] is [sys.exit(1)]. *)
Definition setup (e : env) (a : args) (fs : gmap string string) : state + (scanner * state) :=
  let st0 := print banner (start_state fs) in
  if (arg_threads a <? 1) || (200 <? arg_threads a)
  then inl (print "Error: Thread count must be between 1 and 200" st0)
  else init e (arg_range a) (arg_threads a) (arg_delay a) st0.

(** [main]: the exit code of the process and the state it leaves. *)
Definition main (e : env) (a : args) (sched : list nat) (fs : gmap string string)
  : Z * state :=
  match setup e a fs with
  | inl st => (1, st)
  | inr (s, st) =>
      match run_scan e s sched st with
      | (Return success, st1) => (if success then 0 else 1, st1)
      | (Raise KeyboardInterrupt, st1) =>
          let st2 := print (PyStr.NL +:+ "[!] Scan interrupted by user") st1 in
          let st3 := print "[*] Saving partial results..." st2 in
          (1, save_results e s st3)
      | (Raise (Exception msg), st1) => (1, print ("[-] Unexpected error: " +:+ msg) st1)
      end
  end.

(** ** Sample runs

    A scanner for [192.168.1.0/30] and worlds to run it in; the examples
    below evaluate the program on them. *)

Definition sample_scanner : scanner :=
  {| target_range := "192.168.1.0/30"; max_threads := 50; delay := 1 # 10;
     network := IPv4.make 3232235776 30; total_hosts := 4;
     output_base := "192-168-1-0_30-network" |}.

Definition sample_args : args :=
  {| arg_range := "192.168.1.0/30"; arg_threads := 50; arg_delay := 1 # 10 |}.

(** A platform whose [time.sleep] waits for up to nine thousand million
    seconds and raises the overflow error beyond. *)
Definition sample_sleep_fails (q : Q) : option string :=
  if Qle_bool q (9000000000 # 1) then None else Some sleep_overflow.

(** A world in which the tool is installed, the range parses and every file
    can be written; the sweep, the probes and the interrupt are given.  An
    interrupt during the scans arrives when both hosts are submitted. *)
Definition sample_env (sweep : run_result) (probe : string -> run_result)
  (intr : interrupt_point) : env :=
  {| ipv4_parse := fun _ => inr (3232235776, 30);
     nmap_version := Completed 0 "Nmap version 7.94";
     nmap_sweep := fun _ => sweep;
     nmap_probe := probe;
     open_error := fun _ => None;
     sleep_fails := sample_sleep_fails;
     strftime_now := "2024-01-01 00:00:00";
     elapsed_time := "1.00";
     interrupt := intr;
     submitted_at_interrupt := 2 |}.

Definition sweep_two_hosts : run_result :=
  Completed 0 ("Starting Nmap" +:+ PyStr.NL +:+
               "Nmap scan report for 192.168.1.1" +:+ PyStr.NL +:+
               "Host is up (0.0010s latency)." +:+ PyStr.NL +:+
               "Nmap scan report for gw.lan (192.168.1.2)" +:+ PyStr.NL +:+
               "Host is up (0.0020s latency).").

Definition http_output : string :=
  "PORT   STATE SERVICE" +:+ PyStr.NL +:+ "80/tcp open  http" +:+ PyStr.NL.

Definition closed_output : string :=
  "All 65535 scanned ports on 192.168.1.2 are in ignored states.".

(** Host [.1] has one open port, every other host has none. *)
Definition probe_one_open (h : string) : run_result :=
  if String.eqb h "192.168.1.1" then Completed 0 http_output else Completed 0 closed_output.

Definition probe_all_closed (h : string) : run_result := Completed 0 closed_output.

Definition probe_timeout (h : string) : run_result :=
  TimeoutExpired "Command timed out after 900 seconds".

(** A probe whose only mention of "open" is a state that is not open. *)
Definition filtered_output : string :=
  "PORT   STATE         SERVICE" +:+ PyStr.NL +:+ "53/udp open|filtered domain" +:+ PyStr.NL.

Definition probe_filtered (h : string) : run_result := Completed 0 filtered_output.

(** The pool [run_scan] creates for the two hosts of the sample sweep. *)
Definition sample_pool : pool :=
  {| pending := ["192.168.1.1"; "192.168.1.2"]; workers := [Idle; Idle];
     shared := start_state ∅ |}.

(** A sweep that reports the same address on two lines. *)
Definition sweep_repeated : run_result :=
  Completed 0 ("Nmap scan report for 192.168.1.1" +:+ PyStr.NL +:+
               "Host is up." +:+ PyStr.NL +:+
               "Nmap scan report for 192.168.1.1").

(** The scanner for the two-address range [192.168.1.0/31]. *)
Definition sample_scanner_31 : scanner :=
  {| target_range := "192.168.1.0/31"; max_threads := 50; delay := 1 # 10;
     network := IPv4.make 3232235776 31; total_hosts := 2;
     output_base := "192-168-1-0_31-network" |}.

Definition sweep_timeout : run_result :=
  TimeoutExpired "Command timed out after 300 seconds".

(** A world without the tool: launching it fails. *)
Definition env_no_nmap : env :=
  {| ipv4_parse := fun _ => inr (3232235776, 30);
     nmap_version := FileNotFoundError "[Errno 2] No such file or directory: 'nmap'";
     nmap_sweep := fun _ => sweep_two_hosts;
     nmap_probe := probe_one_open;
     open_error := fun _ => None;
     sleep_fails := sample_sleep_fails;
     strftime_now := "2024-01-01 00:00:00";
     elapsed_time := "1.00";
     interrupt := NoInterrupt;
     submitted_at_interrupt := 0 |}.

(** A closed port whose service text contains "open". *)
Definition closed_openssh_output : string :=
  "PORT   STATE  SERVICE" +:+ PyStr.NL +:+ "22/tcp closed openssh" +:+ PyStr.NL.

Definition probe_closed_openssh (h : string) : run_result :=
  Completed 0 closed_openssh_output.

(** ** Relations between states used in the proofs *)

(** Two states that differ at most in their traces. *)
Definition same_store (st st' : state) : Prop :=
  active_scans st' = active_scans st /\
  completed_scans st' = completed_scans st /\
  results_queue st' = results_queue st /\
  files st' = files st.

(** [st'] has the trace of [st] followed by printed messages only. *)
Definition prints_only (st st' : state) : Prop :=
  exists msgs, trace st' = trace st ++ map EvPrint msgs.

(** The accounting every step keeps: the pool never changes size; the
    active counter moves with the threads past the first lock; a task is
    pending, held by a busy thread, or counted as completed. *)
Record accounts (a0 c0 : Z) (w : nat) (total : Z) (p : pool) : Prop := mkAccounts {
  acc_workers : length (workers p) = w;
  acc_active : active_scans (shared p) = a0 + count_phase is_active p;
  acc_completed :
    completed_scans (shared p) + Z.of_nat (length (pending p)) + count_phase is_busy p
    = c0 + total
}.

(** A world in which the first output file cannot be opened. *)
Definition env_readonly : env :=
  {| ipv4_parse := fun _ => inr (3232235776, 30);
     nmap_version := Completed 0 "Nmap version 7.94";
     nmap_sweep := fun _ => sweep_two_hosts;
     nmap_probe := probe_one_open;
     open_error := fun _ => Some "[Errno 13] Permission denied";
     sleep_fails := sample_sleep_fails;
     strftime_now := "2024-01-01 00:00:00";
     elapsed_time := "1.00";
     interrupt := NoInterrupt;
     submitted_at_interrupt := 0 |}.

(** ** What a task owes to the queue *)

(** The result the probe of a host leads to: the pair [scan_host] hands to
    [process_scan_result], if it does. *)
Definition result_of (e : env) (host_ip : string) : list (string * string) :=
  match nmap_probe e host_ip with
  | Completed rc out => if open_indication rc out then [(host_ip, out)] else []
  | _ => []
  end.

(** The result a thread has still to put on the queue: that of its host as
    long as the probe has not come back. *)
Definition owed (e : env) (ph : phase) : list (string * string) :=
  match ph with
  | Claimed h | Started h | Probing h => result_of e h
  | _ => []
  end.

Definition result_eq_dec (x y : string * string) : {x = y} + {x <> y} := decide (x = y).

(** How often a result is on the queue, owed by a thread, or due from a
    pending host. *)
Definition results_balance (e : env) (r : string * string) (p : pool) : nat :=
  count_occ result_eq_dec (results_queue (shared p)) r
  + list_sum (map (fun ph => count_occ result_eq_dec (owed e ph) r) (workers p))
  + list_sum (map (fun h => count_occ result_eq_dec (result_of e h) r) (pending p)).

(** The state a thread leaves when it runs on alone to the end of the task
    it holds. *)
Definition rest_of_task (e : env) (s : scanner) (n_hosts : nat) (ph : phase) (st : state)
  : state :=
  match ph with
  | Idle => st
  | Claimed h => scan_host e s n_hosts h st
  | Started h =>
      leave_scan (after_probe e s h
                    (emit (EvRun (probe_cmd h)) (print (scanning_msg h n_hosts st) st)))
  | Probing h => leave_scan (after_probe e s h st)
  | Sleeping h => leave_scan (do_sleep e s h st)
  | Cleanup h => leave_scan st
  end.

(** ** Shapes of the tokens the two patterns match *)

(** Every character of [s] passes [f]. *)
Fixpoint all_chars (f : ascii -> bool) (s : string) : bool :=
  match s with
  | EmptyString => true
  | String c s' => f c && all_chars f s'
  end.

(** The characters a pattern can match: digits and its literal characters. *)
Definition allowed (p : list Re.atom) (c : ascii) : bool :=
  Re.isdigit c
  || existsb (fun a => match a with Re.Lit d => Ascii.eqb c d | Re.Digits1 => false end) p.

(** ** Counting the probes launched *)

(** The event is the launch of the detailed probe of [host_ip]. *)
Definition is_probe_of (host_ip : string) (ev : event) : bool :=
  match ev with
  | EvRun cmd => bool_decide (cmd = probe_cmd host_ip)
  | _ => false
  end.

(** How often the probe of [host_ip] was launched in a trace. *)
Definition launches (host_ip : string) (tr : list event) : nat :=
  length (List.filter (is_probe_of host_ip) tr).

(** The thread holds [host_ip] and has not launched its probe yet. *)
Definition to_launch (host_ip : string) (ph : phase) : nat :=
  match ph with
  | Claimed h | Started h => if String.eqb h host_ip then 1 else 0
  | _ => 0
  end.

(** Launched, about to be launched by a thread, or still pending. *)
Definition launch_balance (host_ip : string) (p : pool) : nat :=
  launches host_ip (trace (shared p))
  + list_sum (map (to_launch host_ip) (workers p))
  + count_occ string_dec (pending p) host_ip.

(** * Properties *)

(** ** What printing and sleeping leave alone *)

Lemma same_store_refl st : same_store st st.
Proof. repeat split. Qed.

Lemma same_store_trans st1 st2 st3 :
  same_store st1 st2 -> same_store st2 st3 -> same_store st1 st3.
Proof.
  unfold same_store. intros (a1 & c1 & q1 & f1) (a2 & c2 & q2 & f2).
  repeat split; congruence.
Qed.

Lemma emit_same_store ev st : same_store st (emit ev st).
Proof. repeat split. Qed.

Lemma print_same_store msg st : same_store st (print msg st).
Proof. apply emit_same_store. Qed.

Create HintDb scanner.

#[local] Hint Resolve same_store_refl emit_same_store print_same_store : scanner.

Lemma port_line_same_store l line :
  same_store (loop_state l) (loop_state (port_line l line)).
Proof.
  unfold port_line.
  repeat match goal with
         | |- context [if ?b then _ else _] => destruct b
         end; simpl; auto with scanner.
Qed.

Lemma port_loop_same_store ls l :
  same_store (loop_state l) (loop_state (fold_left port_line ls l)).
Proof.
  revert l. induction ls as [|line ls IH]; intros l; simpl.
  - apply same_store_refl.
  - eapply same_store_trans; [apply port_line_same_store | apply IH].
Qed.

(** [process_scan_result] always ends with the [put]: whatever the lines of
    the output look like, the pair joins the queue, and nothing else of the
    store changes. *)
Lemma process_scan_result_store h out st :
  let st' := process_scan_result h out st in
  active_scans st' = active_scans st /\
  completed_scans st' = completed_scans st /\
  results_queue st' = results_queue st ++ [(h, out)] /\
  files st' = files st.
Proof.
  unfold process_scan_result.
  set (l := fold_left port_line _ _).
  assert (Hl : same_store st (loop_state l)).
  { subst l. eapply same_store_trans; [| apply port_loop_same_store]. simpl.
    repeat split. }
  destruct Hl as (Ha & Hc & Hq & Hf).
  destruct (open_ports l); simpl; rewrite ?Ha, ?Hc, ?Hq, ?Hf; repeat split.
Qed.

Lemma do_sleep_same_store e s h st : same_store st (do_sleep e s h st).
Proof. unfold do_sleep. destruct (time_sleep e (delay s)); auto with scanner. Qed.

(** The classification step never touches the counters or the files, and
    changes the queue in one case only. *)
Lemma classify_store e h st :
  let st' := snd (classify e h st) in
  active_scans st' = active_scans st /\
  completed_scans st' = completed_scans st /\
  files st' = files st /\
  results_queue st' =
    match nmap_probe e h with
    | Completed rc out =>
        if open_indication rc out then results_queue st ++ [(h, out)] else results_queue st
    | _ => results_queue st
    end.
Proof.
  unfold classify. destruct (nmap_probe e h) as [rc out| m | m | m]; simpl;
    try (repeat split; fail).
  destruct (open_indication rc out).
  - destruct (process_scan_result_store h out st) as (? & ? & ? & ?). repeat split; assumption.
  - repeat split.
Qed.

Lemma after_probe_store e s h st :
  let st' := after_probe e s h st in
  active_scans st' = active_scans st /\
  completed_scans st' = completed_scans st /\
  files st' = files st /\
  results_queue st' = results_queue (snd (classify e h st)).
Proof.
  unfold after_probe.
  pose proof (classify_store e h st) as Hc.
  destruct (classify e h st) as [ok st1]. simpl in *.
  destruct Hc as (Ha & Hc & Hf & _).
  destruct ok; [| repeat split; assumption].
  destruct (do_sleep_same_store e s h st1) as (? & ? & ? & ?).
  repeat split; congruence.
Qed.

(** [scan_host] and the queue: the queue after the call is the one the
    classification step leaves. *)
Lemma scan_host_queue e s n h st :
  results_queue (scan_host e s n h st) =
    match nmap_probe e h with
    | Completed rc out =>
        if open_indication rc out then results_queue st ++ [(h, out)] else results_queue st
    | _ => results_queue st
    end.
Proof.
  unfold scan_host. cbn [results_queue leave_scan].
  destruct (after_probe_store e s h
              (emit (EvRun (probe_cmd h))
                 (print (scanning_msg h n (enter_scan st)) (enter_scan st))))
    as (_ & _ & _ & Hq).
  rewrite Hq.
  destruct (classify_store e h
              (emit (EvRun (probe_cmd h))
                 (print (scanning_msg h n (enter_scan st)) (enter_scan st))))
    as (_ & _ & _ & Hq').
  exact Hq'.
Qed.

Lemma scan_host_counters e s n h st :
  active_scans (scan_host e s n h st) = active_scans st /\
  completed_scans (scan_host e s n h st) = completed_scans st + 1.
Proof.
  unfold scan_host. cbn [active_scans completed_scans leave_scan].
  destruct (after_probe_store e s h
              (emit (EvRun (probe_cmd h))
                 (print (scanning_msg h n (enter_scan st)) (enter_scan st))))
    as (Ha & Hc & _ & _).
  rewrite Ha, Hc. simpl. split; lia.
Qed.

Lemma open_indication_spec rc out :
  open_indication rc out = true <->
  rc = 0 /\ PyStr.contains "open" (PyStr.lower out) = true.
Proof.
  unfold open_indication. rewrite andb_true_iff, Z.eqb_eq. reflexivity.
Qed.

(** ** What a call adds to the trace *)

Lemma prints_only_refl st : prints_only st st.
Proof. exists []. simpl. now rewrite app_nil_r. Qed.

Lemma prints_only_trans st1 st2 st3 :
  prints_only st1 st2 -> prints_only st2 st3 -> prints_only st1 st3.
Proof.
  intros [m1 H1] [m2 H2]. exists (m1 ++ m2).
  rewrite H2, H1, map_app, app_assoc. reflexivity.
Qed.

Lemma print_prints_only msg st : prints_only st (print msg st).
Proof. exists [msg]. reflexivity. Qed.

Lemma queue_put_prints_only r st : prints_only st (queue_put r st).
Proof. exists []. simpl. now rewrite app_nil_r. Qed.

#[local] Hint Resolve prints_only_refl print_prints_only queue_put_prints_only : scanner.

Lemma port_line_prints_only l line :
  prints_only (loop_state l) (loop_state (port_line l line)).
Proof.
  unfold port_line.
  repeat match goal with
         | |- context [if ?b then _ else _] => destruct b
         end; simpl; auto with scanner.
Qed.

Lemma port_loop_prints_only ls l :
  prints_only (loop_state l) (loop_state (fold_left port_line ls l)).
Proof.
  revert l. induction ls as [|line ls IH]; intros l; simpl.
  - apply prints_only_refl.
  - eapply prints_only_trans; [apply port_line_prints_only | apply IH].
Qed.

Lemma process_scan_result_prints_only h out st :
  prints_only st (process_scan_result h out st).
Proof.
  unfold process_scan_result.
  set (st3 := print rule60 _).
  set (l := fold_left port_line _ _).
  assert (H3 : prints_only st st3).
  { subst st3. repeat (eapply prints_only_trans; [| apply print_prints_only]).
    apply prints_only_refl. }
  assert (Hl : prints_only st (loop_state l)).
  { eapply prints_only_trans; [exact H3 |]. subst l.
    apply (port_loop_prints_only (PyStr.lines out)
             {| in_port_section := false; open_ports := []; loop_state := st3 |}). }
  eapply prints_only_trans; [| apply print_prints_only].
  eapply prints_only_trans; [| apply queue_put_prints_only].
  destruct (open_ports l); [exact Hl |].
  eapply prints_only_trans; [exact Hl | apply print_prints_only].
Qed.

Lemma classify_prints_only e h st : prints_only st (snd (classify e h st)).
Proof.
  unfold classify. destruct (nmap_probe e h) as [rc out| m | m | m]; simpl;
    auto with scanner.
  destruct (open_indication rc out); auto using process_scan_result_prints_only with scanner.
Qed.

Lemma classify_ok e h st :
  fst (classify e h st) = match nmap_probe e h with Completed _ _ => true | _ => false end.
Proof. unfold classify. destruct (nmap_probe e h); reflexivity. Qed.

(** No sleep among printed messages. *)
Lemma no_sleep_in_prints msgs d : ~ In (EvSleep d) (map EvPrint msgs).
Proof. rewrite in_map_iff. intros (m & Hm & _). discriminate. Qed.

(** ** One thread, step by step *)

(** The five steps of a thread from the work item to idle again are
    [scan_host]. *)
Lemma scan_host_steps e s n h st :
  let '(ph1, st1) := worker_step e s n (Claimed h) st in
  let '(ph2, st2) := worker_step e s n ph1 st1 in
  let '(ph3, st3) := worker_step e s n ph2 st2 in
  let '(ph4, st4) := worker_step e s n ph3 st3 in
  let '(ph5, st5) := worker_step e s n ph4 st4 in
  ph5 = Idle /\ st5 = scan_host e s n h st.
Proof.
  unfold scan_host, after_probe. simpl.
  destruct (classify e h _) as [[|] st3]; simpl; split; reflexivity.
Qed.

(** ** Forwarding of results (C2) *)

(** C2.  For every host task, [scan_host] puts the pair of the host and the
    probe output on the result queue if and only if the probe returned exit
    status 0 and its output, lower-cased, contains "open".  Otherwise the
    queue is unchanged; a probe that succeeded without the indication leaves
    the state untouched at the classification step (nothing recorded, nothing
    printed), and in every case the completed counter goes up by one. *)
Theorem scan_host_forwards_iff_open (e : env) (s : scanner) (n : nat) (h : string)
  (st : state) :
  let st' := scan_host e s n h st in
  (forall out, results_queue st' = results_queue st ++ [(h, out)] <->
               nmap_probe e h = Completed 0 out
               /\ PyStr.contains "open" (PyStr.lower out) = true)
  /\ ((forall out, nmap_probe e h = Completed 0 out ->
                   PyStr.contains "open" (PyStr.lower out) = false) ->
      results_queue st' = results_queue st)
  /\ (forall out st0, nmap_probe e h = Completed 0 out ->
                      PyStr.contains "open" (PyStr.lower out) = false ->
                      classify e h st0 = (true, st0))
  /\ completed_scans st' = completed_scans st + 1.
Proof.
  intros st'. subst st'.
  assert (Hne : forall (q : list (string * string)) r, q <> q ++ [r]).
  { intros q r H. apply (f_equal (@length _)) in H. rewrite length_app in H.
    simpl in H. lia. }
  split; [| split; [| split]].
  - intros out. rewrite scan_host_queue. split.
    + intros H.
      destruct (nmap_probe e h) as [rc out'| m | m | m];
        try (exfalso; exact (Hne _ _ H)).
      destruct (open_indication rc out') eqn:Hoi; [| exfalso; exact (Hne _ _ H)].
      apply app_inv_head in H. injection H as ->.
      apply open_indication_spec in Hoi. destruct Hoi as [-> Hc]. auto.
    + intros [Hp Ho]. rewrite Hp.
      assert (Hoi : open_indication 0 out = true) by (apply open_indication_spec; auto).
      rewrite Hoi. reflexivity.
  - intros Hno. rewrite scan_host_queue.
    destruct (nmap_probe e h) as [rc out'| m | m | m]; try reflexivity.
    destruct (open_indication rc out') eqn:Hoi; [| reflexivity].
    apply open_indication_spec in Hoi. destruct Hoi as [-> Hc].
    rewrite (Hno out' eq_refl) in Hc. discriminate.
  - intros out st0 Hp Ho. unfold classify. rewrite Hp.
    unfold open_indication. rewrite Ho. reflexivity.
  - apply scan_host_counters.
Qed.

(** ** The delay after a probe (C5) *)

(** C5, as stated, fails: when the probe times out, the thread goes from the
    probe straight to the cleanup; its trace holds the progress line, the
    launch and the time-out message, and no sleep -- although the delay is
    one the sleep would take. *)
Lemma scan_host_timeout_skips_sleep :
  let e := sample_env sweep_two_hosts probe_timeout NoInterrupt in
  let st := scan_host e sample_scanner 1 "192.168.1.1" (start_state ∅) in
  time_sleep e (delay sample_scanner) = inr (1 # 10)%Q
  /\ trace st = [EvPrint "[*] Scanning 192.168.1.1 (1/1)";
                 EvRun (probe_cmd "192.168.1.1");
                 EvPrint "[-] Scan timeout for 192.168.1.1"]
  /\ (forall d, ~ In (EvSleep d) (trace st))
  /\ worker_step e sample_scanner 1 (Probing "192.168.1.1") (start_state ∅)
     = (Cleanup "192.168.1.1",
        print "[-] Scan timeout for 192.168.1.1" (start_state ∅)).
Proof.
  cbv zeta. split; [reflexivity |]. split; [reflexivity |]. split; [| reflexivity].
  intros d H. vm_compute in H.
  repeat (destruct H as [H | H]; [discriminate H |]). exact H.
Qed.

(** When the sleep does not take the delay, it raises. *)
Lemma time_sleep_refused e d :
  (forall q, d = Finite q -> (0 <= q)%Q -> sleep_fails e q <> None) ->
  exists msg, time_sleep e d = inl msg.
Proof.
  intros Hd. unfold time_sleep.
  destruct d as [q | neg |]; [| eexists; reflexivity | eexists; reflexivity].
  destruct (Qle_bool 0 q) eqn:Hq.
  - apply Qle_bool_iff in Hq. specialize (Hd q eq_refl Hq).
    destruct (sleep_fails e q); [eexists; reflexivity | congruence].
  - match goal with
    | |- context [if ?b then _ else _] => destruct b
    end; eexists; reflexivity.
Qed.

Lemma time_sleep_accepted e q :
  (0 <= q)%Q -> sleep_fails e q = None -> time_sleep e (Finite q) = inr q.
Proof.
  intros Hq Hs. unfold time_sleep. apply Qle_bool_iff in Hq. rewrite Hq, Hs. reflexivity.
Qed.

(** C5, amended.  When the probe call returns (whatever its exit status and
    output) and the sleep takes the delay -- a finite delay that is not
    negative and not too long for the platform -- the thread sleeps for the
    delay: the sleep is the last event of the task, after the launch of the
    probe and the messages about its result, and the thread passes through
    the sleeping phase.  When the probe call returns and the delay is
    negative, infinite, not a number or too long, the error of the sleep is
    caught: after the launch the task only prints, its last message being
    the error of the scan, and does not sleep.  When
    the probe call raises (time-out or any other error), the task ends with
    the one error message and the thread goes to the cleanup without
    sleeping. *)
Theorem scan_host_sleeps_after_returned_probe (e : env) (s : scanner) (n : nat)
  (h : string) (st : state) :
  (forall rc out q,
      nmap_probe e h = Completed rc out ->
      delay s = Finite q -> (0 <= q)%Q -> sleep_fails e q = None ->
      (exists msgs,
          trace (scan_host e s n h st) =
            trace st ++ [EvPrint (scanning_msg h n st); EvRun (probe_cmd h)]
            ++ map EvPrint msgs ++ [EvSleep q])
      /\ forall st0, fst (worker_step e s n (Probing h) st0) = Sleeping h)
  /\ (forall rc out,
      nmap_probe e h = Completed rc out ->
      (forall q, delay s = Finite q -> (0 <= q)%Q -> sleep_fails e q <> None) ->
      exists msgs msg,
        trace (scan_host e s n h st) =
          trace st ++ [EvPrint (scanning_msg h n st); EvRun (probe_cmd h)]
          ++ map EvPrint msgs
          ++ [EvPrint ("[-] Error scanning " +:+ h +:+ ": " +:+ msg)])
  /\ ((forall rc out, nmap_probe e h <> Completed rc out) ->
      (exists msg,
          trace (scan_host e s n h st) =
            trace st ++ [EvPrint (scanning_msg h n st); EvRun (probe_cmd h); EvPrint msg])
      /\ forall st0, fst (worker_step e s n (Probing h) st0) = Cleanup h).
Proof.
  assert (Hret : forall rc out,
             nmap_probe e h = Completed rc out ->
             exists msgs st4,
               classify e h (emit (EvRun (probe_cmd h))
                               (print (scanning_msg h n st) (enter_scan st))) = (true, st4)
               /\ trace st4 = (trace st ++ [EvPrint (scanning_msg h n st)])
                              ++ [EvRun (probe_cmd h)] ++ map EvPrint msgs).
  { intros rc out Hp.
    set (st3 := emit _ (print _ (enter_scan st))).
    pose proof (classify_prints_only e h st3) as [msgs Hm].
    pose proof (classify_ok e h st3) as Hok. rewrite Hp in Hok.
    destruct (classify e h st3) as [ok st4]. simpl in Hok, Hm. subst ok.
    exists msgs, st4. split; [reflexivity |]. rewrite Hm. subst st3. simpl.
    rewrite <- !app_assoc. reflexivity. }
  split; [| split].
  - intros rc out q Hp Hd Hq Hs. split.
    + destruct (Hret rc out Hp) as (msgs & st4 & Hc & Ht).
      exists msgs. unfold scan_host, after_probe.
      change (scanning_msg h n (enter_scan st)) with (scanning_msg h n st).
      rewrite Hc. unfold do_sleep. rewrite Hd, (time_sleep_accepted e q Hq Hs).
      cbn [trace leave_scan emit]. rewrite Ht. rewrite <- !app_assoc. reflexivity.
    + intros st0. simpl. pose proof (classify_ok e h st0) as Hok. rewrite Hp in Hok.
      destruct (classify e h st0) as [ok st1]. simpl in *. subst ok. reflexivity.
  - intros rc out Hp Hd.
    destruct (Hret rc out Hp) as (msgs & st4 & Hc & Ht).
    destruct (time_sleep_refused e (delay s) Hd) as [msg Hm].
    exists msgs, msg.
    unfold scan_host, after_probe.
    change (scanning_msg h n (enter_scan st)) with (scanning_msg h n st).
    rewrite Hc. unfold do_sleep. rewrite Hm.
    cbn [trace leave_scan emit print]. rewrite Ht. rewrite <- !app_assoc.
    reflexivity.
  - intros Hne. split.
    + unfold scan_host, after_probe, classify.
      destruct (nmap_probe e h) as [rc out| m | m | m] eqn:Hp.
      * exfalso. exact (Hne rc out eq_refl).
      * eexists. simpl. rewrite <- !app_assoc. reflexivity.
      * eexists. simpl. rewrite <- !app_assoc. reflexivity.
      * eexists. simpl. rewrite <- !app_assoc. reflexivity.
    + intros st0. simpl. pose proof (classify_ok e h st0) as Hok.
      destruct (nmap_probe e h) as [rc out| m | m | m] eqn:Hp;
        [exfalso; exact (Hne rc out eq_refl) | | |];
        destruct (classify e h st0) as [ok st1]; simpl in *; subst ok; reflexivity.
Qed.

(** ** Draining the queue and saving (C8) *)

Lemma drain_spec (q acc : list (string * string)) : drain q acc = (acc ++ q, []).
Proof.
  revert acc. induction q as [|r q IH]; intros acc; simpl.
  - now rewrite app_nil_r.
  - rewrite IH, <- app_assoc. reflexivity.
Qed.

Lemma save_results_empty e s st :
  results_queue st = [] ->
  save_results e s st =
    print "[-] No results to save"
      (print ("[*] Saving results to " +:+ output_base s +:+ ".*") st).
Proof.
  intros Hq. unfold save_results. rewrite drain_spec. simpl. rewrite Hq.
  destruct st; simpl in *; subst. reflexivity.
Qed.

Lemma write_all_queue e todo st :
  results_queue (snd (write_all e todo st)) = results_queue st.
Proof.
  revert st. induction todo as [|[name content] todo IH]; intros st; simpl; [reflexivity |].
  destruct (open_error e name); [reflexivity |]. now rewrite IH.
Qed.

Lemma save_results_queue e s st : results_queue (save_results e s st) = [].
Proof.
  unfold save_results. rewrite drain_spec. cbn [app print emit results_queue].
  destruct (results_queue st) as [|r q] eqn:Hq; [reflexivity |].
  match goal with
  | |- context [write_all e ?todo ?st0] =>
      pose proof (write_all_queue e todo st0) as Hw;
      destruct (write_all e todo st0) as [[msg|] st3]
  end; simpl in *; exact Hw.
Qed.

(** C8.  A drain hands over everything the queue holds, each result once and
    in order, and leaves the queue empty, so a second drain right after it
    yields nothing.  [save_results] leaves the queue empty; called on an
    empty queue (in particular a second time in a row) it writes no file and
    only prints its heading and "[-] No results to save" -- no error
    message. *)
Theorem second_drain_empty_and_nothing_to_save (e : env) (s : scanner) (st : state) :
  (forall q, fst (drain q []) = q
             /\ snd (drain q []) = []
             /\ drain (snd (drain q [])) [] = ([], []))
  /\ results_queue (save_results e s st) = []
  /\ (results_queue st = [] ->
      files (save_results e s st) = files st
      /\ trace (save_results e s st) =
           trace st ++ [EvPrint ("[*] Saving results to " +:+ output_base s +:+ ".*");
                        EvPrint "[-] No results to save"])
  /\ files (save_results e s (save_results e s st)) = files (save_results e s st).
Proof.
  split; [| split; [| split]].
  - intros q. rewrite drain_spec. simpl. auto.
  - apply save_results_queue.
  - intros Hq. rewrite (save_results_empty e s st Hq). simpl.
    rewrite <- app_assoc. auto.
  - rewrite (save_results_empty e s (save_results e s st) (save_results_queue e s st)).
    reflexivity.
Qed.

(** The second save of two in a row, on the sample scanner with one result
    queued: the first writes the three files, the second none. *)
Lemma second_drain_empty_and_nothing_to_save_witness :
  let e := sample_env sweep_two_hosts probe_one_open NoInterrupt in
  let st := queue_put ("192.168.1.1", http_output) (start_state ∅) in
  results_queue st <> []
  /\ files (save_results e sample_scanner (save_results e sample_scanner st))
     = files (save_results e sample_scanner st)
  /\ trace (save_results e sample_scanner (start_state ∅)) =
       [EvPrint "[*] Saving results to 192-168-1-0_30-network.*";
        EvPrint "[-] No results to save"].
Proof.
  cbv zeta. split; [discriminate |]. split.
  - apply (second_drain_empty_and_nothing_to_save
             (sample_env sweep_two_hosts probe_one_open NoInterrupt) sample_scanner
             (queue_put ("192.168.1.1", http_output) (start_state ∅))).
  - apply (second_drain_empty_and_nothing_to_save
             (sample_env sweep_two_hosts probe_one_open NoInterrupt) sample_scanner
             (start_state ∅)). reflexivity.
Defined.

(** ** The three texts of [save_results] *)

Lemma append_assoc (a b c : string) : (a +:+ b) +:+ c = a +:+ b +:+ c.
Proof.
  induction a as [|x a IH]; [reflexivity |].
  change (String x ((a +:+ b) +:+ c) = String x (a +:+ b +:+ c)). now f_equal.
Qed.

Lemma concat_str_app (l1 l2 : list string) :
  concat_str (l1 ++ l2) = concat_str l1 +:+ concat_str l2.
Proof.
  induction l1 as [|x l1 IH]; simpl; [reflexivity |].
  rewrite IH, append_assoc. reflexivity.
Qed.

Lemma concat_str_split (f : string * string -> string) l1 r l2 :
  concat_str (map f (l1 ++ r :: l2)) =
  concat_str (map f l1) +:+ f r +:+ concat_str (map f l2).
Proof. rewrite map_app, concat_str_app. reflexivity. Qed.

(** The three names differ: they share the base and end differently. *)
Lemma output_names_differ (base : string) :
  base +:+ ".xml" <> base +:+ ".nmap"
  /\ base +:+ ".xml" <> base +:+ ".gnmap"
  /\ base +:+ ".nmap" <> base +:+ ".gnmap".
Proof.
  repeat split; intros H; apply (inj (String.app base)) in H; discriminate H.
Qed.

(** With every file writable and a queue that is not empty, [save_results]
    leaves the three texts under the three names. *)
Lemma save_results_files e s st :
  results_queue st <> [] ->
  (forall name, open_error e name = None) ->
  let st' := save_results e s st in
  files st' !! (output_base s +:+ ".xml") = Some (xml_text (results_queue st))
  /\ files st' !! (output_base s +:+ ".nmap") = Some (nmap_text e s (results_queue st))
  /\ files st' !! (output_base s +:+ ".gnmap") = Some (gnmap_text (results_queue st)).
Proof.
  intros Hq Hw. unfold save_results. rewrite drain_spec. simpl.
  destruct (results_queue st) as [|r q] eqn:Hr; [congruence |].
  rewrite !Hw. simpl.
  destruct (output_names_differ (output_base s)) as (H1 & H2 & H3).
  repeat split.
  - rewrite lookup_insert_ne, lookup_insert_ne, lookup_insert_eq by congruence. reflexivity.
  - rewrite lookup_insert_ne, lookup_insert_eq by congruence. reflexivity.
  - rewrite lookup_insert_eq. reflexivity.
Qed.

(** On the sample world, the host with an open port is forwarded and the
    host without is not. *)
Lemma scan_host_forwards_iff_open_witness :
  let e := sample_env sweep_two_hosts probe_one_open NoInterrupt in
  results_queue (scan_host e sample_scanner 2 "192.168.1.1" (start_state ∅))
    = [("192.168.1.1", http_output)]
  /\ results_queue (scan_host e sample_scanner 2 "192.168.1.2" (start_state ∅)) = [].
Proof.
  cbv zeta. split.
  - apply (scan_host_forwards_iff_open
             (sample_env sweep_two_hosts probe_one_open NoInterrupt) sample_scanner 2
             "192.168.1.1" (start_state ∅)).
    split; reflexivity.
  - apply (scan_host_forwards_iff_open
             (sample_env sweep_two_hosts probe_one_open NoInterrupt) sample_scanner 2
             "192.168.1.2" (start_state ∅)).
    intros out H. injection H as <-. reflexivity.
Defined.

(** On the sample world, a probe that returns is followed by the sleep. *)
Lemma scan_host_sleeps_after_returned_probe_witness :
  let e := sample_env sweep_two_hosts probe_all_closed NoInterrupt in
  exists msgs,
    trace (scan_host e sample_scanner 2 "192.168.1.2" (start_state ∅)) =
      [EvPrint "[*] Scanning 192.168.1.2 (1/2)"; EvRun (probe_cmd "192.168.1.2")]
      ++ map EvPrint msgs ++ [EvSleep (1 # 10)].
Proof.
  cbv zeta.
  destruct (scan_host_sleeps_after_returned_probe
              (sample_env sweep_two_hosts probe_all_closed NoInterrupt) sample_scanner 2
              "192.168.1.2" (start_state ∅)) as [H _].
  destruct (H 0 closed_output (1 # 10)%Q eq_refl eq_refl
              ltac:(unfold Qle; simpl; lia) eq_refl) as [Hm _].
  exact Hm.
Defined.

(** ** The pool, step by step *)

Lemma filter_length_insert (f : phase -> bool) (l : list phase) i x y :
  l !! i = Some x ->
  Z.of_nat (length (List.filter f (<[i := y]> l))) =
  Z.of_nat (length (List.filter f l)) - Z.b2z (f x) + Z.b2z (f y).
Proof.
  revert i. induction l as [|a l IH]; intros [|i] H; simpl in *; try discriminate.
  - injection H as ->. destruct (f x), (f y); simpl; lia.
  - specialize (IH i H). destruct (f a); simpl; lia.
Qed.

Lemma sum_steps_insert (l : list phase) i x y :
  l !! i = Some x ->
  (list_sum (map phase_steps (<[i := y]> l)) + phase_steps x
   = list_sum (map phase_steps l) + phase_steps y)%nat.
Proof.
  revert i. induction l as [|a l IH]; intros [|i] H; simpl in *; try discriminate.
  - injection H as ->. lia.
  - specialize (IH i H). lia.
Qed.

Lemma filter_length_le (f : phase -> bool) (l : list phase) :
  (length (List.filter f l) <= length l)%nat.
Proof. induction l as [|a l IH]; simpl; [lia |]. destruct (f a); simpl; lia. Qed.

(** What one step of a busy thread does to the counters, the queue length
    and the number of steps the thread still has. *)
Lemma worker_step_effect e s n ph st :
  ph <> Idle ->
  let ph' := fst (worker_step e s n ph st) in
  let st' := snd (worker_step e s n ph st) in
  active_scans st' - Z.b2z (is_active ph') = active_scans st - Z.b2z (is_active ph)
  /\ completed_scans st' + Z.b2z (is_busy ph')
     = completed_scans st + Z.b2z (is_busy ph)
  /\ completed_scans st <= completed_scans st'
  /\ (phase_steps ph' < phase_steps ph)%nat.
Proof.
  intros Hne. destruct ph as [|h|h|h|h|h]; [congruence | | | | |]; simpl.
  - repeat split; lia.
  - repeat split; lia.
  - pose proof (classify_store e h st) as (Ha & Hc & _ & _).
    destruct (classify e h st) as [[|] st1]; simpl in *; rewrite Ha, Hc;
      repeat split; lia.
  - destruct (do_sleep_same_store e s h st) as (Ha & Hc & _ & _).
    rewrite Ha, Hc. repeat split; lia.
  - repeat split; lia.
Qed.

(** The two kinds of step: an idle thread takes a work item, or a busy
    thread moves on. *)
Lemma pool_step_inv e s n i p p' :
  pool_step e s n i p = Some p' ->
  exists ph, workers p !! i = Some ph /\
    ((ph = Idle /\ exists h rest,
         pending p = h :: rest /\
         p' = {| pending := rest; workers := <[i := Claimed h]> (workers p);
                 shared := shared p |})
     \/ (ph <> Idle /\
         p' = {| pending := pending p;
                 workers := <[i := fst (worker_step e s n ph (shared p))]> (workers p);
                 shared := snd (worker_step e s n ph (shared p)) |})).
Proof.
  unfold pool_step. intros H.
  destruct (workers p !! i) as [ph|] eqn:Hw; [| discriminate].
  exists ph. split; [reflexivity |].
  destruct ph as [|h|h|h|h|h].
  - left. split; [reflexivity |].
    destruct (pending p) as [|h rest]; [discriminate |].
    injection H as <-. eauto.
  - right. split; [discriminate |].
    destruct (worker_step e s n (Claimed h) (shared p)) as [ph' st'] eqn:Hs.
    injection H as <-. reflexivity.
  - right. split; [discriminate |].
    destruct (worker_step e s n (Started h) (shared p)) as [ph' st'] eqn:Hs.
    injection H as <-. reflexivity.
  - right. split; [discriminate |].
    destruct (worker_step e s n (Probing h) (shared p)) as [ph' st'] eqn:Hs.
    injection H as <-. reflexivity.
  - right. split; [discriminate |].
    destruct (worker_step e s n (Sleeping h) (shared p)) as [ph' st'] eqn:Hs.
    injection H as <-. reflexivity.
  - right. split; [discriminate |].
    destruct (worker_step e s n (Cleanup h) (shared p)) as [ph' st'] eqn:Hs.
    injection H as <-. reflexivity.
Qed.

Lemma step_accounts e s n a0 c0 w total p p' :
  step e s n p p' -> accounts a0 c0 w total p -> accounts a0 c0 w total p'.
Proof.
  intros [i Hs] [Hw Ha Hc].
  apply pool_step_inv in Hs as (ph & Hph & [(-> & h & rest & Hp & ->) | (Hne & ->)]).
  - unfold count_phase in *. constructor; unfold count_phase; cbn [workers shared pending].
    + now rewrite length_insert.
    + rewrite (filter_length_insert is_active _ _ _ _ Hph). simpl. lia.
    + rewrite (filter_length_insert is_busy _ _ _ _ Hph). rewrite Hp in Hc.
      simpl in *. lia.
  - destruct (worker_step_effect e s n ph (shared p) Hne) as (E1 & E2 & _ & _).
    unfold count_phase in *. constructor; unfold count_phase; cbn [workers shared pending].
    + now rewrite length_insert.
    + rewrite (filter_length_insert is_active _ _ _ _ Hph). lia.
    + rewrite (filter_length_insert is_busy _ _ _ _ Hph). lia.
Qed.

Lemma step_completed_mono e s n p p' :
  step e s n p p' -> completed_scans (shared p) <= completed_scans (shared p').
Proof.
  intros [i Hs].
  apply pool_step_inv in Hs as (ph & Hph & [(-> & h & rest & Hp & ->) | (Hne & ->)]).
  - simpl. lia.
  - destruct (worker_step_effect e s n ph (shared p) Hne) as (_ & _ & E3 & _). exact E3.
Qed.

Lemma step_steps_left e s n p p' :
  step e s n p p' -> (steps_left p' < steps_left p)%nat.
Proof.
  intros [i Hs]. unfold steps_left.
  apply pool_step_inv in Hs as (ph & Hph & [(-> & h & rest & Hp & ->) | (Hne & ->)]).
  - simpl. rewrite Hp. pose proof (sum_steps_insert _ _ _ (Claimed h) Hph). simpl in *. lia.
  - destruct (worker_step_effect e s n ph (shared p) Hne) as (_ & _ & _ & E4).
    simpl. pose proof (sum_steps_insert _ _ _ (fst (worker_step e s n ph (shared p))) Hph).
    lia.
Qed.

Lemma reachable_accounts e s n a0 c0 w total p p' :
  reachable e s n p p' -> accounts a0 c0 w total p -> accounts a0 c0 w total p'.
Proof.
  intros Hr. induction Hr as [|p1 p2 p3 H12 _ IH]; [auto |].
  intros Ha. apply IH. eapply step_accounts; eauto.
Qed.

Lemma reachable_completed_mono e s n p p' :
  reachable e s n p p' -> completed_scans (shared p) <= completed_scans (shared p').
Proof.
  intros Hr. induction Hr as [|p1 p2 p3 H12 _ IH]; [lia |].
  pose proof (step_completed_mono _ _ _ _ _ H12). lia.
Qed.

Lemma count_replicate_idle (f : phase -> bool) k :
  f Idle = false -> length (List.filter f (replicate k Idle)) = 0%nat.
Proof. intros Hf. induction k as [|k IH]; simpl; [reflexivity |]. now rewrite Hf. Qed.

(** The pool as [run_scan] creates it satisfies the accounting. *)
Lemma init_pool_accounts threads hosts st p0 :
  init_pool threads hosts st = Some p0 ->
  accounts (active_scans st) (completed_scans st)
    (Z.to_nat (Z.min threads (Z.of_nat (length hosts)))) (Z.of_nat (length hosts)) p0
  /\ 1 <= Z.min threads (Z.of_nat (length hosts)).
Proof.
  unfold init_pool. destruct (Z.min _ _ <=? 0) eqn:Hn; [discriminate |].
  intros H. injection H as <-. apply Z.leb_gt in Hn. split; [| lia].
  constructor; unfold count_phase; simpl.
  - apply length_replicate.
  - rewrite count_replicate_idle by reflexivity. lia.
  - rewrite count_replicate_idle by reflexivity. lia.
Qed.

Lemma pool_step_busy e s n i p ph :
  workers p !! i = Some ph -> ph <> Idle -> exists p', pool_step e s n i p = Some p'.
Proof.
  intros Hw Hne. unfold pool_step. rewrite Hw.
  destruct ph as [|h|h|h|h|h]; [congruence | | | | |];
    destruct (worker_step e s n _ (shared p)) as [ph' st']; eauto.
Qed.

Lemma pool_step_idle e s n i p h rest :
  workers p !! i = Some Idle -> pending p = h :: rest ->
  exists p', pool_step e s n i p = Some p'.
Proof. intros Hw Hp. unfold pool_step. rewrite Hw, Hp. eauto. Qed.

Lemma next_runnable_some e s n p i :
  next_runnable e s n p = Some i -> exists p', pool_step e s n i p = Some p'.
Proof.
  unfold next_runnable. intros H. apply find_some in H as [_ H].
  destruct (pool_step e s n i p) as [p'|]; [eauto | discriminate].
Qed.

(** With at least one thread, a pool in which no thread can run is finished. *)
Lemma next_runnable_none e s n p :
  next_runnable e s n p = None -> (1 <= length (workers p))%nat -> finished p = true.
Proof.
  unfold next_runnable. intros H Hlen.
  assert (Hnone : forall i, (i < length (workers p))%nat -> pool_step e s n i p = None).
  { intros i Hi. pose proof (find_none _ _ H i) as Hf. cbv beta in Hf.
    destruct (pool_step e s n i p); [| reflexivity].
    assert (Hin : In i (seq 0 (length (workers p)))) by (apply in_seq; lia).
    specialize (Hf Hin). discriminate Hf. }
  assert (Hidle : forall i ph, workers p !! i = Some ph -> ph = Idle).
  { intros i ph Hw. destruct ph as [|h|h|h|h|h]; [reflexivity | | | | |]; exfalso;
      (destruct (pool_step_busy e s n i p _ Hw ltac:(discriminate)) as [p' Hp'];
       rewrite Hnone in Hp' by (eapply lookup_lt_Some; eauto); discriminate Hp'). }
  unfold finished. destruct (pending p) as [|h rest] eqn:Hp.
  - apply forallb_forall. intros ph Hin.
    apply list_elem_of_In, list_elem_of_lookup in Hin as [i Hw].
    rewrite (Hidle i ph Hw). reflexivity.
  - destruct (workers p !! 0%nat) as [ph0|] eqn:Hw0.
    + pose proof (Hidle _ _ Hw0) as ->.
      destruct (pool_step_idle e s n 0%nat p h rest Hw0 Hp) as [p' Hp'].
      rewrite Hnone in Hp' by lia. discriminate Hp'.
    + apply lookup_ge_None in Hw0. lia.
Qed.

Lemma step_workers_length e s n p p' :
  step e s n p p' -> length (workers p') = length (workers p).
Proof.
  intros [i Hs].
  apply pool_step_inv in Hs as (ph & Hph & [(-> & h & rest & Hp & ->) | (Hne & ->)]);
    simpl; apply length_insert.
Qed.

(** The join reaches a finished pool: a thread that can run is run, every
    step uses up one of the steps left, and [steps_left] steps are enough. *)
Lemma join_pool_finished e s n fuel p :
  (steps_left p <= fuel)%nat -> (1 <= length (workers p))%nat ->
  finished (join_pool e s n fuel p) = true.
Proof.
  revert p. induction fuel as [|k IH]; intros p Hfuel Hlen; simpl.
  - destruct (next_runnable e s n p) as [i|] eqn:Hn.
    + destruct (next_runnable_some _ _ _ _ _ Hn) as [p' Hp'].
      assert (Hs : step e s n p p') by (exists i; exact Hp').
      pose proof (step_steps_left _ _ _ _ _ Hs). lia.
    + apply (next_runnable_none _ _ _ _ Hn Hlen).
  - destruct (next_runnable e s n p) as [i|] eqn:Hn.
    + destruct (next_runnable_some _ _ _ _ _ Hn) as [p' Hp']. rewrite Hp'.
      assert (Hs : step e s n p p') by (exists i; exact Hp').
      pose proof (step_steps_left _ _ _ _ _ Hs).
      apply IH; [lia |]. rewrite (step_workers_length _ _ _ _ _ Hs). exact Hlen.
    + apply (next_runnable_none _ _ _ _ Hn Hlen).
Qed.

Lemma join_pool_reachable e s n fuel p : reachable e s n p (join_pool e s n fuel p).
Proof.
  revert p. induction fuel as [|k IH]; intros p; simpl; [apply rtc_refl |].
  destruct (next_runnable e s n p) as [i|]; [| apply rtc_refl].
  destruct (pool_step e s n i p) as [p'|] eqn:Hp'; [| apply rtc_refl].
  eapply rtc_l; [exists i; exact Hp' | apply IH].
Qed.

Lemma run_sched_reachable e s n sched p : reachable e s n p (run_sched e s n sched p).
Proof.
  revert p. induction sched as [|i sched IH]; intros p; simpl; [apply rtc_refl |].
  destruct (pool_step e s n i p) as [p'|] eqn:Hp'; [| apply IH].
  eapply rtc_l; [exists i; exact Hp' | apply IH].
Qed.

Lemma reachable_workers_length e s n p p' :
  reachable e s n p p' -> length (workers p') = length (workers p).
Proof.
  intros Hr. induction Hr as [|p1 p2 p3 H12 _ IH]; [reflexivity |].
  rewrite IH. eapply step_workers_length; eauto.
Qed.

Lemma run_pool_reachable e s n sched p : reachable e s n p (run_pool e s n sched p).
Proof.
  unfold run_pool, reachable. etrans; [apply run_sched_reachable | apply join_pool_reachable].
Qed.

Lemma run_pool_finished e s n sched p :
  (1 <= length (workers p))%nat -> finished (run_pool e s n sched p) = true.
Proof.
  intros Hlen. unfold run_pool. apply join_pool_finished; [lia |].
  rewrite (reachable_workers_length _ _ _ _ _ (run_sched_reachable e s n sched p)).
  exact Hlen.
Qed.

Lemma filter_length_mono (f g : phase -> bool) (l : list phase) :
  (forall ph, f ph = true -> g ph = true) ->
  (length (List.filter f l) <= length (List.filter g l))%nat.
Proof.
  intros Hfg. induction l as [|a l IH]; simpl; [lia |].
  destruct (f a) eqn:Hf.
  - rewrite (Hfg a Hf). simpl. lia.
  - destruct (g a); simpl; lia.
Qed.

Lemma finished_counts p :
  finished p = true ->
  pending p = [] /\ count_phase is_busy p = 0 /\ count_phase is_active p = 0.
Proof.
  unfold finished, count_phase. destruct (pending p); [| discriminate].
  intros Hall. split; [reflexivity |].
  assert (Hb : length (List.filter is_busy (workers p)) = 0%nat).
  { induction (workers p) as [|a l IH]; [reflexivity |].
    simpl in Hall. apply andb_true_iff in Hall as [Ha Hl].
    simpl. unfold is_busy at 1. rewrite Ha. simpl. auto. }
  pose proof (filter_length_mono is_active is_busy (workers p)) as Hm.
  split; [lia |].
  assert ((length (List.filter is_active (workers p)) <=
           length (List.filter is_busy (workers p)))%nat); [| lia].
  apply Hm. intros [|h|h|h|h|h]; simpl; auto.
Qed.

(** ** The completed counter at the end (C3) *)

(** C3.  For the pool [run_scan] creates over a list of hosts: in every
    finished state the orchestration can reach, the completed counter has
    grown by exactly the number of hosts and the active counter is back
    where it was; every run of the pool, under any scheduler, reaches such a
    state; and the cleanup of a task, for every outcome of its probe, takes
    one from the active and adds one to the completed counter. *)
Theorem completed_equals_dispatched (e : env) (s : scanner) (n : nat) (threads : Z)
  (hosts : list string) (st : state) (p0 : pool) :
  init_pool threads hosts st = Some p0 ->
  (forall p, reachable e s n p0 p -> finished p = true ->
             completed_scans (shared p) = completed_scans st + Z.of_nat (length hosts)
             /\ active_scans (shared p) = active_scans st)
  /\ (forall sched, reachable e s n p0 (run_pool e s n sched p0)
                    /\ finished (run_pool e s n sched p0) = true)
  /\ (forall h st0, active_scans (scan_host e s n h st0) = active_scans st0
                    /\ completed_scans (scan_host e s n h st0) = completed_scans st0 + 1)
  /\ (forall h st0, worker_step e s n (Cleanup h) st0 = (Idle, leave_scan st0)).
Proof.
  intros Hinit. destruct (init_pool_accounts _ _ _ _ Hinit) as [Hacc Hmin].
  split; [| split; [| split]].
  - intros p Hr Hfin.
    destruct (reachable_accounts _ _ _ _ _ _ _ _ _ Hr Hacc) as [_ Ha Hc].
    destruct (finished_counts p Hfin) as (Hp & Hb & Hact).
    rewrite Hp, Hb in Hc. rewrite Hact in Ha. simpl in Hc. lia.
  - intros sched. split; [apply run_pool_reachable |].
    apply run_pool_finished. destruct Hacc as [Hw _ _]. rewrite Hw. lia.
  - intros h st0. apply scan_host_counters.
  - reflexivity.
Qed.

(** The sample pool, run under a scheduler that interleaves its two threads. *)
Lemma completed_equals_dispatched_witness :
  let e := sample_env sweep_two_hosts probe_one_open NoInterrupt in
  let p := run_pool e sample_scanner 2 [0; 1; 1; 0; 1; 0]%nat sample_pool in
  finished p = true /\ completed_scans (shared p) = 2 /\ active_scans (shared p) = 0.
Proof.
  cbv zeta.
  destruct (completed_equals_dispatched
              (sample_env sweep_two_hosts probe_one_open NoInterrupt) sample_scanner 2 50
              ["192.168.1.1"; "192.168.1.2"] (start_state ∅) sample_pool eq_refl)
    as (Hend & Hrun & _).
  destruct (Hrun [0; 1; 1; 0; 1; 0]%nat) as [Hr Hf].
  split; [exact Hf |]. exact (Hend _ Hr Hf).
Defined.

(** ** The bound on the active counter (C4) *)

(** C4.  For the pool [run_scan] creates with limit [threads] over the
    hosts, starting with no scan active: in every state the orchestration can
    reach, the probes running are among the active scans, the active counter
    lies between 0 and the minimum of the limit and the number of hosts, and
    no step makes the completed counter smaller. *)
Theorem active_bounded_by_pool_size (e : env) (s : scanner) (n : nat) (threads : Z)
  (hosts : list string) (st : state) (p0 p : pool) :
  init_pool threads hosts st = Some p0 ->
  active_scans st = 0 ->
  reachable e s n p0 p ->
  0 <= probes_running p <= active_scans (shared p)
  /\ 0 <= active_scans (shared p) <= Z.min threads (Z.of_nat (length hosts))
  /\ completed_scans st <= completed_scans (shared p)
  /\ (forall p', step e s n p p' ->
                 completed_scans (shared p) <= completed_scans (shared p')).
Proof.
  intros Hinit H0 Hr. destruct (init_pool_accounts _ _ _ _ Hinit) as [Hacc Hmin].
  destruct (reachable_accounts _ _ _ _ _ _ _ _ _ Hr Hacc) as [Hw Ha _].
  pose proof (filter_length_le is_active (workers p)) as Hle.
  pose proof (filter_length_mono is_probing is_active (workers p)) as Hpm.
  assert (Hpa : (length (List.filter is_probing (workers p)) <=
                 length (List.filter is_active (workers p)))%nat).
  { apply Hpm. intros [|h|h|h|h|h]; simpl; auto. }
  unfold probes_running, count_phase in *. rewrite H0 in Ha.
  split; [lia |]. split; [lia |]. split.
  - pose proof (reachable_completed_mono _ _ _ _ _ Hr) as Hm.
    replace (shared p0) with st in Hm; [exact Hm |].
    unfold init_pool in Hinit. destruct (_ <=? 0); [discriminate |].
    injection Hinit as <-. reflexivity.
  - intros p' Hs. eapply step_completed_mono; eauto.
Qed.

(** The sample pool after six steps of its two threads: both probes are
    running, within the bound of two. *)
Lemma active_bounded_by_pool_size_witness :
  let e := sample_env sweep_two_hosts probe_one_open NoInterrupt in
  let p := run_sched e sample_scanner 2 [0; 1; 0; 1; 0; 1]%nat sample_pool in
  probes_running p = 2
  /\ 0 <= probes_running p <= active_scans (shared p)
  /\ 0 <= active_scans (shared p) <= Z.min 50 2.
Proof.
  cbv zeta. split; [reflexivity |].
  destruct (active_bounded_by_pool_size
              (sample_env sweep_two_hosts probe_one_open NoInterrupt) sample_scanner 2 50
              ["192.168.1.1"; "192.168.1.2"] (start_state ∅) sample_pool
              (run_sched (sample_env sweep_two_hosts probe_one_open NoInterrupt)
                 sample_scanner 2 [0; 1; 0; 1; 0; 1]%nat sample_pool)
              eq_refl eq_refl (run_sched_reachable _ _ _ _ _))
    as (H1 & H2 & _).
  split; [exact H1 | exact H2].
Defined.

(** ** The hosts a sweep reports (C7) *)

Lemma sweep_line_app acc line : sweep_line acc line = acc ++ sweep_line [] line.
Proof.
  unfold sweep_line. destruct (PyStr.contains _ line); [| now rewrite app_nil_r].
  destruct (Re.re_search _ line); [reflexivity | now rewrite app_nil_r].
Qed.

Lemma fold_sweep_line ls acc :
  fold_left sweep_line ls acc = acc ++ flat_map (sweep_line []) ls.
Proof.
  revert acc. induction ls as [|line ls IH]; intros acc; simpl.
  - now rewrite app_nil_r.
  - rewrite IH, (sweep_line_app acc line), <- app_assoc. reflexivity.
Qed.

Lemma split_on_nonempty sep s : PyStr.split_on sep s <> [].
Proof.
  destruct s as [|c s]; simpl; [discriminate |].
  destruct (Ascii.eqb c sep); [discriminate |].
  destruct (PyStr.split_on sep s); discriminate.
Qed.

(** Splitting a text made of two texts joined by the separator. *)
Lemma split_on_join sep a b :
  PyStr.split_on sep (a +:+ String sep b) = PyStr.split_on sep a ++ PyStr.split_on sep b.
Proof.
  induction a as [|c a IH].
  - change (PyStr.split_on sep (String sep b) = [EmptyString] ++ PyStr.split_on sep b).
    simpl. rewrite Ascii.eqb_refl. reflexivity.
  - change (PyStr.split_on sep (String c (a +:+ String sep b))
            = PyStr.split_on sep (String c a) ++ PyStr.split_on sep b).
    simpl. destruct (Ascii.eqb c sep).
    + rewrite IH. reflexivity.
    + rewrite IH. pose proof (split_on_nonempty sep a) as Hne.
      destruct (PyStr.split_on sep a) as [|h t]; [congruence | reflexivity].
Qed.

(** C7, as stated, fails: an address reported on two lines of the sweep
    output is returned twice. *)
Lemma sweep_keeps_duplicates :
  let e := sample_env sweep_repeated probe_all_closed NoInterrupt in
  fst (ping_sweep e sample_scanner (start_state ∅))
    = Return ["192.168.1.1"; "192.168.1.1"]
  /\ ~ List.NoDup ["192.168.1.1"; "192.168.1.1"].
Proof.
  cbv zeta. split; [reflexivity |].
  intros H. apply NoDup_cons_iff in H as [Hin _]. apply Hin. left. reflexivity.
Qed.

(** C7, amended.  When the sweep returns, the host list is made line by
    line in the order of the output: a line that contains the report marker
    and an address token contributes the first such token, any other line
    nothing.  Nothing is removed afterwards: the list for two outputs joined
    by a line break is the two lists one after the other, so an address
    reported twice is listed twice. *)
Theorem sweep_hosts_in_line_order (e : env) (s : scanner) (st : state) (rc : Z)
  (stdout : string) :
  interrupt e <> AtSweep ->
  nmap_sweep e (target_range s) = Completed rc stdout ->
  fst (ping_sweep e s st) = Return (parse_sweep stdout)
  /\ parse_sweep stdout = flat_map (sweep_line []) (PyStr.lines stdout)
  /\ (forall line,
         sweep_line [] line =
           if PyStr.contains "Nmap scan report for" line
           then match Re.re_search Re.ip_pattern line with
                | Some ip => [ip]
                | None => []
                end
           else [])
  /\ (forall a b, parse_sweep (a +:+ PyStr.NL +:+ b) = parse_sweep a ++ parse_sweep b).
Proof.
  intros Hi Hs. split; [| split; [| split]].
  - unfold ping_sweep. rewrite Hs. destruct (interrupt e); try reflexivity. congruence.
  - unfold parse_sweep. apply (fold_sweep_line _ []).
  - intros line. unfold sweep_line. reflexivity.
  - intros a b. unfold parse_sweep. rewrite !(fold_sweep_line _ []). simpl.
    unfold PyStr.lines, PyStr.NL.
    change (a +:+ String PyStr.newline "" +:+ b) with (a +:+ String PyStr.newline b).
    rewrite split_on_join, flat_map_app. reflexivity.
Qed.

(** The sample sweep: two reported hosts, in the order of their lines. *)
Lemma sweep_hosts_in_line_order_witness :
  fst (ping_sweep (sample_env sweep_two_hosts probe_all_closed NoInterrupt) sample_scanner
         (start_state ∅))
  = Return ["192.168.1.1"; "192.168.1.2"].
Proof.
  destruct (sweep_hosts_in_line_order
              (sample_env sweep_two_hosts probe_all_closed NoInterrupt) sample_scanner
              (start_state ∅) 0
              ("Starting Nmap" +:+ PyStr.NL +:+
               "Nmap scan report for 192.168.1.1" +:+ PyStr.NL +:+
               "Host is up (0.0010s latency)." +:+ PyStr.NL +:+
               "Nmap scan report for gw.lan (192.168.1.2)" +:+ PyStr.NL +:+
               "Host is up (0.0020s latency).")
              ltac:(discriminate) eq_refl) as [H _].
  exact H.
Defined.

(** ** The fallback of the discovery stage (C6) *)

Lemma netmask_shift p : 0 <= p <= 32 -> IPv4.netmask p = Z.shiftl (Z.ones p) (32 - p).
Proof.
  intros Hp. rewrite Z.shiftl_mul_pow2, Z.ones_equiv by lia.
  unfold IPv4.netmask, Z.pred.
  replace (2 ^ 32) with (2 ^ (p + (32 - p))) by (f_equal; lia).
  rewrite Z.pow_add_r by lia. ring.
Qed.

(** Every network the constructor builds is well formed. *)
Lemma make_wf addr p :
  0 <= addr < 2 ^ 32 -> 0 <= p <= 32 -> IPv4.wf (IPv4.make addr p).
Proof.
  intros Ha Hp. unfold IPv4.wf, IPv4.make. simpl.
  assert (Hnm : 0 <= IPv4.netmask p).
  { unfold IPv4.netmask.
    assert (2 ^ (32 - p) <= 2 ^ 32) by (apply Z.pow_le_mono_r; lia). lia. }
  split; [exact Hp |]. split.
  - assert (H0 : 0 <= Z.land addr (IPv4.netmask p)) by (apply Z.land_nonneg; lia).
    split; [exact H0 |].
    destruct (Z.eq_dec (Z.land addr (IPv4.netmask p)) 0) as [-> | Hnz]; [lia |].
    apply Z.log2_lt_pow2; [lia |].
    assert (Hpos : 0 < addr).
    { destruct (Z.eq_dec addr 0) as [-> | ?]; [| lia]. rewrite Z.land_0_l in Hnz. lia. }
    pose proof (Z.log2_land addr (IPv4.netmask p) (proj1 Ha) Hnm) as Hl.
    assert (Z.log2 addr < 32) by (apply Z.log2_lt_pow2; lia). lia.
  - apply Z.bits_inj'. intros i Hi.
    rewrite !Z.land_spec, Z.bits_0, netmask_shift by exact Hp.
    unfold IPv4.hostmask. change (2 ^ (32 - p) - 1) with (Z.pred (2 ^ (32 - p))).
    rewrite <- Z.ones_equiv.
    destruct (Z.lt_ge_cases i (32 - p)) as [Hlt | Hge].
    + rewrite Z.shiftl_spec_low by exact Hlt. now rewrite andb_false_r.
    + rewrite Z.testbit_ones by lia.
      replace (i <? 32 - p) with false by (symmetry; apply Z.ltb_ge; lia).
      now rewrite !andb_false_r.
Qed.

Lemma broadcast_eq n :
  IPv4.wf n ->
  IPv4.broadcast_address n = IPv4.network_address n + 2 ^ (32 - IPv4.prefixlen n) - 1.
Proof.
  intros (_ & _ & Hl). unfold IPv4.broadcast_address.
  rewrite <- Z.lxor_lor, <- Z.add_nocarry_lxor by exact Hl.
  unfold IPv4.hostmask. lia.
Qed.

Lemma in_range a b x : In x (IPv4.range a b) <-> a <= x < b.
Proof.
  unfold IPv4.range. rewrite in_map_iff. split.
  - intros (i & <- & Hi). apply in_seq in Hi. lia.
  - intros Hx. exists (Z.to_nat (x - a)). split; [lia |]. apply in_seq. lia.
Qed.

Lemma range_two a : IPv4.range a (a + 1 + 1) = [a; a + 1].
Proof.
  unfold IPv4.range. replace (a + 1 + 1 - a) with 2 by lia. simpl.
  now rewrite Z.add_0_r.
Qed.

(** C6, as stated, fails: for the two-address range [192.168.1.0/31] the
    fallback returns both addresses, and they are the network and the
    broadcast address of the range. *)
Lemma sweep_fallback_31_keeps_network_and_broadcast :
  let e := sample_env sweep_timeout probe_all_closed NoInterrupt in
  fst (ping_sweep e sample_scanner_31 (start_state ∅))
    = Return ["192.168.1.0"; "192.168.1.1"]
  /\ IPv4.str (IPv4.network_address (network sample_scanner_31)) = "192.168.1.0"
  /\ IPv4.str (IPv4.broadcast_address (network sample_scanner_31)) = "192.168.1.1".
Proof. cbv zeta. repeat split; reflexivity. Qed.

(** C6, amended.  When the sweep times out or its invocation fails, the
    discovery stage returns the addresses [hosts()] enumerates, and that list
    is never empty.  For a prefix length of at most 30 they are exactly the
    addresses strictly between the network and the broadcast address; for
    31 they are the two addresses of the range, network and broadcast
    included; for 32 the single address of the range. *)
Theorem sweep_fallback_hosts (e : env) (s : scanner) (st : state) :
  IPv4.wf (network s) ->
  interrupt e <> AtSweep ->
  (forall rc out, nmap_sweep e (target_range s) <> Completed rc out) ->
  let net := IPv4.network_address (network s) in
  let bc := IPv4.broadcast_address (network s) in
  fst (ping_sweep e s st) = Return (map IPv4.str (IPv4.hosts (network s)))
  /\ IPv4.hosts (network s) <> []
  /\ (IPv4.prefixlen (network s) <= 30 ->
      IPv4.hosts (network s) = IPv4.range (net + 1) bc
      /\ forall a, In a (IPv4.hosts (network s)) <-> net < a < bc)
  /\ (IPv4.prefixlen (network s) = 31 -> IPv4.hosts (network s) = [net; bc])
  /\ (IPv4.prefixlen (network s) = 32 -> IPv4.hosts (network s) = [net] /\ bc = net).
Proof.
  intros Hwf Hi Hs net bc.
  pose proof (broadcast_eq _ Hwf) as Hbc. fold bc net in Hbc.
  destruct Hwf as (Hp & Hn & Hl).
  assert (H30 : IPv4.prefixlen (network s) <= 30 ->
                IPv4.hosts (network s) = IPv4.range (net + 1) bc).
  { intros Hle. unfold IPv4.hosts, IPv4.max_prefixlen.
    replace (IPv4.prefixlen (network s) =? 32 - 1) with false
      by (symmetry; apply Z.eqb_neq; lia).
    replace (IPv4.prefixlen (network s) =? 32) with false
      by (symmetry; apply Z.eqb_neq; lia).
    reflexivity. }
  assert (H31 : IPv4.prefixlen (network s) = 31 -> IPv4.hosts (network s) = [net; bc]).
  { intros He. unfold IPv4.hosts, IPv4.max_prefixlen. rewrite He. simpl.
    fold net bc. rewrite He in Hbc. change (2 ^ (32 - 31)) with 2 in Hbc.
    replace bc with (net + 1) by lia. apply range_two. }
  assert (H32 : IPv4.prefixlen (network s) = 32 ->
                IPv4.hosts (network s) = [net] /\ bc = net).
  { intros He. unfold IPv4.hosts, IPv4.max_prefixlen. rewrite He. simpl.
    rewrite He in Hbc. change (2 ^ (32 - 32)) with 1 in Hbc. split; [reflexivity | lia]. }
  split; [| split; [| split; [| split]]]; auto.
  - unfold ping_sweep, all_hosts.
    destruct (nmap_sweep e (target_range s)) as [rc out| m | m | m] eqn:Hr;
      [exfalso; exact (Hs rc out eq_refl) | | |];
      destruct (interrupt e); try reflexivity; congruence.
  - destruct (Z.le_gt_cases (IPv4.prefixlen (network s)) 30) as [Hle | Hgt].
    + rewrite (H30 Hle).
      assert (Hpow : 2 ^ 2 <= 2 ^ (32 - IPv4.prefixlen (network s)))
        by (apply Z.pow_le_mono_r; lia).
      change (2 ^ 2) with 4 in Hpow.
      intros Hnil. assert (Hin : In (net + 1) (IPv4.range (net + 1) bc))
        by (apply in_range; lia).
      rewrite Hnil in Hin. exact Hin.
    + destruct (Z.eq_dec (IPv4.prefixlen (network s)) 31) as [He | Hne].
      * rewrite (H31 He). discriminate.
      * assert (He : IPv4.prefixlen (network s) = 32) by lia.
        destruct (H32 He) as [-> _]. discriminate.
  - intros Hle. split; [exact (H30 Hle) |].
    intros a. rewrite (H30 Hle), in_range. lia.
Qed.

(** The sample range [192.168.1.0/30] with a sweep that times out: the two
    usable addresses are returned. *)
Lemma sweep_fallback_hosts_witness :
  fst (ping_sweep (sample_env sweep_timeout probe_all_closed NoInterrupt) sample_scanner
         (start_state ∅))
  = Return ["192.168.1.1"; "192.168.1.2"].
Proof.
  destruct (sweep_fallback_hosts
              (sample_env sweep_timeout probe_all_closed NoInterrupt) sample_scanner
              (start_state ∅)
              (make_wf 3232235776 30 ltac:(lia) ltac:(lia))
              ltac:(discriminate) ltac:(discriminate)) as [H _].
  exact H.
Defined.

(** ** The exit code (C1) *)

Lemma check_nmap_fst e st st0 :
  fst (check_nmap_installed e st) = fst (check_nmap_installed e st0).
Proof.
  unfold check_nmap_installed.
  destruct (interrupt e); destruct (nmap_version e) as [rc out| m | m | m];
    try reflexivity; destruct (rc =? 0); reflexivity.
Qed.

Lemma ping_sweep_fst e s st st0 : fst (ping_sweep e s st) = fst (ping_sweep e s st0).
Proof.
  unfold ping_sweep.
  destruct (interrupt e); destruct (nmap_sweep e (target_range s)); reflexivity.
Qed.

Lemma init_pool_some threads h hs st :
  1 <= threads -> exists p0, init_pool threads (h :: hs) st = Some p0.
Proof.
  intros Ht. unfold init_pool.
  destruct (Z.min threads (Z.of_nat (length (h :: hs))) <=? 0) eqn:Hn; [| eauto].
  apply Z.leb_le in Hn. simpl length in Hn. lia.
Qed.

(** What [run_scan] returns, read off the version check, the sweep and the
    interrupt; the state does not matter. *)
Lemma run_scan_fst e s sched st :
  1 <= max_threads s ->
  fst (run_scan e s sched st) =
    match fst (check_nmap_installed e st) with
    | Raise x => Raise x
    | Return false => Return false
    | Return true =>
        match fst (ping_sweep e s st) with
        | Raise x => Raise x
        | Return [] => Return false
        | Return (_ :: _) =>
            match interrupt e with
            | AtScan => Raise KeyboardInterrupt
            | _ => Return true
            end
        end
    end.
Proof.
  intros Ht. unfold run_scan, run_scan_to_join.
  destruct (check_nmap_installed e st) as [[[|]|x] st1]; cbn [fst]; try reflexivity.
  match goal with
  | |- context [ping_sweep e s ?st5] => rewrite (ping_sweep_fst e s st st5);
      destruct (ping_sweep e s st5) as [[[|h hs]|x] st6]
  end; cbn [fst]; try reflexivity.
  match goal with
  | |- context [init_pool (max_threads s) (h :: hs) ?st8] =>
      destruct (init_pool_some (max_threads s) h hs st8 Ht) as [p0 ->]
  end.
  destruct (interrupt e); reflexivity.
Qed.

Lemma setup_threads e a fs s st :
  setup e a fs = inr (s, st) -> 1 <= max_threads s <= 200.
Proof.
  unfold setup, init.
  destruct ((arg_threads a <? 1) || (200 <? arg_threads a)) eqn:Ht; [discriminate |].
  apply orb_false_iff in Ht as [H1 H2]. apply Z.ltb_ge in H1, H2.
  destruct (ipv4_parse e (arg_range a)) as [msg | [addr p]]; [discriminate |].
  intros H. injection H as <- _. simpl. lia.
Qed.

Lemma main_code e a sched fs :
  fst (main e a sched fs) =
    match setup e a fs with
    | inl _ => 1
    | inr (s, st) =>
        match fst (run_scan e s sched st) with
        | Return true => 0
        | _ => 1
        end
    end.
Proof.
  unfold main. destruct (setup e a fs) as [st | [s st]]; [reflexivity |].
  destruct (run_scan e s sched st) as [[[|]|[|msg]] st1]; reflexivity.
Qed.

(** C1, as stated, fails: on the sample range with two live hosts and no
    open port anywhere, no result is produced (the queue is empty when the
    scans are over, and no file is written), and the process exits with 0. *)
Lemma exit_zero_without_results :
  let e := sample_env sweep_two_hosts probe_all_closed NoInterrupt in
  fst (main e sample_args [] ∅) = 0
  /\ (exists s st, setup e sample_args ∅ = inr (s, st)
                   /\ results_queue (snd (run_scan_to_join e s [] st)) = [])
  /\ files (snd (main e sample_args [] ∅)) = ∅.
Proof.
  cbv zeta. split; [vm_compute; reflexivity |]. split.
  - eexists. eexists. split; [vm_compute; reflexivity | vm_compute; reflexivity].
  - vm_compute. reflexivity.
Qed.

(** C1, amended.  The exit code is 0 or 1.  It is 0 if and only if the
    command line is accepted, the tool check passes, the discovery stage
    returns at least one host and no interrupt arrives during the scans --
    whether or not any result was produced.  So it is 1 when no live host
    was found, on every user interruption, and on every error that reaches
    the top level. *)
Theorem exit_code_iff_scan_ran (e : env) (a : args) (sched : list nat)
  (fs : gmap string string) :
  let code := fst (main e a sched fs) in
  (code = 0 \/ code = 1)
  /\ (code = 0 <->
      exists s st, setup e a fs = inr (s, st)
                   /\ fst (check_nmap_installed e st) = Return true
                   /\ (exists h hs, fst (ping_sweep e s st) = Return (h :: hs))
                   /\ interrupt e <> AtScan)
  /\ (forall s st, setup e a fs = inr (s, st) ->
                   fst (ping_sweep e s st) = Return [] -> code = 1)
  /\ (interrupt e <> NoInterrupt -> code = 1)
  /\ (forall s st x, setup e a fs = inr (s, st) ->
                     fst (run_scan e s sched st) = Raise x -> code = 1).
Proof.
  intros code. subst code. rewrite main_code.
  destruct (setup e a fs) as [st | [s st]] eqn:Hsetup.
  - split; [auto |]. split; [| split; [| split]].
    + split; [discriminate |]. intros (s' & st' & H & _). discriminate H.
    + intros s' st' H. discriminate H.
    + reflexivity.
    + intros s' st' x H. discriminate H.
  - pose proof (setup_threads _ _ _ _ _ Hsetup) as [Ht _].
    pose proof (run_scan_fst e s sched st Ht) as Hrun.
    assert (Hint : interrupt e <> NoInterrupt ->
                   fst (run_scan e s sched st) <> Return true).
    { intros Hi. rewrite Hrun. unfold check_nmap_installed, ping_sweep.
      destruct (interrupt e); [congruence | | |].
      - discriminate.
      - destruct (nmap_version e) as [rc out| m | m | m]; try discriminate.
        destruct (rc =? 0); discriminate.
      - destruct (nmap_version e) as [rc out| m | m | m]; try discriminate.
        destruct (rc =? 0); [| discriminate]. cbn [fst].
        destruct (nmap_sweep e (target_range s)) as [c out'| m | m | m]; cbn [fst];
          match goal with
          | |- context [match ?l with [] => _ | _ :: _ => _ end] => destruct l
          end; discriminate. }
    split; [| split; [| split; [| split]]].
    + destruct (fst (run_scan e s sched st)) as [[|]|x]; auto.
    + split.
      * intros Hc. exists s, st. split; [reflexivity |].
        rewrite Hrun in Hc.
        destruct (fst (check_nmap_installed e st)) as [[|]|x]; try discriminate Hc.
        split; [reflexivity |].
        destruct (fst (ping_sweep e s st)) as [[|h hs]|x]; try discriminate Hc.
        split; [eauto |]. intros Hi. rewrite Hi in Hc. discriminate Hc.
      * intros (s' & st' & H & Hc & (h & hs & Hp) & Hi).
        injection H as <- <-. rewrite Hrun, Hc, Hp.
        destruct (interrupt e); congruence.
    + intros s' st' H Hp. injection H as <- <-. rewrite Hrun, Hp.
      destruct (fst (check_nmap_installed e st)) as [[|]|x]; reflexivity.
    + intros Hi. specialize (Hint Hi).
      destruct (fst (run_scan e s sched st)) as [[|]|x]; congruence.
    + intros s' st' x H Hr. injection H as <- <-. rewrite Hr. reflexivity.
Qed.

(** The sample run with one open port exits with 0; the same run
    interrupted during the scans exits with 1. *)
Lemma exit_code_iff_scan_ran_witness :
  fst (main (sample_env sweep_two_hosts probe_one_open NoInterrupt) sample_args [] ∅) = 0
  /\ fst (main (sample_env sweep_two_hosts probe_one_open AtScan) sample_args [] ∅) = 1.
Proof.
  split.
  - apply (exit_code_iff_scan_ran
             (sample_env sweep_two_hosts probe_one_open NoInterrupt) sample_args [] ∅).
    eexists. eexists. split; [vm_compute; reflexivity |].
    split; [reflexivity |]. split; [| discriminate].
    eexists. eexists. vm_compute. reflexivity.
  - apply (exit_code_iff_scan_ran
             (sample_env sweep_two_hosts probe_one_open AtScan) sample_args [] ∅).
    discriminate.
Defined.

(** ** A missing tool (C10) *)

Lemma prints_only_runs st st' cmd :
  prints_only st st' -> In (EvRun cmd) (trace st') -> In (EvRun cmd) (trace st).
Proof.
  intros [msgs ->] Hin. apply in_app_or in Hin as [Hin | Hin]; [exact Hin |].
  apply in_map_iff in Hin as (m & Hm & _). discriminate Hm.
Qed.

(** Before the scanner runs, nothing has been launched, queued or written. *)
Lemma setup_state e a fs :
  let st := match setup e a fs with inl st => st | inr (_, st) => st end in
  files st = fs /\ results_queue st = [] /\ forall cmd, ~ In (EvRun cmd) (trace st).
Proof.
  unfold setup, init.
  destruct ((arg_threads a <? 1) || (200 <? arg_threads a)).
  - simpl. repeat split. intros cmd [H | [H | []]]; discriminate H.
  - destruct (ipv4_parse e (arg_range a)) as [msg | [addr p]].
    + simpl. repeat split. intros cmd [H | [H | []]]; discriminate H.
    + destruct (65536 <? IPv4.num_addresses (IPv4.make addr p)); simpl; repeat split.
      * intros cmd [H | [H | []]]; discriminate H.
      * intros cmd [H | []]; discriminate H.
Qed.

(** A version check that does not succeed: it does not return [True], and
    leaves its own launch and at most a message in the trace. *)
Lemma check_nmap_missing e st :
  (forall out, nmap_version e <> Completed 0 out) ->
  let r := check_nmap_installed e st in
  fst r <> Return true
  /\ same_store st (snd r)
  /\ exists msgs, trace (snd r) = trace st ++ EvRun version_cmd :: map EvPrint msgs.
Proof.
  intros Hv. unfold check_nmap_installed.
  assert (Hrc : forall rc out, nmap_version e = Completed rc out -> (rc =? 0) = false).
  { intros rc out Hn. destruct (rc =? 0) eqn:Hz; [| reflexivity].
    apply Z.eqb_eq in Hz. subst rc. exfalso. exact (Hv out Hn). }
  destruct (interrupt e); destruct (nmap_version e) as [rc out| m | m | m] eqn:Hn;
    try rewrite (Hrc rc out eq_refl); cbn [fst snd];
    (split; [discriminate |]); (split; [repeat split |]);
    first [ exists []; reflexivity
          | exists ["Error: nmap is not installed or not in PATH"]; simpl;
            rewrite <- app_assoc; reflexivity ].
Qed.

Lemma run_scan_check_failed e s sched st :
  fst (check_nmap_installed e st) <> Return true ->
  run_scan e s sched st =
    (match fst (check_nmap_installed e st) with
     | Raise x => Raise x
     | Return _ => Return false
     end, snd (check_nmap_installed e st)).
Proof.
  intros Hc. unfold run_scan, run_scan_to_join.
  destruct (check_nmap_installed e st) as [[[|]|x] st1]; simpl in *;
    [congruence | reflexivity | reflexivity].
Qed.

(** C10.  When the version check of the tool does not succeed -- the tool
    is absent, cannot be launched, or exits with an error -- the process
    exits with code 1, the files are what they were, and the version check
    is the only launch in the trace: no sweep and no probe was started. *)
Theorem tool_missing_aborts (e : env) (a : args) (sched : list nat)
  (fs : gmap string string) :
  (forall out, nmap_version e <> Completed 0 out) ->
  let r := main e a sched fs in
  fst r = 1
  /\ files (snd r) = fs
  /\ forall cmd, In (EvRun cmd) (trace (snd r)) -> cmd = version_cmd.
Proof.
  intros Hv r. subst r. unfold main.
  pose proof (setup_state e a fs) as Hsetup.
  destruct (setup e a fs) as [st | [s st]]; cbv zeta in Hsetup;
    destruct Hsetup as (Hf & Hq & Hruns).
  - simpl. split; [reflexivity |]. split; [exact Hf |].
    intros cmd Hin. exfalso. exact (Hruns cmd Hin).
  - destruct (check_nmap_missing e st Hv) as (Hne & (_ & _ & Hq1 & Hf1) & msgs & Htr).
    rewrite (run_scan_check_failed e s sched st Hne).
    set (st1 := snd (check_nmap_installed e st)) in *.
    assert (Hruns1 : forall cmd, In (EvRun cmd) (trace st1) -> cmd = version_cmd).
    { intros cmd Hin. rewrite Htr in Hin. apply in_app_or in Hin as [Hin | [Hin | Hin]].
      - exfalso. exact (Hruns cmd Hin).
      - injection Hin as <-. reflexivity.
      - apply in_map_iff in Hin as (m & Hm & _). discriminate Hm. }
    destruct (fst (check_nmap_installed e st)) as [b | [| msg]].
    + simpl. split; [reflexivity |]. split; [congruence | exact Hruns1].
    + cbn [fst snd]. rewrite save_results_empty by (simpl; congruence).
      split; [reflexivity |]. split; [simpl; congruence |].
      intros cmd Hin. apply Hruns1.
      eapply prints_only_runs; [| exact Hin].
      repeat (eapply prints_only_trans; [| apply print_prints_only]).
      apply prints_only_refl.
    + cbn [fst snd]. split; [reflexivity |]. split; [simpl; congruence |].
      intros cmd Hin. apply Hruns1.
      eapply prints_only_runs; [apply print_prints_only | exact Hin].
Qed.

(** The sample run in a world without the tool. *)
Lemma tool_missing_aborts_witness :
  fst (main env_no_nmap sample_args [] ∅) = 1
  /\ files (snd (main env_no_nmap sample_args [] ∅)) = ∅.
Proof.
  destruct (tool_missing_aborts env_no_nmap sample_args [] ∅ ltac:(discriminate))
    as (H1 & H2 & _).
  split; [exact H1 | exact H2].
Defined.

(** ** The program on sample inputs *)

Example split_lines_ex :
  PyStr.lines ("a" +:+ PyStr.NL +:+ PyStr.NL +:+ "b") = ["a"; ""; "b"].
Proof. reflexivity. Qed.

Example split_ws_ex :
  PyStr.split_ws "  80/tcp   open  http " = ["80/tcp"; "open"; "http"].
Proof. reflexivity. Qed.

Example lower_ex : PyStr.lower "22/tcp OPEN Ssh" = "22/tcp open ssh".
Proof. reflexivity. Qed.

Example search_ip_ex :
  Re.re_search Re.ip_pattern "Nmap scan report for gw (192.168.1.1)" = Some "192.168.1.1".
Proof. reflexivity. Qed.

(** The last [\d+] takes every digit; the search starts at the leftmost
    position where the whole pattern fits. *)
Example search_ip_leftmost_ex :
  Re.re_search Re.ip_pattern "v7.94 at 10.0.0.256." = Some "10.0.0.256".
Proof. reflexivity. Qed.

Example match_port_ex :
  Re.re_match Re.port_pattern "80/tcp open  http" = Some "80/tcp"
  /\ Re.re_match Re.port_pattern " 80/tcp open" = None
  /\ Re.re_match Re.port_pattern "53/udp open" = None.
Proof. repeat split; reflexivity. Qed.

Example hosts_30_ex :
  map IPv4.str (IPv4.hosts (IPv4.make 3232235777 30)) = ["192.168.1.1"; "192.168.1.2"].
Proof. reflexivity. Qed.

Example hosts_32_ex :
  map IPv4.str (IPv4.hosts (IPv4.make 3232235777 32)) = ["192.168.1.1"].
Proof. reflexivity. Qed.

(** The port scan of [process_scan_result] looks at the state column, the
    one of [save_results] at the whole line: they can disagree. *)
Example port_scans_differ :
  open_ports (fold_left port_line (PyStr.lines closed_openssh_output)
                {| in_port_section := false; open_ports := [];
                   loop_state := start_state ∅ |}) = []
  /\ gnmap_ports closed_openssh_output = ["22/tcp"].
Proof. split; reflexivity. Qed.

(** The range [192.168.1.0/30] with both hosts alive, one open port on
    [.1] and none on [.2]: exit code 0, one result, and only [.1] in the
    grep-friendly file. *)
Example one_open_port_run :
  let r := main (sample_env sweep_two_hosts probe_one_open NoInterrupt) sample_args
             [0; 1; 0; 1; 1]%nat ∅ in
  fst r = 0
  /\ completed_scans (snd r) = 2
  /\ active_scans (snd r) = 0
  /\ files (snd r) !! "192-168-1-0_30-network.gnmap"
     = Some ("Host: 192.168.1.1 () Status: Up" +:+ PyStr.NL +:+
             "Host: 192.168.1.1 () Ports: 80/tcp" +:+ PyStr.NL)
  /\ files (snd r) !! "192-168-1-0_30-network.xml"
     = Some (xml_text [("192.168.1.1", http_output)]).
Proof. cbv zeta. repeat split; vm_compute; reflexivity. Qed.

(** A sleep with a negative delay raises, and the error is reported like
    any other; so do a delay of [1e10] seconds on the sample platform and a
    delay that is not a number. *)
Example refused_delays_ex :
  let e := sample_env sweep_two_hosts probe_all_closed NoInterrupt in
  let s d := {| target_range := "10.0.0.0/30"; max_threads := 1; delay := d;
                network := IPv4.make 167772160 30; total_hosts := 4;
                output_base := "10-0-0-0_30-network" |} in
  do_sleep e (s (Finite ((-1) # 2))) "10.0.0.1" (start_state ∅)
  = print "[-] Error scanning 10.0.0.1: sleep length must be non-negative" (start_state ∅)
  /\ do_sleep e (s (Finite (10000000000 # 1))) "10.0.0.1" (start_state ∅)
     = print "[-] Error scanning 10.0.0.1: timestamp too large to convert to C _PyTime_t"
         (start_state ∅)
  /\ do_sleep e (s (Infinity false)) "10.0.0.1" (start_state ∅)
     = print "[-] Error scanning 10.0.0.1: timestamp too large to convert to C _PyTime_t"
         (start_state ∅)
  /\ do_sleep e (s NaN) "10.0.0.1" (start_state ∅)
     = print "[-] Error scanning 10.0.0.1: Invalid value NaN (not a number)"
         (start_state ∅)
  /\ do_sleep e (s (Finite 0)) "10.0.0.1" (start_state ∅)
     = emit (EvSleep 0) (start_state ∅).
Proof. cbv zeta. repeat split; reflexivity. Qed.

(** The sample scanner is the one [main] builds from the sample arguments. *)
Example setup_sample :
  exists st,
    setup (sample_env sweep_two_hosts probe_one_open NoInterrupt) sample_args ∅
    = inr (sample_scanner, st).
Proof. eexists. vm_compute. reflexivity. Qed.

(** ** The counters after [run_scan] *)

Lemma check_nmap_same_store e st : same_store st (snd (check_nmap_installed e st)).
Proof.
  unfold check_nmap_installed.
  destruct (interrupt e); destruct (nmap_version e) as [rc out| m | m | m];
    try (repeat split; fail); destruct (rc =? 0); repeat split.
Qed.

Lemma ping_sweep_same_store e s st : same_store st (snd (ping_sweep e s st)).
Proof.
  unfold ping_sweep.
  destruct (interrupt e); destruct (nmap_sweep e (target_range s)); repeat split.
Qed.

(** When the scans of [run_scan] are over, the completed counter has grown
    by the number of live hosts and the active counter is back where it was,
    under every scheduler. *)
Lemma run_scan_to_join_counters e s sched st n st' :
  run_scan_to_join e s sched st = (Return (Some n), st') ->
  completed_scans st' = completed_scans st + Z.of_nat n
  /\ active_scans st' = active_scans st.
Proof.
  unfold run_scan_to_join.
  pose proof (check_nmap_same_store e st) as (Ha1 & Hc1 & _ & _).
  destruct (check_nmap_installed e st) as [[[|]|x] st1]; try discriminate.
  simpl in Ha1, Hc1.
  match goal with
  | |- context [ping_sweep e s ?st5] =>
      pose proof (ping_sweep_same_store e s st5) as (Ha2 & Hc2 & _ & _);
      destruct (ping_sweep e s st5) as [[[|h hs]|x] st6]
  end; try discriminate.
  simpl in Ha2, Hc2.
  match goal with
  | |- context [init_pool (max_threads s) (h :: hs) ?st8] =>
      destruct (init_pool (max_threads s) (h :: hs) st8) as [p0|] eqn:Hinit;
      [| discriminate];
      destruct (init_pool_accounts _ _ _ _ Hinit) as [Hacc Hmin]
  end.
  set (p := run_pool e s (length (h :: hs)) sched p0).
  assert (Hr : reachable e s (length (h :: hs)) p0 p) by apply run_pool_reachable.
  assert (Hf : finished p = true).
  { apply run_pool_finished. destruct Hacc as [Hw _ _]. rewrite Hw. lia. }
  destruct (reachable_accounts _ _ _ _ _ _ _ _ _ Hr Hacc) as [_ Ha Hc].
  destruct (finished_counts p Hf) as (Hp & Hb & Hact).
  rewrite Hp, Hb in Hc. rewrite Hact in Ha. simpl in Ha, Hc.
  intros H.
  assert (Hn : n = length (h :: hs) /\ st' = shared p).
  { destruct (interrupt e); inversion H; auto. }
  destruct Hn as [-> ->]. simpl length. split; lia.
Qed.

(** * Further properties of the program *)

(** ** The output base name and the size of the range ([__init__]) *)

Lemma contains_char_cons c d s :
  PyStr.contains (String c EmptyString) (String d s) =
    if Ascii.eqb c d then true else PyStr.contains (String c EmptyString) s.
Proof.
  simpl. destruct (ascii_dec c d) as [-> | Hne].
  - rewrite Ascii.eqb_refl. destruct s; reflexivity.
  - apply Ascii.eqb_neq in Hne. rewrite Hne. reflexivity.
Qed.

Lemma contains_char_nil c : PyStr.contains (String c EmptyString) EmptyString = false.
Proof. reflexivity. Qed.

Lemma contains_char_app c s1 s2 :
  PyStr.contains (String c EmptyString) (s1 +:+ s2) =
    PyStr.contains (String c EmptyString) s1 || PyStr.contains (String c EmptyString) s2.
Proof.
  induction s1 as [|d s1 IH]; [reflexivity |].
  change (String d s1 +:+ s2) with (String d (s1 +:+ s2)).
  rewrite !contains_char_cons, IH. destruct (Ascii.eqb c d); reflexivity.
Qed.

(** A replaced character is gone, when it is not replaced by itself. *)
Lemma replace_char_removes a b s :
  a <> b -> PyStr.contains (String a EmptyString) (replace_char a b s) = false.
Proof.
  intros Hab. induction s as [|d s IH]; [reflexivity |].
  simpl replace_char. rewrite contains_char_cons, IH.
  destruct (Ascii.eqb d a) eqn:Hd.
  - apply Ascii.eqb_neq in Hab. rewrite Hab. reflexivity.
  - rewrite Ascii.eqb_sym, Hd. reflexivity.
Qed.

(** Replacing one character does not bring in another that was absent. *)
Lemma replace_char_keeps_absent c a b s :
  c <> b ->
  PyStr.contains (String c EmptyString) s = false ->
  PyStr.contains (String c EmptyString) (replace_char a b s) = false.
Proof.
  intros Hcb. induction s as [|d s IH]; [reflexivity |].
  simpl replace_char. rewrite !contains_char_cons.
  destruct (Ascii.eqb c d) eqn:Hcd; [discriminate |]. intros Hs.
  rewrite (IH Hs). destruct (Ascii.eqb d a).
  - apply Ascii.eqb_neq in Hcb. rewrite Hcb. reflexivity.
  - rewrite Hcd. reflexivity.
Qed.

(** X1.  Whatever the range specification is, the base name of the output
    files that the constructor derives from it contains neither a slash nor
    a dot: the three files are created in the current directory, and the
    only dot of their names is the one before the suffix. *)
Theorem output_base_has_no_separator (e : env) (range : string) (threads : Z) (d : pyfloat)
  (st st' : state) (s : scanner) :
  init e range threads d st = inr (s, st') ->
  PyStr.contains "/" (output_base s) = false
  /\ PyStr.contains "." (output_base s) = false.
Proof.
  unfold init. destruct (ipv4_parse e range) as [msg | [addr p]]; [discriminate |].
  intros H. injection H as <- _. cbn [output_base].
  split; rewrite contains_char_app, orb_false_iff; (split; [| reflexivity]).
  - apply replace_char_keeps_absent; [discriminate |].
    apply replace_char_removes. discriminate.
  - apply replace_char_removes. discriminate.
Qed.

Lemma output_base_has_no_separator_witness :
  PyStr.contains "/" (output_base sample_scanner) = false
  /\ PyStr.contains "." (output_base sample_scanner) = false.
Proof.
  apply (output_base_has_no_separator
           (sample_env sweep_two_hosts probe_one_open NoInterrupt)
           "192.168.1.0/30" 50 (1 # 10) (start_state ∅) (start_state ∅) sample_scanner).
  vm_compute. reflexivity.
Defined.

Lemma num_addresses_pow addr p :
  0 <= addr < 2 ^ 32 -> 0 <= p <= 32 ->
  IPv4.num_addresses (IPv4.make addr p) = 2 ^ (32 - p).
Proof.
  intros Ha Hp. unfold IPv4.num_addresses.
  rewrite (broadcast_eq _ (make_wf addr p Ha Hp)). simpl. lia.
Qed.

(** X2.  For a range that parses to a 32-bit address and a prefix length
    [p] between 0 and 32, the constructor sets the number of hosts to
    [2 ^ (32 - p)], and prints the large-range warning exactly when the
    prefix is shorter than 16 bits; in both cases it goes on. *)
Theorem init_counts_addresses (e : env) (range : string) (threads : Z) (d : pyfloat)
  (st : state) (addr p : Z) :
  ipv4_parse e range = inr (addr, p) ->
  0 <= addr < 2 ^ 32 -> 0 <= p <= 32 ->
  exists s st',
    init e range threads d st = inr (s, st')
    /\ total_hosts s = 2 ^ (32 - p)
    /\ (p < 16 ->
        st' = print ("Warning: Large range detected (" +:+ PyStr.str_Z (2 ^ (32 - p))
                     +:+ " hosts)") st)
    /\ (16 <= p -> st' = st).
Proof.
  intros Hparse Ha Hp. unfold init. rewrite Hparse.
  rewrite (num_addresses_pow addr p Ha Hp).
  eexists. eexists. split; [reflexivity |]. cbn [total_hosts].
  split; [reflexivity |].
  change 65536 with (2 ^ 16).
  split; intros Hlt.
  - replace (2 ^ 16 <? 2 ^ (32 - p)) with true; [reflexivity |].
    symmetry. apply Z.ltb_lt. apply Z.pow_lt_mono_r; lia.
  - replace (2 ^ 16 <? 2 ^ (32 - p)) with false; [reflexivity |].
    symmetry. apply Z.ltb_ge. apply Z.pow_le_mono_r; lia.
Qed.

Lemma init_counts_addresses_witness :
  exists s st',
    init (sample_env sweep_two_hosts probe_one_open NoInterrupt) "192.168.1.0/30" 50
      (1 # 10) (start_state ∅) = inr (s, st')
    /\ total_hosts s = 4.
Proof.
  destruct (init_counts_addresses
              (sample_env sweep_two_hosts probe_one_open NoInterrupt) "192.168.1.0/30" 50
              (1 # 10) (start_state ∅) 3232235776 30 eq_refl ltac:(lia) ltac:(lia))
    as (s & st' & Hi & Ht & _).
  exists s, st'. split; [exact Hi | exact Ht].
Defined.

(** ** Rejected command lines ([main]) *)

(** X3.  A thread count below 1 or above 200 ends the process with code 1
    right after the banner, with the thread-count message, even when the
    range is invalid too; with a valid thread count, a range that does not
    parse ends it with code 1 and the range message.  In both cases nothing
    was launched and the files are what they were. *)
Theorem invalid_command_line_exits_early (e : env) (a : args) (sched : list nat)
  (fs : gmap string string) :
  (arg_threads a < 1 \/ 200 < arg_threads a ->
   main e a sched fs =
     (1, print "Error: Thread count must be between 1 and 200"
           (print banner (start_state fs))))
  /\ (forall msg, 1 <= arg_threads a <= 200 ->
                  ipv4_parse e (arg_range a) = inl msg ->
                  main e a sched fs =
                    (1, print ("Error: Invalid network range - " +:+ msg)
                          (print banner (start_state fs)))).
Proof.
  split.
  - intros Ht. unfold main, setup.
    replace ((arg_threads a <? 1) || (200 <? arg_threads a)) with true; [reflexivity |].
    symmetry. apply orb_true_iff.
    destruct Ht as [Ht | Ht]; [left | right]; apply Z.ltb_lt; exact Ht.
  - intros msg Ht Hparse. unfold main, setup, init.
    replace ((arg_threads a <? 1) || (200 <? arg_threads a)) with false.
    + rewrite Hparse. reflexivity.
    + symmetry. apply orb_false_iff. split; apply Z.ltb_ge; lia.
Qed.

Lemma invalid_command_line_exits_early_witness :
  fst (main (sample_env sweep_two_hosts probe_one_open NoInterrupt)
         {| arg_range := "192.168.1.0/30"; arg_threads := 500; arg_delay := 1 # 10 |}
         [] ∅) = 1
  /\ files (snd (main (sample_env sweep_two_hosts probe_one_open NoInterrupt)
                   {| arg_range := "192.168.1.0/30"; arg_threads := 0;
                      arg_delay := 1 # 10 |} [] ∅)) = ∅.
Proof.
  split.
  - rewrite (proj1 (invalid_command_line_exits_early
                      (sample_env sweep_two_hosts probe_one_open NoInterrupt)
                      {| arg_range := "192.168.1.0/30"; arg_threads := 500;
                         arg_delay := 1 # 10 |} [] ∅)); [reflexivity |].
    right. simpl. lia.
  - rewrite (proj1 (invalid_command_line_exits_early
                      (sample_env sweep_two_hosts probe_one_open NoInterrupt)
                      {| arg_range := "192.168.1.0/30"; arg_threads := 0;
                         arg_delay := 1 # 10 |} [] ∅)); [reflexivity |].
    left. simpl. lia.
Defined.

(** ** What [save_results] writes, and what it leaves alone *)

Lemma write_all_other e todo st name :
  ~ In name (map fst todo) ->
  files (snd (write_all e todo st)) !! name = files st !! name.
Proof.
  revert st. induction todo as [|[n c] todo IH]; intros st Hnot; simpl; [reflexivity |].
  destruct (open_error e n); [reflexivity |].
  rewrite IH by (intros Hin; apply Hnot; right; exact Hin).
  simpl. apply lookup_insert_ne. intros ->. apply Hnot. left. reflexivity.
Qed.

Lemma write_all_counters e todo st :
  active_scans (snd (write_all e todo st)) = active_scans st
  /\ completed_scans (snd (write_all e todo st)) = completed_scans st.
Proof.
  revert st. induction todo as [|[n c] todo IH]; intros st; simpl; [auto |].
  destruct (open_error e n); [auto |].
  destruct (IH (write_file n c st)) as [-> ->]. auto.
Qed.

Lemma save_results_counters e s st :
  active_scans (save_results e s st) = active_scans st
  /\ completed_scans (save_results e s st) = completed_scans st.
Proof.
  unfold save_results. rewrite drain_spec. cbn [app print emit results_queue].
  destruct (results_queue st) as [|r q]; [auto |].
  match goal with
  | |- context [write_all e ?todo ?st0] =>
      pose proof (write_all_counters e todo st0) as Hw;
      destruct (write_all e todo st0) as [[msg|] st3]
  end; simpl in *; exact Hw.
Qed.

(** X4.  Whatever the queue holds and whether or not the writes succeed,
    [save_results] touches no file other than the three named after the
    output base, and does not move the counters. *)
Theorem save_results_touches_only_its_files (e : env) (s : scanner) (st : state)
  (name : string) :
  name <> output_base s +:+ ".xml" ->
  name <> output_base s +:+ ".nmap" ->
  name <> output_base s +:+ ".gnmap" ->
  files (save_results e s st) !! name = files st !! name
  /\ active_scans (save_results e s st) = active_scans st
  /\ completed_scans (save_results e s st) = completed_scans st.
Proof.
  intros H1 H2 H3. split; [| apply save_results_counters].
  unfold save_results. rewrite drain_spec. cbn [app print emit results_queue].
  destruct (results_queue st) as [|r q]; [reflexivity |].
  match goal with
  | |- context [write_all e ?todo ?st0] =>
      pose proof (write_all_other e todo st0 name) as Hw;
      destruct (write_all e todo st0) as [[msg|] st3]
  end; simpl in *; apply Hw; intros [H | [H | [H | []]]]; congruence.
Qed.

Lemma save_results_touches_only_its_files_witness :
  let e := sample_env sweep_two_hosts probe_one_open NoInterrupt in
  let st := queue_put ("192.168.1.1", http_output) (start_state {["notes.txt" := "keep"]}) in
  files (save_results e sample_scanner st) !! "notes.txt" = Some "keep".
Proof.
  cbv zeta.
  destruct (save_results_touches_only_its_files
              (sample_env sweep_two_hosts probe_one_open NoInterrupt) sample_scanner
              (queue_put ("192.168.1.1", http_output) (start_state {["notes.txt" := "keep"]}))
              "notes.txt" ltac:(discriminate) ltac:(discriminate) ltac:(discriminate))
    as [H _].
  rewrite H. reflexivity.
Defined.

(** X5.  The queue is drained before anything is written, and a failed
    write is only reported.  So when the first file cannot be opened, no
    file changes, the error message is printed, and the results are gone
    from the queue; when the first is written and the second cannot be
    opened, the structured-markup file is there and the grep-friendly file
    is not written. *)
Theorem save_results_write_failure (e : env) (s : scanner) (st : state) (msg : string) :
  results_queue st <> [] ->
  (open_error e (output_base s +:+ ".xml") = Some msg ->
   files (save_results e s st) = files st
   /\ results_queue (save_results e s st) = []
   /\ trace (save_results e s st) =
        trace st ++ [EvPrint ("[*] Saving results to " +:+ output_base s +:+ ".*");
                     EvPrint ("[-] Error saving results: " +:+ msg)])
  /\ (open_error e (output_base s +:+ ".xml") = None ->
      open_error e (output_base s +:+ ".nmap") = Some msg ->
      files (save_results e s st) =
        <[output_base s +:+ ".xml" := xml_text (results_queue st)]> (files st)
      /\ results_queue (save_results e s st) = []
      /\ trace (save_results e s st) =
           trace st ++ [EvPrint ("[*] Saving results to " +:+ output_base s +:+ ".*");
                        EvPrint ("[-] Error saving results: " +:+ msg)]).
Proof.
  intros Hq. split.
  - intros Hx. unfold save_results. rewrite drain_spec. cbn [app print emit results_queue].
    destruct (results_queue st) as [|r q]; [congruence |].
    cbn [write_all]. rewrite Hx. simpl. rewrite <- app_assoc. auto.
  - intros Hx Hn. unfold save_results. rewrite drain_spec.
    cbn [app print emit results_queue].
    destruct (results_queue st) as [|r q]; [congruence |].
    cbn [write_all]. rewrite Hx, Hn. simpl. rewrite <- app_assoc. auto.
Qed.

Lemma save_results_write_failure_witness :
  let st := queue_put ("192.168.1.1", http_output) (start_state ∅) in
  files (save_results env_readonly sample_scanner st) = ∅
  /\ results_queue (save_results env_readonly sample_scanner st) = [].
Proof.
  cbv zeta.
  destruct (save_results_write_failure env_readonly sample_scanner
              (queue_put ("192.168.1.1", http_output) (start_state ∅))
              "[Errno 13] Permission denied" ltac:(discriminate)) as [H _].
  destruct (H eq_refl) as (Hf & Hq & _). split; [exact Hf | exact Hq].
Defined.

(** ** [main] after the scans *)

Lemma main_after_join e a sched fs s st :
  setup e a fs = inr (s, st) ->
  forall st1,
    (forall n, run_scan_to_join e s sched st = (Return (Some n), st1) ->
               fst (main e a sched fs) = 0
               /\ same_store (save_results e s st1) (snd (main e a sched fs)))
    /\ (run_scan_to_join e s sched st = (Raise KeyboardInterrupt, st1) ->
        fst (main e a sched fs) = 1
        /\ snd (main e a sched fs)
           = save_results e s
               (print "[*] Saving partial results..."
                  (print (PyStr.NL +:+ "[!] Scan interrupted by user") st1))).
Proof.
  intros Hsetup st1. unfold main, run_scan. rewrite Hsetup. split.
  - intros n ->. cbn [fst snd]. split; [reflexivity |]. repeat split.
  - intros ->. cbn [fst snd]. split; reflexivity.
Qed.

(** ** The results a finished pool has collected *)

Lemma list_sum_insert (f : phase -> nat) (l : list phase) i x y :
  l !! i = Some x ->
  (list_sum (map f (<[i := y]> l)) + f x = list_sum (map f l) + f y)%nat.
Proof.
  revert i. induction l as [|a l IH]; intros [|i] H; simpl in *; try discriminate.
  - injection H as ->. lia.
  - specialize (IH i H). lia.
Qed.

Lemma count_flat_map {A : Type} (f : A -> list (string * string)) (l : list A) r :
  count_occ result_eq_dec (flat_map f l) r
  = list_sum (map (fun x => count_occ result_eq_dec (f x) r) l).
Proof.
  induction l as [|a l IH]; simpl; [reflexivity |].
  rewrite count_occ_app, IH. reflexivity.
Qed.

Lemma classify_queue e h st :
  results_queue (snd (classify e h st)) = results_queue st ++ result_of e h.
Proof.
  destruct (classify_store e h st) as (_ & _ & _ & Hq). rewrite Hq. unfold result_of.
  destruct (nmap_probe e h) as [rc out| m | m | m]; try (now rewrite app_nil_r).
  destruct (open_indication rc out); [reflexivity | now rewrite app_nil_r].
Qed.

(** A step of a busy thread moves its result from owed to queued, or
    changes neither. *)
Lemma worker_step_results e s n ph st r :
  ph <> Idle ->
  (count_occ result_eq_dec (results_queue (snd (worker_step e s n ph st))) r
   + count_occ result_eq_dec (owed e (fst (worker_step e s n ph st))) r
   = count_occ result_eq_dec (results_queue st) r
     + count_occ result_eq_dec (owed e ph) r)%nat.
Proof.
  intros Hne. destruct ph as [|h|h|h|h|h]; [congruence | | | | |]; simpl;
    try reflexivity.
  - pose proof (classify_queue e h st) as Hq.
    destruct (classify e h st) as [[|] st1]; simpl in *;
      rewrite Hq, count_occ_app; simpl; lia.
  - destruct (do_sleep_same_store e s h st) as (_ & _ & Hq & _). rewrite Hq. reflexivity.
Qed.

Lemma step_results_balance e s n r p p' :
  step e s n p p' -> results_balance e r p' = results_balance e r p.
Proof.
  intros [i Hs]. unfold results_balance.
  apply pool_step_inv in Hs as (ph & Hph & [(-> & h & rest & Hp & ->) | (Hne & ->)]);
    cbn [pending workers shared].
  - rewrite Hp.
    pose proof (list_sum_insert (fun ph => count_occ result_eq_dec (owed e ph) r)
                  _ _ _ (Claimed h) Hph) as Hi.
    simpl in *. lia.
  - pose proof (list_sum_insert (fun ph => count_occ result_eq_dec (owed e ph) r)
                  _ _ _ (fst (worker_step e s n ph (shared p))) Hph) as Hi.
    pose proof (worker_step_results e s n ph (shared p) r Hne) as Hw.
    cbv beta in Hi. lia.
Qed.

Lemma reachable_results_balance e s n r p p' :
  reachable e s n p p' -> results_balance e r p' = results_balance e r p.
Proof.
  intros Hr. induction Hr as [|p1 p2 p3 H12 _ IH]; [reflexivity |].
  rewrite IH. eapply step_results_balance; eauto.
Qed.

Lemma idle_owe_nothing e r (l : list phase) :
  forallb is_idle l = true ->
  list_sum (map (fun ph => count_occ result_eq_dec (owed e ph) r) l) = 0%nat.
Proof.
  induction l as [|a l IH]; simpl; [reflexivity |].
  intros H. apply andb_true_iff in H as [Ha Hl].
  destruct a; try discriminate. simpl. auto.
Qed.

Lemma finished_queue e s n threads hosts st p0 p :
  init_pool threads hosts st = Some p0 ->
  reachable e s n p0 p -> finished p = true ->
  Permutation (results_queue (shared p)) (results_queue st ++ flat_map (result_of e) hosts).
Proof.
  intros Hinit Hr Hf. apply (Permutation_count_occ result_eq_dec). intros r.
  pose proof (reachable_results_balance e s n r _ _ Hr) as Hb.
  unfold init_pool in Hinit. destruct (_ <=? 0); [discriminate |].
  injection Hinit as <-. unfold results_balance in Hb. cbn [pending workers shared] in Hb.
  unfold finished in Hf. destruct (pending p); [| discriminate].
  rewrite (idle_owe_nothing e r _ Hf) in Hb.
  rewrite (idle_owe_nothing e r (replicate _ Idle)) in Hb.
  - rewrite count_occ_app, count_flat_map. simpl in Hb. lia.
  - clear. induction (Z.to_nat _) as [|k IH]; simpl; auto.
Qed.

(** X7.  Under every scheduler, when the pool has finished the queue holds
    exactly the results of the dispatched hosts whose probe returned status 0
    with an open indication, each as often as its host was dispatched and in
    some order, after what the queue held before: no result is lost and none
    is doubled, whatever the interleaving of the threads. *)
Theorem finished_pool_holds_every_result (e : env) (s : scanner) (n : nat) (threads : Z)
  (hosts : list string) (st : state) (p0 : pool) :
  init_pool threads hosts st = Some p0 ->
  (forall p, reachable e s n p0 p -> finished p = true ->
             Permutation (results_queue (shared p))
               (results_queue st ++ flat_map (result_of e) hosts))
  /\ (forall sched,
         Permutation (results_queue (shared (run_pool e s n sched p0)))
           (results_queue st ++ flat_map (result_of e) hosts)).
Proof.
  intros Hinit. split.
  - intros p Hr Hf. eapply finished_queue; eauto.
  - intros sched. eapply finished_queue; eauto using run_pool_reachable.
    apply run_pool_finished.
    destruct (init_pool_accounts _ _ _ _ Hinit) as [[Hw _ _] Hmin]. rewrite Hw. lia.
Qed.

Lemma finished_pool_holds_every_result_witness :
  let e := sample_env sweep_two_hosts probe_one_open NoInterrupt in
  Permutation
    (results_queue (shared (run_pool e sample_scanner 2 [1; 0; 1; 1; 0]%nat sample_pool)))
    [("192.168.1.1", http_output)].
Proof.
  cbv zeta.
  destruct (finished_pool_holds_every_result
              (sample_env sweep_two_hosts probe_one_open NoInterrupt) sample_scanner 2 50
              ["192.168.1.1"; "192.168.1.2"] (start_state ∅) sample_pool eq_refl)
    as [_ H].
  exact (H [1; 0; 1; 1; 0]%nat).
Defined.

(** ** A pool of one thread *)

Lemma worker_step_rest_of_task e s n ph st :
  ph <> Idle ->
  rest_of_task e s n (fst (worker_step e s n ph st)) (snd (worker_step e s n ph st))
  = rest_of_task e s n ph st.
Proof.
  intros Hne. destruct ph as [|h|h|h|h|h]; [congruence | | | | |]; simpl;
    try reflexivity.
  unfold after_probe. destruct (classify e h st) as [[|] st1]; reflexivity.
Qed.

Lemma single_thread_step e s n p p' ph final :
  step e s n p p' ->
  workers p = [ph] ->
  fold_left (fun st h => scan_host e s n h st) (pending p)
    (rest_of_task e s n ph (shared p)) = final ->
  exists ph', workers p' = [ph']
              /\ fold_left (fun st h => scan_host e s n h st) (pending p')
                   (rest_of_task e s n ph' (shared p')) = final.
Proof.
  intros [i Hs] Hw Hfold.
  apply pool_step_inv in Hs as (ph0 & Hph & Hcase).
  rewrite Hw in Hph. destruct i as [|i]; [| discriminate]. injection Hph as <-.
  destruct Hcase as [(-> & h & rest & Hp & ->) | (Hne & ->)]; cbn [pending workers shared].
  - exists (Claimed h). rewrite Hw. split; [reflexivity |].
    rewrite Hp in Hfold. exact Hfold.
  - eexists. rewrite Hw. split; [reflexivity |].
    rewrite worker_step_rest_of_task by exact Hne. exact Hfold.
Qed.

Lemma fold_scan_host_queue e s n hosts st :
  results_queue (fold_left (fun st h => scan_host e s n h st) hosts st)
  = results_queue st ++ flat_map (result_of e) hosts.
Proof.
  revert st. induction hosts as [|h hosts IH]; intros st; simpl.
  - now rewrite app_nil_r.
  - rewrite IH, scan_host_queue, app_assoc. f_equal. unfold result_of.
    destruct (nmap_probe e h) as [rc out| m | m | m]; try (now rewrite app_nil_r).
    destruct (open_indication rc out); [reflexivity | now rewrite app_nil_r].
Qed.

Lemma single_thread_reachable e s n p p' ph final :
  reachable e s n p p' ->
  workers p = [ph] ->
  fold_left (fun st h => scan_host e s n h st) (pending p)
    (rest_of_task e s n ph (shared p)) = final ->
  exists ph', workers p' = [ph']
              /\ fold_left (fun st h => scan_host e s n h st) (pending p')
                   (rest_of_task e s n ph' (shared p')) = final.
Proof.
  intros Hr. revert ph. induction Hr as [p1 | p1 p2 p3 H12 _ IH]; intros ph Hw Hfold.
  - eauto.
  - destruct (single_thread_step _ _ _ _ _ _ _ H12 Hw Hfold) as (ph2 & Hw2 & Hfold2).
    eapply IH; eauto.
Qed.

(** X8.  When the pool has one thread (a limit of 1, or a single host), the
    scan is sequential: whatever the scheduler does, the finished pool is in
    the state that calling [scan_host] on the hosts one after the other, in
    the order of discovery, leaves; so the results are queued in that order. *)
Theorem single_thread_pool_is_sequential (e : env) (s : scanner) (n : nat) (threads : Z)
  (hosts : list string) (st : state) (p0 p : pool) :
  Z.min threads (Z.of_nat (length hosts)) = 1 ->
  init_pool threads hosts st = Some p0 ->
  reachable e s n p0 p ->
  finished p = true ->
  shared p = fold_left (fun st h => scan_host e s n h st) hosts st
  /\ results_queue (shared p) = results_queue st ++ flat_map (result_of e) hosts.
Proof.
  intros Hmin Hinit Hr Hf.
  assert (Hinv : exists ph, workers p = [ph]
                 /\ fold_left (fun st h => scan_host e s n h st) (pending p)
                      (rest_of_task e s n ph (shared p))
                    = fold_left (fun st h => scan_host e s n h st) hosts st).
  { unfold init_pool in Hinit. rewrite Hmin in Hinit. simpl in Hinit.
    injection Hinit as <-.
    eapply single_thread_reachable; [exact Hr | reflexivity | reflexivity]. }
  destruct Hinv as (ph & Hw & Hfold).
  unfold finished in Hf. destruct (pending p); [| discriminate].
  rewrite Hw in Hf. simpl in Hf. destruct ph; try discriminate.
  simpl in Hfold. split; [exact Hfold |].
  rewrite Hfold. apply fold_scan_host_queue.
Qed.

Lemma single_thread_pool_is_sequential_witness :
  let e := sample_env sweep_two_hosts probe_one_open NoInterrupt in
  let p0 := {| pending := ["192.168.1.1"; "192.168.1.2"]; workers := [Idle];
               shared := start_state ∅ |} in
  shared (run_pool e sample_scanner 2 [] p0)
  = scan_host e sample_scanner 2 "192.168.1.2"
      (scan_host e sample_scanner 2 "192.168.1.1" (start_state ∅)).
Proof.
  cbv zeta.
  apply (single_thread_pool_is_sequential
           (sample_env sweep_two_hosts probe_one_open NoInterrupt) sample_scanner 2 1
           ["192.168.1.1"; "192.168.1.2"] (start_state ∅)
           {| pending := ["192.168.1.1"; "192.168.1.2"]; workers := [Idle];
              shared := start_state ∅ |}
           _ eq_refl eq_refl (run_pool_reachable _ _ _ _ _)).
  apply run_pool_finished. simpl. lia.
Defined.

(** ** The progress line and the size of the pool *)

Lemma filter_length_pos (f : phase -> bool) (l : list phase) i x :
  l !! i = Some x -> f x = true -> (1 <= length (List.filter f l))%nat.
Proof.
  revert i. induction l as [|a l IH]; intros [|i] H Hf; simpl in *; try discriminate.
  - injection H as ->. rewrite Hf. simpl. lia.
  - specialize (IH i H Hf). destruct (f a); simpl; lia.
Qed.

(** X9.  The progress line never counts past the total: when a thread is
    about to print "Scanning h (k/n)" in a run that started with the
    completed counter at 0 and [n] the number of hosts, [k] -- the completed
    counter plus one, read without the lock -- lies between 1 and [n],
    whatever the other threads have done so far. *)
Theorem progress_line_within_total (e : env) (s : scanner) (threads : Z)
  (hosts : list string) (st : state) (p0 p : pool) (i : nat) (h : string) :
  init_pool threads hosts st = Some p0 ->
  completed_scans st = 0 ->
  reachable e s (length hosts) p0 p ->
  workers p !! i = Some (Started h) ->
  1 <= completed_scans (shared p) + 1 <= Z.of_nat (length hosts)
  /\ exists p', pool_step e s (length hosts) i p = Some p'
                /\ trace (shared p') =
                     trace (shared p)
                     ++ [EvPrint ("[*] Scanning " +:+ h +:+ " ("
                                  +:+ PyStr.str_Z (completed_scans (shared p) + 1) +:+ "/"
                                  +:+ PyStr.str_Z (Z.of_nat (length hosts)) +:+ ")");
                         EvRun (probe_cmd h)].
Proof.
  intros Hinit H0 Hr Hw.
  destruct (init_pool_accounts _ _ _ _ Hinit) as [Hacc _].
  destruct (reachable_accounts _ _ _ _ _ _ _ _ _ Hr Hacc) as [_ _ Hc].
  pose proof (reachable_completed_mono _ _ _ _ _ Hr) as Hm.
  replace (shared p0) with st in Hm
    by (unfold init_pool in Hinit; destruct (_ <=? 0); [discriminate |];
        injection Hinit as <-; reflexivity).
  pose proof (filter_length_pos is_busy _ _ _ Hw eq_refl) as Hb.
  unfold count_phase in Hc. split; [lia |].
  unfold pool_step. rewrite Hw. simpl. eexists. split; [reflexivity |].
  simpl. rewrite <- app_assoc. reflexivity.
Qed.

Lemma progress_line_within_total_witness :
  let e := sample_env sweep_two_hosts probe_one_open NoInterrupt in
  let p := run_sched e sample_scanner 2 [0; 0; 0; 0; 0; 0; 1; 1]%nat sample_pool in
  workers p !! 1%nat = Some (Started "192.168.1.2")
  /\ 1 <= completed_scans (shared p) + 1 <= 2.
Proof.
  cbv zeta. split; [reflexivity |].
  apply (progress_line_within_total
           (sample_env sweep_two_hosts probe_one_open NoInterrupt) sample_scanner 50
           ["192.168.1.1"; "192.168.1.2"] (start_state ∅) sample_pool
           (run_sched (sample_env sweep_two_hosts probe_one_open NoInterrupt)
              sample_scanner 2 [0; 0; 0; 0; 0; 0; 1; 1]%nat sample_pool)
           1%nat "192.168.1.2"
           eq_refl eq_refl (run_sched_reachable _ _ _ _ _) eq_refl).
Defined.

(** X10.  In a run started by [main], the pool has at least one and at
    most 200 threads, so at no point of the scans are more than 200 probes
    running or counted as active, however long the host list is. *)
Theorem main_scans_at_most_200_at_once (e : env) (a : args) (fs : gmap string string)
  (s : scanner) (st0 st : state) (n : nat) (hosts : list string) (p0 p : pool) :
  setup e a fs = inr (s, st0) ->
  init_pool (max_threads s) hosts st = Some p0 ->
  active_scans st = 0 ->
  reachable e s n p0 p ->
  (1 <= length (workers p) <= 200)%nat
  /\ probes_running p <= 200
  /\ active_scans (shared p) <= 200.
Proof.
  intros Hsetup Hinit H0 Hr.
  pose proof (setup_threads _ _ _ _ _ Hsetup) as Ht.
  destruct (init_pool_accounts _ _ _ _ Hinit) as [Hacc Hmin].
  destruct (reachable_accounts _ _ _ _ _ _ _ _ _ Hr Hacc) as [Hw Ha _].
  pose proof (filter_length_le is_active (workers p)) as Hla.
  pose proof (filter_length_le is_probing (workers p)) as Hlp.
  unfold probes_running, count_phase in *. lia.
Qed.

Lemma main_scans_at_most_200_at_once_witness :
  let e := sample_env sweep_two_hosts probe_one_open NoInterrupt in
  let p := run_sched e sample_scanner 2 [0; 1; 0; 1; 0; 1]%nat sample_pool in
  probes_running p <= 200 /\ active_scans (shared p) <= 200.
Proof.
  cbv zeta.
  pose (e := sample_env sweep_two_hosts probe_one_open NoInterrupt).
  pose (st0 := match setup e sample_args ∅ with inl st => st | inr (_, st) => st end).
  assert (H1 : setup e sample_args ∅ = inr (sample_scanner, st0))
    by (vm_compute; reflexivity).
  destruct (main_scans_at_most_200_at_once e sample_args ∅ sample_scanner st0
              (start_state ∅) 2 ["192.168.1.1"; "192.168.1.2"] sample_pool
              (run_sched e sample_scanner 2 [0; 1; 0; 1; 0; 1]%nat sample_pool)
              H1 eq_refl eq_refl (run_sched_reachable _ _ _ _ _)) as (_ & Hp & Ha).
  split; [exact Hp | exact Ha].
Defined.

(** ** The tokens the patterns pick *)

Lemma match_here_digits_nil p : Re.match_here (Re.Digits1 :: p) EmptyString = None.
Proof. reflexivity. Qed.

Lemma match_here_digits_cons p d s :
  Re.match_here (Re.Digits1 :: p) (String d s) =
    if Re.isdigit d then
      match Re.match_here (Re.Digits1 :: p) s with
      | Some r => Some (String d r)
      | None => option_map (String d) (Re.match_here p s)
      end
    else None.
Proof. reflexivity. Qed.

Lemma match_here_lit_cons c p d s :
  Re.match_here (Re.Lit c :: p) (String d s) =
    if Ascii.eqb d c then option_map (String d) (Re.match_here p s) else None.
Proof. reflexivity. Qed.

Lemma all_chars_mono (f g : ascii -> bool) s :
  (forall c, f c = true -> g c = true) -> all_chars f s = true -> all_chars g s = true.
Proof.
  intros Hfg. induction s as [|c s IH]; simpl; [auto |].
  rewrite !andb_true_iff. intros [Hc Hs]. auto.
Qed.

Lemma allowed_cons a p c : allowed p c = true -> allowed (a :: p) c = true.
Proof.
  unfold allowed. rewrite !orb_true_iff. intros [H | H]; [auto |].
  right. simpl. rewrite H. apply orb_true_r.
Qed.

(** A match is made of digits and of the literal characters of the pattern,
    and it is the beginning of the text it was matched against. *)
Lemma match_here_spec p s r :
  Re.match_here p s = Some r ->
  all_chars (allowed p) r = true /\ String.prefix r s = true.
Proof.
  revert s r. induction p as [|a p IH]; intros s r H.
  - simpl in H. injection H as <-. split; [reflexivity | destruct s; reflexivity].
  - destruct a as [c |].
    + destruct s as [|d s]; [discriminate |].
      rewrite match_here_lit_cons in H.
      destruct (Ascii.eqb d c) eqn:Hd; [| discriminate].
      destruct (Re.match_here p s) as [r' |] eqn:Hm; [| discriminate].
      injection H as <-. destruct (IH _ _ Hm) as [Hc Hp]. split.
      * simpl. apply andb_true_iff. split.
        -- unfold allowed. simpl. rewrite Hd. rewrite orb_true_r. reflexivity.
        -- eapply all_chars_mono; [apply allowed_cons | exact Hc].
      * simpl. destruct (ascii_dec d d); [exact Hp | congruence].
    + revert r H. induction s as [|d s IHs]; intros r H; [discriminate |].
      rewrite match_here_digits_cons in H.
      destruct (Re.isdigit d) eqn:Hd; [| discriminate].
      assert (Hdc : allowed (Re.Digits1 :: p) d = true)
        by (unfold allowed; rewrite Hd; reflexivity).
      destruct (Re.match_here (Re.Digits1 :: p) s) as [r1 |] eqn:Hm1.
      * injection H as <-. destruct (IHs r1 eq_refl) as [Hc Hp]. split.
        -- simpl. rewrite Hdc, Hc. reflexivity.
        -- simpl. destruct (ascii_dec d d); [exact Hp | congruence].
      * destruct (Re.match_here p s) as [r' |] eqn:Hm; [| discriminate].
        injection H as <-. destruct (IH _ _ Hm) as [Hc Hp]. split.
        -- simpl. rewrite Hdc. simpl.
           eapply all_chars_mono; [apply allowed_cons | exact Hc].
        -- simpl. destruct (ascii_dec d d); [exact Hp | congruence].
Qed.

(** A pattern that begins with [\d+] matches a text that begins with a digit. *)
Lemma match_here_digit_first p s r :
  Re.match_here (Re.Digits1 :: p) s = Some r ->
  exists d r', r = String d r' /\ Re.isdigit d = true.
Proof.
  destruct s as [|d s]; [discriminate |]. rewrite match_here_digits_cons.
  destruct (Re.isdigit d) eqn:Hd; [| discriminate].
  destruct (Re.match_here (Re.Digits1 :: p) s) as [r1 |].
  - intros H. injection H as <-. eauto.
  - destruct (Re.match_here p s) as [r' |]; [| discriminate].
    intros H. injection H as <-. eauto.
Qed.

Lemma contains_prefix sub s : String.prefix sub s = true -> PyStr.contains sub s = true.
Proof. intros H. destruct s; simpl in *; rewrite H; reflexivity. Qed.

Lemma contains_tail sub c s :
  PyStr.contains sub s = true -> PyStr.contains sub (String c s) = true.
Proof.
  intros H. change (PyStr.contains sub (String c s))
    with (if String.prefix sub (String c s) then true else PyStr.contains sub s).
  rewrite H. destruct (String.prefix sub (String c s)); reflexivity.
Qed.

(** The match of a search starts somewhere in the text. *)
Lemma re_search_spec p s r :
  Re.re_search p s = Some r ->
  PyStr.contains r s = true /\ exists s', Re.match_here p s' = Some r.
Proof.
  induction s as [|c s IH]; intros H; cbn [Re.re_search] in H.
  - destruct (Re.match_here p EmptyString) as [r0 |] eqn:Hm; [| discriminate].
    injection H as <-. split; [| eauto].
    apply contains_prefix. apply (match_here_spec _ _ _ Hm).
  - destruct (Re.match_here p (String c s)) as [r0 |] eqn:Hm.
    + injection H as <-. split; [| eauto].
      apply contains_prefix. apply (match_here_spec _ _ _ Hm).
    + destruct (IH H) as [Hc Hs]. split; [| exact Hs].
      apply contains_tail. exact Hc.
Qed.

Lemma parse_sweep_in stdout ip :
  In ip (parse_sweep stdout) ->
  exists line, In line (PyStr.lines stdout)
               /\ PyStr.contains "Nmap scan report for" line = true
               /\ Re.re_search Re.ip_pattern line = Some ip.
Proof.
  unfold parse_sweep. rewrite (fold_sweep_line _ []). simpl.
  rewrite in_flat_map. intros (line & Hin & Hip). exists line. split; [exact Hin |].
  unfold sweep_line in Hip.
  destruct (PyStr.contains "Nmap scan report for" line); [| destruct Hip].
  destruct (Re.re_search Re.ip_pattern line) as [ip' |]; [| destruct Hip].
  destruct Hip as [<- | []]. auto.
Qed.

(** X11.  Every host the sweep stage returns from the tool's output is a
    token of that output: it occurs in a line that carries the report marker,
    it begins with a digit, and it consists of digits and dots only.  So a
    host handed on to the detailed probe is never empty and never begins with
    a dash. *)
Theorem swept_hosts_are_numeric_tokens (e : env) (s : scanner) (st : state) (rc : Z)
  (stdout : string) (hosts : list string) (ip : string) :
  nmap_sweep e (target_range s) = Completed rc stdout ->
  fst (ping_sweep e s st) = Return hosts ->
  In ip hosts ->
  (exists line, In line (PyStr.lines stdout)
                /\ PyStr.contains "Nmap scan report for" line = true
                /\ PyStr.contains ip line = true)
  /\ (exists d rest, ip = String d rest /\ Re.isdigit d = true)
  /\ all_chars (fun c => Re.isdigit c || Ascii.eqb c ".") ip = true.
Proof.
  intros Hs Hp Hin.
  assert (Hh : hosts = parse_sweep stdout).
  { unfold ping_sweep in Hp. rewrite Hs in Hp.
    destruct (interrupt e); simpl in Hp; congruence. }
  subst hosts. apply parse_sweep_in in Hin as (line & Hl & Hm & Hr).
  destruct (re_search_spec _ _ _ Hr) as [Hc [s' Hs']].
  split; [exists line; auto |]. split.
  - exact (match_here_digit_first _ _ _ Hs').
  - destruct (match_here_spec _ _ _ Hs') as [Ha _].
    eapply all_chars_mono; [| exact Ha].
    intros c. unfold allowed, Re.ip_pattern. simpl.
    destruct (Re.isdigit c), (Ascii.eqb c "."); auto.
Qed.

Lemma swept_hosts_are_numeric_tokens_witness :
  all_chars (fun c => Re.isdigit c || Ascii.eqb c ".") "192.168.1.2" = true.
Proof.
  destruct (swept_hosts_are_numeric_tokens
              (sample_env sweep_two_hosts probe_all_closed NoInterrupt) sample_scanner
              (start_state ∅) 0
              ("Starting Nmap" +:+ PyStr.NL +:+
               "Nmap scan report for 192.168.1.1" +:+ PyStr.NL +:+
               "Host is up (0.0010s latency)." +:+ PyStr.NL +:+
               "Nmap scan report for gw.lan (192.168.1.2)" +:+ PyStr.NL +:+
               "Host is up (0.0020s latency).")
              ["192.168.1.1"; "192.168.1.2"] "192.168.1.2"
              eq_refl eq_refl (or_intror (or_introl eq_refl))) as (_ & _ & H).
  exact H.
Defined.

Lemma match_lits_exact cs s r :
  Re.match_here (map Re.Lit cs) s = Some r -> r = string_of_list_ascii cs.
Proof.
  revert s r. induction cs as [|c cs IH]; intros s r H; simpl in *.
  - injection H as <-. reflexivity.
  - destruct s as [|d s]; [discriminate |].
    destruct (Ascii.eqb d c) eqn:Hd; [| discriminate].
    apply Ascii.eqb_eq in Hd. subst d.
    destruct (Re.match_here (map Re.Lit cs) s) as [r' |] eqn:Hm; [| discriminate].
    injection H as <-. rewrite (IH _ _ Hm). reflexivity.
Qed.

(** What [r'(\d+/tcp)'] matches: a run of digits followed by "/tcp". *)
Lemma match_port_shape s r :
  Re.match_here Re.port_pattern s = Some r ->
  exists ds, r = ds +:+ "/tcp" /\ ds <> EmptyString /\ all_chars Re.isdigit ds = true.
Proof.
  unfold Re.port_pattern. revert r. induction s as [|d s IH]; intros r H; [discriminate |].
  rewrite match_here_digits_cons in H.
  destruct (Re.isdigit d) eqn:Hd; [| discriminate].
  destruct (Re.match_here (Re.Digits1 :: _) s) as [r1 |] eqn:Hm1.
  - injection H as <-. destruct (IH r1 eq_refl) as (ds & -> & Hne & Hds).
    exists (String d ds). split; [reflexivity |]. split; [discriminate |].
    simpl. rewrite Hd, Hds. reflexivity.
  - destruct (Re.match_here [Re.Lit "/"; Re.Lit "t"; Re.Lit "c"; Re.Lit "p"]%char s)
      as [r' |] eqn:Hm; [| discriminate].
    injection H as <-.
    apply (match_lits_exact ["/"; "t"; "c"; "p"]%char) in Hm. subst r'.
    exists (String d EmptyString). split; [reflexivity |]. split; [discriminate |].
    simpl. rewrite Hd. reflexivity.
Qed.

Lemma gnmap_ports_in ls acc port :
  In port (fold_left gnmap_line ls acc) ->
  In port acc \/
  exists line, In line ls /\ PyStr.contains "/tcp" line = true
               /\ PyStr.contains "open" line = true
               /\ Re.re_match Re.port_pattern line = Some port.
Proof.
  revert acc. induction ls as [|line ls IH]; intros acc H; cbn [fold_left] in H; [auto |].
  apply IH in H as [H | (l & Hl & Hrest)];
    [| right; exists l; split; [right; exact Hl | exact Hrest]].
  unfold gnmap_line in H.
  destruct (PyStr.contains "/tcp" line) eqn:Ht; [| auto].
  destruct (PyStr.contains "open" line) eqn:Ho; [| auto]. cbn [andb] in H.
  destruct (Re.re_match Re.port_pattern line) as [p |] eqn:Hm; [| auto].
  apply in_app_or in H as [H | [<- | []]]; [auto |].
  right. exists line. split; [left; reflexivity | auto].
Qed.

(** X12.  Every port listed for a host in the grep-friendly file is a run
    of digits followed by "/tcp", taken from the very beginning of a line of
    the probe output that contains both "/tcp" and "open": indented lines and
    lines of other protocols are never listed. *)
Theorem gnmap_ports_are_tcp_tokens (output port : string) :
  In port (gnmap_ports output) ->
  (exists ds, port = ds +:+ "/tcp" /\ ds <> EmptyString /\ all_chars Re.isdigit ds = true)
  /\ exists line, In line (PyStr.lines output)
                  /\ String.prefix port line = true
                  /\ PyStr.contains "/tcp" line = true
                  /\ PyStr.contains "open" line = true.
Proof.
  intros H. unfold gnmap_ports in H.
  apply gnmap_ports_in in H as [[] | (line & Hl & Ht & Ho & Hm)].
  unfold Re.re_match in Hm. split.
  - exact (match_port_shape _ _ Hm).
  - exists line. destruct (match_here_spec _ _ _ Hm) as [_ Hp]. auto.
Qed.

Lemma gnmap_ports_are_tcp_tokens_witness :
  exists ds, "80/tcp" = ds +:+ "/tcp" /\ ds <> EmptyString
             /\ all_chars Re.isdigit ds = true.
Proof.
  destruct (gnmap_ports_are_tcp_tokens http_output "80/tcp" (or_introl eq_refl)) as [H _].
  exact H.
Defined.

(** ** The addresses of the fallback *)

Lemma NoDup_map_inj {A B : Type} (f : A -> B) (l : list A) :
  (forall x y, In x l -> In y l -> f x = f y -> x = y) ->
  List.NoDup l -> List.NoDup (map f l).
Proof.
  intros Hinj Hnd. induction Hnd as [|a l Hnot Hnd IH]; simpl; constructor.
  - rewrite in_map_iff. intros (x & Hfx & Hx). apply Hnot.
    rewrite <- (Hinj x a); auto; [right; exact Hx | left; reflexivity].
  - apply IH. intros x y Hx Hy. apply Hinj; right; assumption.
Qed.

Lemma range_NoDup a b : List.NoDup (IPv4.range a b).
Proof.
  unfold IPv4.range. apply NoDup_map_inj; [| apply List.seq_NoDup].
  intros x y _ _ H. lia.
Qed.

Lemma range_length a b : Z.of_nat (length (IPv4.range a b)) = Z.max 0 (b - a).
Proof. unfold IPv4.range. rewrite length_map, length_seq. lia. Qed.

(** X13.  The addresses the fallback enumerates are pairwise different and
    all lie in the range, between its network and its broadcast address.
    There are [2 ^ (32 - p) - 2] of them for a prefix length [p] of at most
    30, and as many as the range has addresses for 31 and 32; the host list
    handed to the scans has the same length. *)
Theorem fallback_addresses_distinct_in_range (s : scanner) :
  IPv4.wf (network s) ->
  let n := network s in
  List.NoDup (IPv4.hosts n)
  /\ (forall a, In a (IPv4.hosts n) ->
                IPv4.network_address n <= a <= IPv4.broadcast_address n)
  /\ (IPv4.prefixlen n <= 30 ->
      Z.of_nat (length (all_hosts s)) = 2 ^ (32 - IPv4.prefixlen n) - 2)
  /\ (31 <= IPv4.prefixlen n ->
      Z.of_nat (length (all_hosts s)) = IPv4.num_addresses n).
Proof.
  intros Hwf n. pose proof (broadcast_eq _ Hwf) as Hbc. fold n in Hbc.
  destruct Hwf as (Hp & Hn & _). fold n in Hp, Hn.
  unfold all_hosts, IPv4.num_addresses. rewrite length_map. fold n.
  unfold IPv4.hosts, IPv4.max_prefixlen.
  assert (Hpow : 1 <= 2 ^ (32 - IPv4.prefixlen n))
    by (apply (Z.pow_le_mono_r 2 0); lia).
  destruct (Z.eqb_spec (IPv4.prefixlen n) (32 - 1)) as [H31 | H31].
  - rewrite H31 in Hbc. change (2 ^ (32 - (32 - 1))) with 2 in Hbc.
    split; [apply range_NoDup |]. split; [| split].
    + intros a Ha. apply in_range in Ha. lia.
    + lia.
    + intros _. rewrite range_length. lia.
  - destruct (Z.eqb_spec (IPv4.prefixlen n) 32) as [H32 | H32].
    + rewrite H32 in Hbc. change (2 ^ (32 - 32)) with 1 in Hbc.
      split; [repeat constructor; intros [] |]. split; [| split].
      * intros a [<- | []]. lia.
      * lia.
      * intros _. simpl. lia.
    + assert (Hpow4 : 2 ^ 2 <= 2 ^ (32 - IPv4.prefixlen n))
        by (apply Z.pow_le_mono_r; lia).
      change (2 ^ 2) with 4 in Hpow4.
      split; [apply range_NoDup |]. split; [| split].
      * intros a Ha. apply in_range in Ha. lia.
      * intros _. rewrite range_length. lia.
      * lia.
Qed.

Lemma fallback_addresses_distinct_in_range_witness :
  List.NoDup (IPv4.hosts (network sample_scanner))
  /\ Z.of_nat (length (all_hosts sample_scanner)) = 2.
Proof.
  destruct (fallback_addresses_distinct_in_range sample_scanner
              (make_wf 3232235776 30 ltac:(lia) ltac:(lia))) as (Hnd & _ & Hlen & _).
  split; [exact Hnd |]. apply Hlen. simpl. lia.
Defined.

(** ** The state a successful run leaves *)

Lemma setup_counters e a fs s st :
  setup e a fs = inr (s, st) -> active_scans st = 0 /\ completed_scans st = 0.
Proof.
  unfold setup, init.
  destruct ((arg_threads a <? 1) || (200 <? arg_threads a)); [discriminate |].
  destruct (ipv4_parse e (arg_range a)) as [msg | [addr p]]; [discriminate |].
  intros H. injection H as _ <-.
  destruct (65536 <? IPv4.num_addresses (IPv4.make addr p)); auto.
Qed.

(** When the scans of [run_scan] are over, the number of hosts scanned is
    the length of the list the discovery stage returned. *)
Lemma run_scan_to_join_hosts e s sched st n st' :
  run_scan_to_join e s sched st = (Return (Some n), st') ->
  exists hosts, fst (ping_sweep e s st) = Return hosts
                /\ hosts <> [] /\ n = length hosts.
Proof.
  unfold run_scan_to_join.
  destruct (check_nmap_installed e st) as [[[|]|x] st1]; try discriminate.
  match goal with
  | |- context [ping_sweep e s ?st5] =>
      rewrite (ping_sweep_fst e s st st5);
      destruct (ping_sweep e s st5) as [[[|h hs]|x] st6]
  end; try discriminate.
  match goal with
  | |- context [init_pool (max_threads s) (h :: hs) ?st8] =>
      destruct (init_pool (max_threads s) (h :: hs) st8) as [p0|]; [| discriminate]
  end.
  intros H. exists (h :: hs). split; [reflexivity |]. split; [discriminate |].
  destruct (interrupt e); inversion H; reflexivity.
Qed.

(** X14.  When the process exits with code 0, every host the discovery
    stage returned has been scanned: the completed counter equals their
    number, no scan is active, and the result queue has been emptied by the
    save. *)
Theorem exit_zero_final_state (e : env) (a : args) (sched : list nat)
  (fs : gmap string string) (s : scanner) (st : state) :
  setup e a fs = inr (s, st) ->
  fst (main e a sched fs) = 0 ->
  exists hosts,
    fst (ping_sweep e s st) = Return hosts
    /\ hosts <> []
    /\ completed_scans (snd (main e a sched fs)) = Z.of_nat (length hosts)
    /\ active_scans (snd (main e a sched fs)) = 0
    /\ results_queue (snd (main e a sched fs)) = [].
Proof.
  intros Hsetup Hcode.
  destruct (setup_counters _ _ _ _ _ Hsetup) as [Ha0 Hc0].
  destruct (run_scan_to_join e s sched st) as [r st1] eqn:Hjoin.
  destruct (main_after_join e a sched fs s st Hsetup st1) as [Hnorm _].
  destruct r as [[n |] | x].
  - destruct (Hnorm n Hjoin) as (_ & Ha & Hc & Hq & _).
    destruct (run_scan_to_join_counters _ _ _ _ _ _ Hjoin) as [Hc1 Ha1].
    destruct (run_scan_to_join_hosts _ _ _ _ _ _ Hjoin) as (hosts & Hp & Hne & ->).
    destruct (save_results_counters e s st1) as [Hsa Hsc].
    exists hosts. split; [exact Hp |]. split; [exact Hne |].
    rewrite Hc, Ha, Hq, Hsa, Hsc, save_results_queue. repeat split; lia.
  - exfalso. unfold main, run_scan in Hcode. rewrite Hsetup, Hjoin in Hcode.
    discriminate Hcode.
  - exfalso. unfold main, run_scan in Hcode. rewrite Hsetup, Hjoin in Hcode.
    destruct x; discriminate Hcode.
Qed.

Lemma exit_zero_final_state_witness :
  let r := main (sample_env sweep_two_hosts probe_one_open NoInterrupt) sample_args
             [1; 0; 0; 1]%nat ∅ in
  completed_scans (snd r) = 2 /\ active_scans (snd r) = 0 /\ results_queue (snd r) = [].
Proof.
  cbv zeta.
  pose (e := sample_env sweep_two_hosts probe_one_open NoInterrupt).
  pose (st := match setup e sample_args ∅ with inl st => st | inr (_, st) => st end).
  assert (H1 : setup e sample_args ∅ = inr (sample_scanner, st))
    by (vm_compute; reflexivity).
  assert (H2 : fst (main e sample_args [1; 0; 0; 1]%nat ∅) = 0)
    by (vm_compute; reflexivity).
  destruct (exit_zero_final_state e sample_args [1; 0; 0; 1]%nat ∅ sample_scanner st H1 H2)
    as (hosts & Hp & _ & Hc & Ha & Hq).
  assert (Hh : hosts = ["192.168.1.1"; "192.168.1.2"]).
  { assert (Hr : fst (ping_sweep e sample_scanner st)
                 = Return ["192.168.1.1"; "192.168.1.2"]) by (vm_compute; reflexivity).
    rewrite Hr in Hp. injection Hp as <-. reflexivity. }
  subst hosts. split; [exact Hc |]. split; [exact Ha | exact Hq].
Defined.

(** ** The last line of a completed scan *)

(** X15.  The summary line at the end of a completed scan always reports 0
    hosts with results, however many results were saved: it reads the size of
    the queue after [save_results] has drained it. *)
Theorem summary_always_reports_zero (e : env) (s : scanner) (sched : list nat)
  (st st1 : state) (n : nat) :
  run_scan_to_join e s sched st = (Return (Some n), st1) ->
  fst (run_scan e s sched st) = Return true
  /\ exists before,
      trace (snd (run_scan e s sched st)) =
        before ++ [EvPrint ("[+] Scanned " +:+ PyStr.str_Z (Z.of_nat n) +:+ " live hosts");
                   EvPrint "[+] Found results for 0 hosts"].
Proof.
  intros Hjoin. unfold run_scan. rewrite Hjoin. cbn [fst snd]. split; [reflexivity |].
  pose proof (save_results_queue e s st1) as Hq.
  set (st2 := save_results e s st1) in *.
  exists (trace st2 ++ [EvPrint (PyStr.NL +:+ "[+] Scan completed in " +:+ elapsed_time e
                                 +:+ " seconds")]).
  unfold print, emit. cbn [trace results_queue]. rewrite Hq.
  rewrite <- !app_assoc. reflexivity.
Qed.

Lemma summary_always_reports_zero_witness :
  exists before,
    trace (snd (run_scan (sample_env sweep_two_hosts probe_one_open NoInterrupt)
                  sample_scanner [] (start_state ∅))) =
      before ++ [EvPrint "[+] Scanned 2 live hosts";
                 EvPrint "[+] Found results for 0 hosts"].
Proof.
  pose (e := sample_env sweep_two_hosts probe_one_open NoInterrupt).
  pose (st1 := snd (run_scan_to_join e sample_scanner [] (start_state ∅))).
  assert (H : run_scan_to_join e sample_scanner [] (start_state ∅)
              = (Return (Some 2%nat), st1)) by (vm_compute; reflexivity).
  destruct (summary_always_reports_zero e sample_scanner [] (start_state ∅) st1 2 H)
    as [_ Hex].
  exact Hex.
Defined.

(** ** Every host is probed once *)

Lemma launches_app h tr1 tr2 : launches h (tr1 ++ tr2) = (launches h tr1 + launches h tr2)%nat.
Proof. unfold launches. rewrite List.filter_app, length_app. reflexivity. Qed.

Lemma launches_prints h msgs : launches h (map EvPrint msgs) = 0%nat.
Proof. induction msgs as [|m msgs IH]; [reflexivity | exact IH]. Qed.

Lemma launches_prints_only h st st' :
  prints_only st st' -> launches h (trace st') = launches h (trace st).
Proof. intros [msgs ->]. rewrite launches_app, launches_prints. lia. Qed.

Lemma probe_cmd_inj h h' : probe_cmd h = probe_cmd h' -> h = h'.
Proof. unfold probe_cmd. intros H. injection H as H. exact H. Qed.

Lemma launches_probe h h0 :
  launches h [EvRun (probe_cmd h0)] = if String.eqb h0 h then 1%nat else 0%nat.
Proof.
  unfold launches. simpl. destruct (String.eqb_spec h0 h) as [-> | Hne].
  - rewrite bool_decide_eq_true_2 by reflexivity. reflexivity.
  - rewrite bool_decide_eq_false_2; [reflexivity |].
    intros H. apply probe_cmd_inj in H. congruence.
Qed.

(** A step of a busy thread launches the probe it was about to launch, or
    launches nothing. *)
Lemma worker_step_launches e s n ph st h :
  ph <> Idle ->
  (launches h (trace (snd (worker_step e s n ph st)))
   + to_launch h (fst (worker_step e s n ph st))
   = launches h (trace st) + to_launch h ph)%nat.
Proof.
  intros Hne. destruct ph as [|h0|h0|h0|h0|h0]; [congruence | | | | |];
    cbn [worker_step fst snd].
  - reflexivity.
  - cbn [emit print trace to_launch]. rewrite !launches_app, launches_probe.
    change (launches h [EvPrint (scanning_msg h0 n st)]) with 0%nat. lia.
  - pose proof (launches_prints_only h _ _ (classify_prints_only e h0 st)) as Hl.
    destruct (classify e h0 st) as [[|] st1]; cbn [fst snd to_launch] in *; lia.
  - unfold do_sleep. destruct (time_sleep e (delay s)) as [msg | q];
      cbn [emit print trace to_launch]; rewrite launches_app.
    + match goal with
      | |- context [launches h [EvPrint ?m]] =>
          change (launches h [EvPrint m]) with 0%nat
      end. lia.
    + change (launches h [EvSleep q]) with 0%nat. lia.
  - cbn [leave_scan trace to_launch]. lia.
Qed.

Lemma step_launch_balance e s n h p p' :
  step e s n p p' -> launch_balance h p' = launch_balance h p.
Proof.
  intros [i Hs]. unfold launch_balance.
  apply pool_step_inv in Hs as (ph & Hph & [(-> & h0 & rest & Hp & ->) | (Hne & ->)]);
    cbn [pending workers shared].
  - rewrite Hp. pose proof (list_sum_insert (to_launch h) _ _ _ (Claimed h0) Hph) as Hi.
    simpl in *. destruct (string_dec h0 h) as [-> | Hneq].
    + rewrite String.eqb_refl in Hi. lia.
    + apply String.eqb_neq in Hneq. rewrite Hneq in Hi. lia.
  - pose proof (list_sum_insert (to_launch h) _ _ _
                  (fst (worker_step e s n ph (shared p))) Hph) as Hi.
    pose proof (worker_step_launches e s n ph (shared p) h Hne) as Hw. lia.
Qed.

Lemma reachable_launch_balance e s n h p p' :
  reachable e s n p p' -> launch_balance h p' = launch_balance h p.
Proof.
  intros Hr. induction Hr as [|p1 p2 p3 H12 _ IH]; [reflexivity |].
  rewrite IH. eapply step_launch_balance; eauto.
Qed.

Lemma idle_launch_nothing h (l : list phase) :
  forallb is_idle l = true -> list_sum (map (to_launch h) l) = 0%nat.
Proof.
  induction l as [|a l IH]; simpl; [reflexivity |].
  intros H. apply andb_true_iff in H as [Ha Hl].
  destruct a; try discriminate. simpl. auto.
Qed.

(** X16.  Under every scheduler, when the pool has finished, the detailed
    probe of each host has been launched exactly as often as the host occurs
    in the dispatched list: every discovered host is probed, none twice for
    one entry, and no address outside the list is probed. *)
Theorem every_host_probed_once (e : env) (s : scanner) (n : nat) (threads : Z)
  (hosts : list string) (st : state) (p0 p : pool) (h : string) :
  init_pool threads hosts st = Some p0 ->
  reachable e s n p0 p ->
  finished p = true ->
  launches h (trace (shared p))
  = (launches h (trace st) + count_occ string_dec hosts h)%nat.
Proof.
  intros Hinit Hr Hf.
  pose proof (reachable_launch_balance e s n h _ _ Hr) as Hb.
  unfold init_pool in Hinit. destruct (_ <=? 0); [discriminate |].
  injection Hinit as <-. unfold launch_balance in Hb. cbn [pending workers shared] in Hb.
  unfold finished in Hf. destruct (pending p); [| discriminate].
  rewrite (idle_launch_nothing h _ Hf) in Hb.
  rewrite (idle_launch_nothing h (replicate _ Idle)) in Hb.
  - simpl in Hb. lia.
  - clear. induction (Z.to_nat _) as [|k IH]; simpl; auto.
Qed.

Lemma every_host_probed_once_witness :
  let e := sample_env sweep_two_hosts probe_one_open NoInterrupt in
  let p := run_pool e sample_scanner 2 [1; 0; 1; 1; 0]%nat sample_pool in
  launches "192.168.1.2" (trace (shared p)) = 1%nat
  /\ launches "192.168.1.9" (trace (shared p)) = 0%nat.
Proof.
  cbv zeta. split.
  - apply (every_host_probed_once
             (sample_env sweep_two_hosts probe_one_open NoInterrupt) sample_scanner 2 50
             ["192.168.1.1"; "192.168.1.2"] (start_state ∅) sample_pool _ "192.168.1.2"
             eq_refl (run_pool_reachable _ _ _ _ _)).
    apply run_pool_finished. simpl. lia.
  - apply (every_host_probed_once
             (sample_env sweep_two_hosts probe_one_open NoInterrupt) sample_scanner 2 50
             ["192.168.1.1"; "192.168.1.2"] (start_state ∅) sample_pool _ "192.168.1.9"
             eq_refl (run_pool_reachable _ _ _ _ _)).
    apply run_pool_finished. simpl. lia.
Defined.

(** ** What a completed run writes *)

Lemma worker_step_files e s n ph st : files (snd (worker_step e s n ph st)) = files st.
Proof.
  destruct ph as [|h|h|h|h|h]; simpl; try reflexivity.
  - pose proof (classify_store e h st) as (_ & _ & Hf & _).
    destruct (classify e h st) as [ok st1]. exact Hf.
  - destruct (do_sleep_same_store e s h st) as (_ & _ & _ & Hf). exact Hf.
Qed.

Lemma step_files e s n p p' : step e s n p p' -> files (shared p') = files (shared p).
Proof.
  intros [i Hs].
  apply pool_step_inv in Hs as (ph & _ & [(_ & h & rest & _ & ->) | (_ & ->)]).
  - reflexivity.
  - apply worker_step_files.
Qed.

Lemma reachable_files e s n p p' :
  reachable e s n p p' -> files (shared p') = files (shared p).
Proof.
  induction 1 as [|p q r Hs _ IH]; [reflexivity |].
  rewrite IH. eapply step_files; eauto.
Qed.

(** When the scans of [run_scan] are over, no file has changed and the queue
    holds the results of the discovered hosts, after what it held before. *)
Lemma run_scan_to_join_store e s sched st n st' :
  run_scan_to_join e s sched st = (Return (Some n), st') ->
  exists hosts,
    fst (ping_sweep e s st) = Return hosts
    /\ files st' = files st
    /\ Permutation (results_queue st')
         (results_queue st ++ flat_map (result_of e) hosts).
Proof.
  unfold run_scan_to_join.
  pose proof (check_nmap_same_store e st) as (_ & _ & Hq1 & Hf1).
  destruct (check_nmap_installed e st) as [[[|]|x] st1]; try discriminate.
  simpl in Hq1, Hf1.
  match goal with
  | |- context [ping_sweep e s ?st5] =>
      rewrite (ping_sweep_fst e s st st5);
      pose proof (ping_sweep_same_store e s st5) as (_ & _ & Hq2 & Hf2);
      destruct (ping_sweep e s st5) as [[[|h hs]|x] st6]
  end; try discriminate.
  simpl in Hq2, Hf2.
  match goal with
  | |- context [init_pool (max_threads s) (h :: hs) ?st8] =>
      destruct (init_pool (max_threads s) (h :: hs) st8) as [p0|] eqn:Hinit;
      [| discriminate]
  end.
  set (p := run_pool e s (length (h :: hs)) sched p0).
  assert (Hr : reachable e s (length (h :: hs)) p0 p) by apply run_pool_reachable.
  assert (Hf : finished p = true).
  { apply run_pool_finished.
    destruct (init_pool_accounts _ _ _ _ Hinit) as [[Hw _ _] Hmin]. rewrite Hw. lia. }
  pose proof (finished_queue _ _ _ _ _ _ _ _ Hinit Hr Hf) as Hperm.
  pose proof (reachable_files _ _ _ _ _ Hr) as Hfiles.
  assert (Hp0 : shared p0 = print ("[*] Using "
                   +:+ PyStr.str_Z (Z.min (max_threads s) (Z.of_nat (length (h :: hs))))
                   +:+ " concurrent threads")
                  (print ("[*] Starting detailed scans on "
                          +:+ PyStr.str_Z (Z.of_nat (length (h :: hs))) +:+ " hosts") st6)).
  { unfold init_pool in Hinit. destruct (_ <=? 0); [discriminate |].
    injection Hinit as <-. reflexivity. }
  intros H.
  assert (Hn : st' = shared p) by (destruct (interrupt e); inversion H; auto).
  subst st'. exists (h :: hs). split; [reflexivity |]. split.
  - rewrite Hfiles, Hp0. cbn [files print emit]. rewrite Hf2. cbn [files print emit].
    exact Hf1.
  - eapply Permutation_trans; [exact Hperm |]. cbn [results_queue print emit].
    rewrite Hq2. cbn [results_queue print emit]. rewrite Hq1. reflexivity.
Qed.

(** X6.  A run that ends with exit code 0 has saved exactly the results of
    the hosts the discovery stage returned: with every file writable, the
    three output files hold the texts of a queue that lists, in the order
    the threads finished, the hosts whose probe returned status 0 with an
    open indication, each paired with its probe output; when there is no
    such host the file system is left as it was. *)
Theorem completed_run_saves_every_result (e : env) (a : args) (sched : list nat)
  (fs : gmap string string) (s : scanner) (st : state) :
  setup e a fs = inr (s, st) ->
  fst (main e a sched fs) = 0 ->
  (forall name, open_error e name = None) ->
  let final := snd (main e a sched fs) in
  exists hosts q,
    fst (ping_sweep e s st) = Return hosts
    /\ Permutation q (flat_map (result_of e) hosts)
    /\ (q = [] -> files final = fs)
    /\ (q <> [] ->
        files final !! (output_base s +:+ ".xml") = Some (xml_text q)
        /\ files final !! (output_base s +:+ ".nmap") = Some (nmap_text e s q)
        /\ files final !! (output_base s +:+ ".gnmap") = Some (gnmap_text q)).
Proof.
  intros Hsetup Hcode Hw final. subst final.
  pose proof (setup_state e a fs) as Hst. rewrite Hsetup in Hst.
  destruct Hst as (Hfs0 & Hq0 & _).
  destruct (run_scan_to_join e s sched st) as [r st1] eqn:Hjoin.
  destruct (main_after_join e a sched fs s st Hsetup st1) as [Hnorm _].
  destruct r as [[n |] | x].
  - destruct (Hnorm n Hjoin) as (_ & _ & _ & _ & Hfs).
    destruct (run_scan_to_join_store _ _ _ _ _ _ Hjoin) as (hosts & Hp & Hf1 & Hperm).
    rewrite Hq0 in Hperm. simpl in Hperm.
    exists hosts, (results_queue st1).
    split; [exact Hp |]. split; [exact Hperm |]. split.
    + intros Hq. rewrite Hfs, (save_results_empty e s st1 Hq). simpl.
      rewrite Hf1. exact Hfs0.
    + intros Hq. rewrite Hfs. exact (save_results_files e s st1 Hq Hw).
  - exfalso. unfold main, run_scan in Hcode. rewrite Hsetup, Hjoin in Hcode.
    discriminate Hcode.
  - exfalso. unfold main, run_scan in Hcode. rewrite Hsetup, Hjoin in Hcode.
    destruct x; discriminate Hcode.
Qed.

(** The sample run: of the two hosts only [.1] has an open port, and the
    grep-friendly file is the text of its result alone. *)
Lemma completed_run_saves_every_result_witness :
  files (snd (main (sample_env sweep_two_hosts probe_one_open NoInterrupt) sample_args
                [1; 0; 0; 1]%nat ∅))
    !! "192-168-1-0_30-network.gnmap"
  = Some (gnmap_text [("192.168.1.1", http_output)]).
Proof.
  pose (e := sample_env sweep_two_hosts probe_one_open NoInterrupt).
  pose (st := match setup e sample_args ∅ with inl st => st | inr (_, st) => st end).
  assert (H1 : setup e sample_args ∅ = inr (sample_scanner, st))
    by (vm_compute; reflexivity).
  assert (H2 : fst (main e sample_args [1; 0; 0; 1]%nat ∅) = 0)
    by (vm_compute; reflexivity).
  destruct (completed_run_saves_every_result e sample_args [1; 0; 0; 1]%nat ∅
              sample_scanner st H1 H2 (fun _ => eq_refl))
    as (hosts & q & Hp & Hperm & _ & Hne).
  assert (Hh : hosts = ["192.168.1.1"; "192.168.1.2"]).
  { assert (Hr : fst (ping_sweep e sample_scanner st)
                 = Return ["192.168.1.1"; "192.168.1.2"]) by (vm_compute; reflexivity).
    rewrite Hr in Hp. injection Hp as <-. reflexivity. }
  subst hosts.
  assert (Hfm : flat_map (result_of e) ["192.168.1.1"; "192.168.1.2"]
                = [("192.168.1.1", http_output)]) by (vm_compute; reflexivity).
  rewrite Hfm in Hperm.
  apply Permutation_sym, Permutation_length_1_inv in Hperm. subst q.
  destruct (Hne ltac:(discriminate)) as (_ & _ & Hg).
  exact Hg.
Defined.

(** An interrupt during the scans can reach [main] while a thread is still
    inside [scan_host]: the state [main] returns then has an active scan and
    a host that was never started, and the partial save writes what the queue
    held at that moment. *)
Example interrupted_scan_leaves_thread_active :
  let e := sample_env sweep_two_hosts probe_one_open AtScan in
  let early := main e sample_args [0; 0; 0]%nat ∅ in
  let later := main e sample_args [0; 0; 0; 0]%nat ∅ in
  fst early = 1
  /\ active_scans (snd early) = 1
  /\ completed_scans (snd early) = 0
  /\ files (snd early) = ∅
  /\ fst later = 1
  /\ active_scans (snd later) = 1
  /\ files (snd later) !! "192-168-1-0_30-network.gnmap"
     = Some (gnmap_text [("192.168.1.1", http_output)]).
Proof. vm_compute. repeat split. Qed.

(** ** Results and the ports listed for them (C9) *)

Lemma prefix_app_inv r s : String.prefix r s = true -> exists rest, s = r +:+ rest.
Proof.
  revert s. induction r as [|c r IH]; intros s H.
  - exists s. reflexivity.
  - destruct s as [|d s]; simpl in H; [discriminate |].
    destruct (ascii_dec c d) as [-> | _]; [| discriminate].
    destruct (IH s H) as [rest ->]. exists rest. reflexivity.
Qed.

Lemma prefix_app r rest : String.prefix r (r +:+ rest) = true.
Proof.
  induction r as [|c r IH].
  - destruct rest; reflexivity.
  - change (String.prefix (String c r) (String c (r +:+ rest)) = true).
    simpl. destruct (ascii_dec c c); [exact IH | congruence].
Qed.

Lemma contains_middle sub a b : PyStr.contains sub (a +:+ sub +:+ b) = true.
Proof.
  induction a as [|c a IH].
  - apply contains_prefix. exact (prefix_app sub b).
  - change (PyStr.contains sub (String c (a +:+ sub +:+ b)) = true).
    apply contains_tail, IH.
Qed.

(** [r'(\d+/tcp)'] matches at the start of every text that begins with a
    run of digits followed by "/tcp", and picks exactly that. *)
Lemma match_port_complete ds rest :
  ds <> EmptyString -> all_chars Re.isdigit ds = true ->
  Re.match_here Re.port_pattern (ds +:+ "/tcp" +:+ rest) = Some (ds +:+ "/tcp").
Proof.
  unfold Re.port_pattern. induction ds as [|d ds IH]; intros Hne Hds; [congruence |].
  simpl in Hds. apply andb_true_iff in Hds as [Hd Hds].
  change (String d ds +:+ "/tcp" +:+ rest) with (String d (ds +:+ "/tcp" +:+ rest)).
  rewrite match_here_digits_cons, Hd.
  destruct ds as [|d' ds'].
  - reflexivity.
  - rewrite IH by (auto; discriminate). reflexivity.
Qed.

Lemma gnmap_fold_mono ls acc x :
  In x acc -> In x (fold_left gnmap_line ls acc).
Proof.
  revert acc. induction ls as [|line ls IH]; intros acc H; cbn [fold_left]; [exact H |].
  apply IH. unfold gnmap_line.
  destruct (PyStr.contains "/tcp" line && PyStr.contains "open" line); [| exact H].
  destruct (Re.re_match Re.port_pattern line); [| exact H].
  apply in_or_app. auto.
Qed.

Lemma gnmap_ports_complete ls acc line port :
  In line ls ->
  PyStr.contains "/tcp" line = true -> PyStr.contains "open" line = true ->
  Re.re_match Re.port_pattern line = Some port ->
  In port (fold_left gnmap_line ls acc).
Proof.
  revert acc. induction ls as [|l ls IH]; intros acc Hin Ht Ho Hm; [destruct Hin |].
  cbn [fold_left]. destruct Hin as [-> | Hin].
  - apply gnmap_fold_mono. unfold gnmap_line. rewrite Ht, Ho, Hm. cbn [andb].
    apply in_or_app. right. left. reflexivity.
  - apply IH; assumption.
Qed.

(** The ports listed for an output, from its lines alone. *)
Lemma gnmap_ports_by_lines out :
  ((forall line ds rest,
       In line (PyStr.lines out) -> line = ds +:+ "/tcp" +:+ rest ->
       ds <> EmptyString -> all_chars Re.isdigit ds = true ->
       PyStr.contains "open" line = false) ->
   gnmap_ports out = [])
  /\ (forall line ds rest,
         In line (PyStr.lines out) -> line = ds +:+ "/tcp" +:+ rest ->
         ds <> EmptyString -> all_chars Re.isdigit ds = true ->
         PyStr.contains "open" line = true ->
         In (ds +:+ "/tcp") (gnmap_ports out)).
Proof.
  split.
  - intros Hnone. destruct (gnmap_ports out) as [|port ports] eqn:Hg; [reflexivity |].
    exfalso.
    assert (Hin : In port (gnmap_ports out)) by (rewrite Hg; left; reflexivity).
    unfold gnmap_ports in Hin.
    apply gnmap_ports_in in Hin as [[] | (line & Hl & _ & Ho & Hm)].
    unfold Re.re_match in Hm.
    destruct (match_port_shape _ _ Hm) as (ds & -> & Hne & Hds).
    destruct (match_here_spec _ _ _ Hm) as [_ Hp].
    apply prefix_app_inv in Hp as [rest Hline].
    rewrite append_assoc in Hline.
    rewrite (Hnone line ds rest Hl Hline Hne Hds) in Ho. discriminate Ho.
  - intros line ds rest Hl -> Hne Hds Ho. unfold gnmap_ports.
    apply (gnmap_ports_complete _ _ (ds +:+ "/tcp" +:+ rest)); auto.
    + apply (contains_middle "/tcp" ds rest).
    + apply match_port_complete; assumption.
Qed.

Lemma gnmap_host_unlisted h out : gnmap_ports out = [] -> gnmap_host (h, out) = EmptyString.
Proof. intros H. unfold gnmap_host. cbn [fst snd]. rewrite H. reflexivity. Qed.

Lemma gnmap_host_listed h out :
  gnmap_ports out <> [] ->
  gnmap_host (h, out) =
    "Host: " +:+ h +:+ " () Status: Up" +:+ PyStr.NL +:+
    "Host: " +:+ h +:+ " () Ports: " +:+ PyStr.join "/" (gnmap_ports out) +:+ PyStr.NL.
Proof.
  intros H. unfold gnmap_host. cbn [fst snd].
  destruct (gnmap_ports out); [congruence | reflexivity].
Qed.

(** The claim as the specification words it fails on a closed port whose
    service name contains "open": the probe is recorded,
    [process_scan_result] finds no open port in it, and the grep-friendly
    file lists the port all the same. *)
Lemma closed_port_with_open_in_service_is_listed :
  let e := sample_env sweep_two_hosts probe_closed_openssh NoInterrupt in
  let st := scan_host e sample_scanner 1 "192.168.1.1" (start_state ∅) in
  nmap_probe e "192.168.1.1" = Completed 0 closed_openssh_output
  /\ results_queue st = [("192.168.1.1", closed_openssh_output)]
  /\ open_ports (fold_left port_line (PyStr.lines closed_openssh_output)
                   {| in_port_section := false; open_ports := [];
                      loop_state := start_state ∅ |}) = []
  /\ files (save_results e sample_scanner st) !! "192-168-1-0_30-network.gnmap"
     = Some ("Host: 192.168.1.1 () Status: Up" +:+ PyStr.NL +:+
             "Host: 192.168.1.1 () Ports: 22/tcp" +:+ PyStr.NL).
Proof. vm_compute. repeat split. Qed.

(** C9.  A probe with exit status 0 whose output contains "open" in any
    letter case is recorded, whatever its lines are.  Once saved with every
    file writable, the result has its host element in the structured-markup
    file and its section in the log file.  The grep-friendly file is decided
    by the lines of the output alone: when no line that begins with digits
    followed by "/tcp" contains "open", the file is what it would be without
    the result; when some line does, the file has the two lines of the host,
    and the ports listed there include the one that begins that line --
    whatever the state column of the line says. *)
Theorem open_substring_recorded_and_listed_by_line (e : env) (s : scanner) (n : nat)
  (h out : string) (st : state) :
  nmap_probe e h = Completed 0 out ->
  PyStr.contains "open" (PyStr.lower out) = true ->
  results_queue (scan_host e s n h st) = results_queue st ++ [(h, out)]
  /\ forall st1 l1 l2,
      results_queue st1 = l1 ++ (h, out) :: l2 ->
      (forall name, open_error e name = None) ->
      let st2 := save_results e s st1 in
      let quote := String (ascii_of_nat 34) EmptyString in
      let rule := PyStr.repeat_char "=" 60 in
      (exists pre post,
          files st2 !! (output_base s +:+ ".xml")
          = Some (pre +:+ "  <host ip=" +:+ quote +:+ h +:+ quote +:+ ">" +:+ PyStr.NL
                  +:+ "    <output><![CDATA[" +:+ out +:+ "]]></output>" +:+ PyStr.NL
                  +:+ "  </host>" +:+ PyStr.NL +:+ post))
      /\ (exists pre post,
          files st2 !! (output_base s +:+ ".nmap")
          = Some (pre +:+ rule +:+ PyStr.NL +:+ "Host: " +:+ h +:+ PyStr.NL
                  +:+ rule +:+ PyStr.NL +:+ out +:+ PyStr.NL +:+ PyStr.NL +:+ post))
      /\ ((forall line ds rest,
              In line (PyStr.lines out) -> line = ds +:+ "/tcp" +:+ rest ->
              ds <> EmptyString -> all_chars Re.isdigit ds = true ->
              PyStr.contains "open" line = false) ->
          files st2 !! (output_base s +:+ ".gnmap") = Some (gnmap_text (l1 ++ l2)))
      /\ (forall line ds rest,
             In line (PyStr.lines out) -> line = ds +:+ "/tcp" +:+ rest ->
             ds <> EmptyString -> all_chars Re.isdigit ds = true ->
             PyStr.contains "open" line = true ->
             exists pre post ports,
               In (ds +:+ "/tcp") ports
               /\ files st2 !! (output_base s +:+ ".gnmap")
                  = Some (pre +:+ "Host: " +:+ h +:+ " () Status: Up" +:+ PyStr.NL
                          +:+ "Host: " +:+ h +:+ " () Ports: " +:+ PyStr.join "/" ports
                          +:+ PyStr.NL +:+ post)).
Proof.
  intros Hp Ho. split.
  - rewrite scan_host_queue, Hp.
    assert (Hoi : open_indication 0 out = true) by (apply open_indication_spec; auto).
    rewrite Hoi. reflexivity.
  - intros st1 l1 l2 Hq Hw st2 quote rule. subst st2 quote rule.
    assert (Hne : results_queue st1 <> []).
    { rewrite Hq. intros H. destruct l1; discriminate H. }
    destruct (save_results_files e s st1 Hne Hw) as (Hx & Hn & Hgn).
    destruct (gnmap_ports_by_lines out) as [Hnone Hsome].
    rewrite Hx, Hn, Hgn, Hq. split; [| split; [| split]].
    + unfold xml_text. rewrite concat_str_split.
      exists ("<?xml version=" +:+ dq +:+ "1.0" +:+ dq +:+ " encoding=" +:+ dq +:+ "UTF-8"
              +:+ dq +:+ "?>" +:+ PyStr.NL +:+ "<nmaprun>" +:+ PyStr.NL
              +:+ concat_str (map xml_host l1)),
             (concat_str (map xml_host l2) +:+ "</nmaprun>" +:+ PyStr.NL).
      f_equal. unfold xml_host, dq. cbn [fst snd]. rewrite !append_assoc. reflexivity.
    + unfold nmap_text. rewrite concat_str_split.
      exists ("# Network scan results for " +:+ target_range s +:+ PyStr.NL
              +:+ "# Generated: " +:+ strftime_now e +:+ PyStr.NL +:+ PyStr.NL
              +:+ concat_str (map nmap_host l1)),
             (concat_str (map nmap_host l2)).
      f_equal. unfold nmap_host, rule60. cbn [fst snd]. rewrite !append_assoc. reflexivity.
    + intros Hlines. unfold gnmap_text.
      rewrite concat_str_split, map_app, concat_str_app.
      rewrite (gnmap_host_unlisted h out (Hnone Hlines)). reflexivity.
    + intros line ds rest Hl Hline Hds0 Hds Hopen.
      pose proof (Hsome line ds rest Hl Hline Hds0 Hds Hopen) as Hin.
      exists (concat_str (map gnmap_host l1)), (concat_str (map gnmap_host l2)),
             (gnmap_ports out).
      split; [exact Hin |]. f_equal. unfold gnmap_text. rewrite concat_str_split.
      rewrite (gnmap_host_listed h out) by (intros H0; rewrite H0 in Hin; exact Hin).
      rewrite !append_assoc. reflexivity.
Qed.

(** The probe of a closed port whose service is "openssh": recorded, and
    listed in the grep-friendly file under the port of that line. *)
Lemma open_substring_recorded_and_listed_by_line_witness :
  let e := sample_env sweep_two_hosts probe_closed_openssh NoInterrupt in
  let st := scan_host e sample_scanner 1 "192.168.1.1" (start_state ∅) in
  results_queue st = [("192.168.1.1", closed_openssh_output)]
  /\ exists pre post ports,
       In "22/tcp" ports
       /\ files (save_results e sample_scanner st) !! "192-168-1-0_30-network.gnmap"
          = Some (pre +:+ "Host: 192.168.1.1 () Status: Up" +:+ PyStr.NL
                  +:+ "Host: 192.168.1.1 () Ports: " +:+ PyStr.join "/" ports
                  +:+ PyStr.NL +:+ post).
Proof.
  cbv zeta.
  destruct (open_substring_recorded_and_listed_by_line
              (sample_env sweep_two_hosts probe_closed_openssh NoInterrupt) sample_scanner 1
              "192.168.1.1" closed_openssh_output (start_state ∅) eq_refl eq_refl)
    as [Hq Hf].
  split; [exact Hq |].
  destruct (Hf _ [] [] Hq (fun _ => eq_refl)) as (_ & _ & _ & Hg).
  exact (Hg "22/tcp closed openssh" "22" " closed openssh"
            (or_intror (or_introl eq_refl)) eq_refl ltac:(discriminate) eq_refl eq_refl).
Defined.

(** A state that is not open: the probe whose only "open" is in
    "open|filtered", on a line of another protocol, is recorded and written
    to the first two files, and has no entry in the grep-friendly one. *)
Example open_filtered_is_recorded_unlisted :
  let e := sample_env sweep_two_hosts probe_filtered NoInterrupt in
  let st := scan_host e sample_scanner 1 "192.168.1.1" (start_state ∅) in
  results_queue st = [("192.168.1.1", filtered_output)]
  /\ files (save_results e sample_scanner st) !! "192-168-1-0_30-network.xml"
     = Some (xml_text [("192.168.1.1", filtered_output)])
  /\ files (save_results e sample_scanner st) !! "192-168-1-0_30-network.gnmap"
     = Some EmptyString.
Proof. vm_compute. repeat split. Qed.
